(** * Wallet service: the ledger engine ([walletService], package [service])

    A shallow embedding of the wallet service (CreateWallet, GetWallet,
    Deposit, Transfer, GetTransactions), of the domain types it works on
    (package [domain]), of the repositories it calls (package [repository])
    and of the two collaborators it drives (the GORM/MySQL store and the
    Redis cache), followed by the properties of the ledger engine.

    Go's [int64] is a [Z] with the wrap-around written out, [uint] keys are
    [N], [float64] is the IEEE 754 binary64 format of [SpecFloat], strings
    are [string], tables keyed by primary key are [gmap]s and the
    append-only transactions table is a list in insertion order. *)

From stdpp Require Import gmap strings list pretty sorting.
From Corelib Require Import SpecFloat.
From Stdlib Require Import Ascii.

Local Open Scope Z_scope.

(** ** Machine integers: Go's [int64] *)

Module Int64.

Definition min_int : Z := - 2 ^ 63.
Definition max_int : Z := 2 ^ 63 - 1.
Definition modulus : Z := 2 ^ 64.

Definition in_range (z : Z) : Prop := min_int <= z <= max_int.

Definition in_rangeb (z : Z) : bool := (min_int <=? z) && (z <=? max_int).

(** Two's-complement wrap-around of an integer into the [int64] range. *)
Definition wrap (z : Z) : Z := (z - min_int) mod modulus + min_int.

(** Go's [+], [-] and unary [-] on [int64]: overflow wraps silently. *)
Definition add (x y : Z) : Z := wrap (x + y).
Definition sub (x y : Z) : Z := wrap (x - y).
Definition neg (x : Z) : Z := wrap (- x).

End Int64.

(** ** Floating point: Go's [float64] *)

Module Float64.

Definition prec : Z := 53.
Definition emax : Z := 1024.

(** A [float64] is an IEEE 754 binary64 datum. *)
Definition float64 : Type := spec_float.

(** The conversion of an integer constant (correctly rounded). *)
Definition of_Z (z : Z) : float64 := binary_normalize prec emax z 0 false.

(** The decimal constant [m / 10^k], rounded to nearest-even the way the Go
    compiler and [strconv.ParseFloat] round a decimal literal. For [m] and
    [10^k] below [2^53] both operands are exact and the division is the
    correctly rounded quotient. *)
Definition of_decimal (m : Z) (k : Z) : float64 :=
  SFdiv prec emax (of_Z m) (of_Z (10 ^ k)).

Definition mul (x y : float64) : float64 := SFmul prec emax x y.

(** Go's [x <= y] on floats: false as soon as one side is NaN. *)
Definition leb (x y : float64) : bool := SFleb x y.

Definition zero : float64 := S754_zero false.

(** The integer part of a finite float, fraction discarded (truncation
    towards zero); [None] for NaN and the infinities. *)
Definition truncate (x : float64) : option Z :=
  match x with
  | S754_zero _ => Some 0
  | S754_finite s m e =>
      let magnitude :=
        if 0 <=? e then Z.shiftl (Z.pos m) e else Z.shiftr (Z.pos m) (- e) in
      Some (if s then - magnitude else magnitude)
  | S754_infinity _ | S754_nan => None
  end.

(** What a non-constant conversion [int64(x)] yields when [x] has no
    [int64] value. The Go specification leaves it to the implementation:
    "if the result type cannot represent the value the conversion succeeds
    but the result value is implementation-dependent". *)
Record Arch : Type := { unrepresentable : float64 -> Z }.

(** amd64: CVTTSD2SQ returns the "integer indefinite" value. *)
Definition amd64 : Arch := {| unrepresentable := fun _ => Int64.min_int |}.

(** arm64: FCVTZS saturates, and NaN converts to zero. *)
Definition arm64 : Arch :=
  {| unrepresentable := fun x =>
       match x with
       | S754_infinity false | S754_finite false _ _ => Int64.max_int
       | S754_infinity true | S754_finite true _ _ => Int64.min_int
       | _ => 0
       end |}.

(** The float has an [int64] value. *)
Definition representable (x : float64) : bool :=
  match truncate x with
  | Some z => Int64.in_rangeb z
  | None => false
  end.

(** Go's conversion [int64(x)]. *)
Definition to_int64 (arch : Arch) (x : float64) : Z :=
  match truncate x with
  | Some z =>
      if Int64.in_rangeb z then z else Int64.wrap (unrepresentable arch x)
  | None => Int64.wrap (unrepresentable arch x)
  end.

End Float64.

Export Float64(float64).

(** ** [internal/domain]: entities and the money type *)

Module User.
Record t : Type := mk { ID : N; Username : string; Password : string }.
Definition zero : t := {| ID := 0; Username := ""; Password := "" |}.
End User.

Module Wallet.
(** Timestamps are instants on the clock of the process; [User] is the
    preloaded association, the zero user unless a query preloads it. The
    [Transactions] association is never loaded by the service and the
    soft-delete column is never set by it. *)
Record t : Type := mk {
  ID : N;
  UserID : N;
  Balance : Z;   (* int64: minor units (cents) *)
  CreatedAt : Z;
  UpdatedAt : Z;
  User : User.t
}.

Definition with_ID (w : t) (id : N) : t :=
  mk id (UserID w) (Balance w) (CreatedAt w) (UpdatedAt w) (User w).
Definition with_Balance (w : t) (balance : Z) (now : Z) : t :=
  mk (ID w) (UserID w) balance (CreatedAt w) now (User w).
Definition with_timestamps (w : t) (now : Z) : t :=
  mk (ID w) (UserID w) (Balance w) now now (User w).
Definition with_User (w : t) (u : User.t) : t :=
  mk (ID w) (UserID w) (Balance w) (CreatedAt w) (UpdatedAt w) u.
End Wallet.

Inductive TransactionType : Type :=
| TransactionTypeDeposit
| TransactionTypeTransfer
| TransactionTypeWithdraw.

Module Transaction.
Record t : Type := mk {
  ID : N;
  WalletID : N;
  Type_ : TransactionType;
  Amount : Z;          (* int64: minor units (cents) *)
  BalanceBefore : Z;   (* int64 *)
  BalanceAfter : Z;    (* int64 *)
  FromWalletID : option N;
  ToWalletID : option N;
  TransactionUUID : string;
  Description : string;
  CreatedAt : Z
}.

Definition stored (r : t) (id : N) (now : Z) : t :=
  mk id (WalletID r) (Type_ r) (Amount r) (BalanceBefore r) (BalanceAfter r)
     (FromWalletID r) (ToWalletID r) (TransactionUUID r) (Description r) now.
End Transaction.

(** [func DollarsToMinorUnits(dollars float64) int64 { return int64(dollars * 100) }] *)
Definition DollarsToMinorUnits (arch : Float64.Arch) (dollars : float64) : Z :=
  Float64.to_int64 arch (Float64.mul dollars (Float64.of_Z 100)).

(** ** Errors and results *)

Inductive error : Type :=
| ErrRecordNotFound           (* gorm.ErrRecordNotFound *)
| ErrDriver (msg : string)    (* any other fault reported by the store *)
| errors_New (msg : string).  (* errors.New(msg) *)

Global Instance error_eq_dec : EqDecision error.
Proof. solve_decision. Defined.

(** [errors.Is(err, gorm.ErrRecordNotFound)] *)
Definition is_ErrRecordNotFound (e : error) : bool :=
  match e with ErrRecordNotFound => true | _ => false end.

Inductive result (A : Type) : Type :=
| Ok (a : A)
| Err (e : error).
Arguments Ok {A} a.
Arguments Err {A} e.

(** ** The collaborators: MySQL behind GORM, and Redis *)

(** Statements sent to the store and commands sent to the cache, in the
    order the service issues them. A locking read records whether it
    returned (and so locked) a row. *)
Inductive Stmt : Type :=
| SqlBegin
| SqlCommit
| SqlRollback
| SqlSelectUser (id : N)
| SqlInsertWallet (userID : N)
| SqlSelectWallet (id : N)
| SqlSelectWalletForUpdate (id : N) (locked : bool)
| SqlUpdateWalletBalance (id : N) (balance : Z)
| SqlInsertTransaction (uuid : string)
| SqlSelectTransactions (walletID : N) (limit offset : Z)
| RedisGet (key : string)
| RedisSet (key value : string) (ttl : Z)
| RedisDel (key : string)
| RedisScan (pattern : string).

(** The rows of the three tables of [migration.AutoMigrate] and the
    AUTO_INCREMENT counters of the two tables the engine inserts into. *)
Record DB : Type := mkDB {
  users : gmap N User.t;
  wallets : gmap N Wallet.t;
  transactions : list Transaction.t;   (* insertion order *)
  wallets_auto_increment : N;
  transactions_auto_increment : N
}.

(** A cache entry: the stored bytes and the instant it expires. *)
Record CacheEntry : Type := mkEntry { value : string; expires_at : Z }.

(** The state the service runs against: the store, the cache, the number of
    interactions with the outside so far, and the statements issued. *)
Record World : Type := mkWorld {
  db : DB;
  cache : gmap string CacheEntry;
  tick : nat;
  trace : list Stmt
}.

Definition set_db (d : DB) (w : World) : World :=
  mkWorld d (cache w) (tick w) (trace w).
Definition set_cache (c : gmap string CacheEntry) (w : World) : World :=
  mkWorld (db w) c (tick w) (trace w).
Definition advance (s : list Stmt) (w : World) : World :=
  mkWorld (db w) (cache w) (S (tick w)) (trace w ++ s).

(** Everything the service does not decide itself, indexed by the
    interaction at which it is consulted: the conversion of floats without
    an [int64] value, faults of the store and of the cache, [uuid.New()],
    [time.Now()], the order MySQL returns rows in when [ORDER BY] leaves
    them tied (its choice at each query: two queries may order the same
    tied rows differently), and [encoding/json] on the two cached types. *)
Record Env : Type := mkEnv {
  arch : Float64.Arch;
  storage_fault : nat -> option string;
  cache_fault : nat -> bool;
  uuid_New : nat -> string;
  time_Now : nat -> Z;
  tie_before : nat -> Transaction.t -> Transaction.t -> bool;
  json_Marshal_wallet : Wallet.t -> string;
  json_Unmarshal_wallet : string -> option Wallet.t;
  json_Marshal_transactions : list Transaction.t -> option string;
  json_Unmarshal_transactions : string -> option (list Transaction.t)
}.

(** [time.Duration] counts nanoseconds. *)
Definition Minute : Z := 60 * 1000000000.

(** ** The monad of service code: state, and errors that end the call *)

Definition M (A : Type) : Type := World -> result A * World.

Global Instance M_ret : MRet M := fun A a w => (Ok a, w).
Global Instance M_bind : MBind M := fun A B f m w =>
  match m w with
  | (Ok a, w') => f a w'
  | (Err e, w') => (Err e, w')
  end.

Definition fail {A : Type} (e : error) : M A := fun w => (Err e, w).

Fixpoint for_each {A : Type} (f : A -> M unit) (l : list A) : M unit :=
  match l with
  | [] => mret tt
  | x :: l' => f x ;; for_each f l'
  end.

Section Service.

Variable env : Env.

(** *** Consulting the outside *)

Definition time_Now_ : M Z :=
  fun w => (Ok (time_Now env (tick w)), advance [] w).

Definition uuid_New_String : M string :=
  fun w => (Ok (uuid_New env (tick w)), advance [] w).

(** One statement sent to the store: it is recorded, and it fails when
    the store faults at this interaction. *)
Definition sql (s : Stmt) : M unit :=
  fun w =>
    match storage_fault env (tick w) with
    | Some msg => (Err (ErrDriver msg), advance [s] w)
    | None => (Ok tt, advance [s] w)
    end.

Definition update_db (f : DB -> DB) : M unit :=
  fun w => (Ok tt, set_db (f (db w)) w).

Definition read_db : M DB := fun w => (Ok (db w), w).

(** *** GORM on MySQL *)

(** [tx.Clauses(clause.Locking{Strength: "UPDATE"}).First(&wallet, id)]:
    [SELECT ... WHERE id = ? ... LIMIT 1 FOR UPDATE]. The table is keyed
    by the primary key, which is the [ID] of the row read. *)
Definition tx_First_for_update (id : N) : M Wallet.t :=
  fun w =>
    match storage_fault env (tick w) with
    | Some msg =>
        (Err (ErrDriver msg), advance [SqlSelectWalletForUpdate id false] w)
    | None =>
        match wallets (db w) !! id with
        | Some row =>
            (Ok (Wallet.with_ID row id), advance [SqlSelectWalletForUpdate id true] w)
        | None =>
            (Err ErrRecordNotFound, advance [SqlSelectWalletForUpdate id false] w)
        end
    end.

(** [tx.Model(&wallet).Update("balance", newBalance)]:
    [UPDATE wallets SET balance = ?, updated_at = ? WHERE id = ?]. *)
Definition tx_Update_balance (wallet : Wallet.t) (newBalance : Z) : M unit :=
  now ← time_Now_;
  sql (SqlUpdateWalletBalance (Wallet.ID wallet) newBalance);;
  update_db (fun d =>
    mkDB (users d)
         (alter (fun row => Wallet.with_Balance row newBalance now)
                (Wallet.ID wallet) (wallets d))
         (transactions d)
         (wallets_auto_increment d) (transactions_auto_increment d)).

(** The unique index on [transaction_uuid]. *)
Definition uuid_taken (uuid : string) (rows : list Transaction.t) : bool :=
  existsb (fun r => String.eqb (Transaction.TransactionUUID r) uuid) rows.

(** [tx.Create(transaction)]: the row receives the next identifier and the
    creation time; a duplicate [transaction_uuid] is refused by the unique
    index (MySQL error 1062). The record handed in is filled in place, so
    the stored row is also what the caller holds afterwards. *)
Definition tx_Create_transaction (r : Transaction.t) : M Transaction.t :=
  now ← time_Now_;
  sql (SqlInsertTransaction (Transaction.TransactionUUID r));;
  d ← read_db;
  if uuid_taken (Transaction.TransactionUUID r) (transactions d)
  then fail (ErrDriver "Error 1062: Duplicate entry")
  else
    let row := Transaction.stored r (transactions_auto_increment d) now in
    update_db (fun d =>
      mkDB (users d) (wallets d) (transactions d ++ [row])
           (wallets_auto_increment d)
           (N.succ (transactions_auto_increment d)));;
    mret row.

(** What a rollback restores: the rows. AUTO_INCREMENT counters are not
    transactional in InnoDB and keep their value. *)
Definition rolled_back (before current : DB) : DB :=
  mkDB (users before) (wallets before) (transactions before)
       (wallets_auto_increment current) (transactions_auto_increment current).

(** [db.Transaction(func(tx *gorm.DB) error { ... })]: begin, run the
    body, roll back when it returns an error, commit otherwise; the error
    of the body, or of the commit, is returned. *)
Definition db_Transaction {A : Type} (fc : M A) : M A :=
  fun w =>
    match sql SqlBegin w with
    | (Err e, w1) => (Err e, w1)
    | (Ok _, w1) =>
        match fc w1 with
        | (Err e, w2) =>
            (Err e, advance [SqlRollback] (set_db (rolled_back (db w) (db w2)) w2))
        | (Ok a, w2) =>
            match sql SqlCommit w2 with
            | (Err e, w3) => (Err e, set_db (rolled_back (db w) (db w3)) w3)
            | (Ok _, w3) => (Ok a, w3)
            end
        end
    end.

(** *** [internal/repository] *)

(** Modelled from the spec: [repository/user.go] is not among the sources;
    section 4.1 has CreateWallet fail with AccountNotFound when the
    account does not exist, and the service tests the error of this call
    against [gorm.ErrRecordNotFound]. *)
Definition userRepo_GetByID (id : N) : M User.t :=
  sql (SqlSelectUser id);;
  d ← read_db;
  match users d !! id with
  | Some u => mret u
  | None => fail ErrRecordNotFound
  end.

(** [walletRepository.Create]: [r.db.WithContext(ctx).Create(wallet).Error]. *)
Definition walletRepo_Create (wallet : Wallet.t) : M Wallet.t :=
  now ← time_Now_;
  sql (SqlInsertWallet (Wallet.UserID wallet));;
  d ← read_db;
  let row :=
    Wallet.with_timestamps (Wallet.with_ID wallet (wallets_auto_increment d)) now in
  update_db (fun d =>
    mkDB (users d) (<[wallets_auto_increment d := row]> (wallets d))
         (transactions d)
         (N.succ (wallets_auto_increment d)) (transactions_auto_increment d));;
  mret row.

(** [walletRepository.GetByID]:
    [r.db.WithContext(ctx).Preload("User").First(&wallet, id)]. The
    preload is a second query, for the owner of the row found. *)
Definition walletRepo_GetByID (id : N) : M Wallet.t :=
  sql (SqlSelectWallet id);;
  d ← read_db;
  match wallets d !! id with
  | None => fail ErrRecordNotFound
  | Some wallet =>
      sql (SqlSelectUser (Wallet.UserID wallet));;
      mret (Wallet.with_User (Wallet.with_ID wallet id)
              (default User.zero (users d !! Wallet.UserID wallet)))
  end.

(** The interaction that comes next: the query about to be sent. *)
Definition interaction : M nat := fun w => (Ok (tick w), w).

(** [ORDER BY created_at DESC]: the rows by decreasing creation time. The
    query names no second sort key, so the place of a row among rows of
    the same creation time is MySQL's choice ([tie_before]), made anew at
    each query. *)
Definition sorts_before (n : nat) (a b : Transaction.t) : bool :=
  (Transaction.CreatedAt b <? Transaction.CreatedAt a)
  || ((Transaction.CreatedAt b =? Transaction.CreatedAt a) && tie_before env n a b).

Fixpoint insert_desc (n : nat) (a : Transaction.t) (l : list Transaction.t)
  : list Transaction.t :=
  match l with
  | [] => [a]
  | b :: l' => if sorts_before n a b then a :: l else b :: insert_desc n a l'
  end.

Definition order_by_created_at_desc (n : nat) (rows : list Transaction.t)
  : list Transaction.t :=
  foldr (insert_desc n) [] rows.

(** GORM's [Limit(limit).Offset(offset)] writes [LIMIT] for a limit that
    is not negative and [OFFSET] for a positive offset. MySQL has no
    [OFFSET] without a [LIMIT]: a positive offset under a negative limit is
    a statement it refuses. *)
Definition offset_without_limit (limit offset : Z) : bool :=
  (limit <? 0) && (0 <? offset).

(** The rows a clause that MySQL accepts selects. *)
Definition rows_in_window {A : Type} (limit offset : Z) (rows : list A) : list A :=
  let rows := if 0 <? offset then drop (Z.to_nat offset) rows else rows in
  if 0 <=? limit then take (Z.to_nat limit) rows else rows.

(** What MySQL answers to the clause: the rows of the window, or its
    syntax error (1064). *)
Definition limit_offset {A : Type} (limit offset : Z) (rows : list A) : M (list A) :=
  if offset_without_limit limit offset
  then fail (ErrDriver "Error 1064 (42000): You have an error in your SQL syntax")
  else mret (rows_in_window limit offset rows).

(** [transactionRepository.GetByWalletID]:
    [Where("wallet_id = ?", walletID).Order("created_at DESC").Limit(limit).Offset(offset).Find(&transactions)]. *)
Definition transactionRepo_GetByWalletID (walletID : N) (limit offset : Z)
  : M (list Transaction.t) :=
  n ← interaction;
  sql (SqlSelectTransactions walletID limit offset);;
  d ← read_db;
  limit_offset limit offset
    (order_by_created_at_desc n
       (filter (fun r => Transaction.WalletID r = walletID) (transactions d))).

(** *** Redis *)

(** What the cache answers for [key] at this interaction: the value of a
    live entry, nothing for a missing or expired key ([redis.Nil]) and
    nothing when the cache faults. *)
Definition cached_value (w : World) (key : string) : option string :=
  if cache_fault env (tick w) then None
  else match cache w !! key with
       | Some entry =>
           if time_Now env (tick w) <? expires_at entry
           then Some (value entry) else None
       | None => None
       end.

(** [redisClient.Get(ctx, key).Result()], kept when [err == nil]. *)
Definition redis_Get (key : string) : M (option string) :=
  fun w => (Ok (cached_value w key), advance [RedisGet key] w).

(** [redisClient.Set(ctx, key, value, ttl)], result ignored. *)
Definition redis_Set (key val : string) (ttl : Z) : M unit :=
  fun w =>
    let now := time_Now env (tick w) in
    let w' := advance [RedisSet key val ttl] w in
    if cache_fault env (tick w) then (Ok tt, w')
    else (Ok tt, set_cache (<[key := mkEntry val (now + ttl)]> (cache w)) w').

(** [redisClient.Del(ctx, key)], result ignored. *)
Definition redis_Del (key : string) : M unit :=
  fun w =>
    let w' := advance [RedisDel key] w in
    if cache_fault env (tick w) then (Ok tt, w')
    else (Ok tt, set_cache (delete key (cache w)) w').

(** [redisClient.Scan(ctx, 0, prefix + "*", 0).Iterator()]: the keys a
    glob made of a literal prefix and a final star matches; none when the
    cache faults (the iterator stops with an error). *)
Definition redis_Scan (prefix : string) : M (list string) :=
  fun w =>
    let keys :=
      if cache_fault env (tick w) then []
      else filter (fun k => String.prefix prefix k = true)
                  (map fst (map_to_list (cache w))) in
    (Ok keys, advance [RedisScan (prefix +:+ "*")] w).

(** *** [internal/service]: the wallet service *)

(** [fmt.Sprintf("wallet:%d", walletID)] *)
Definition wallet_cache_key (walletID : N) : string :=
  "wallet:" +:+ pretty walletID.

(** [fmt.Sprintf("wallet:%d:transactions:%d:%d", walletID, limit, offset)] *)
Definition transactions_cache_key (walletID : N) (limit offset : Z) : string :=
  "wallet:" +:+ pretty walletID +:+ ":transactions:"
    +:+ pretty limit +:+ ":" +:+ pretty offset.

Definition invalidateWalletCache (walletID : N) : M unit :=
  redis_Del (wallet_cache_key walletID).

Definition invalidateUserCache (userID : N) : M unit :=
  redis_Del ("user:" +:+ pretty userID).

Definition invalidateTransactionCache (walletID : N) : M unit :=
  keys ← redis_Scan ("wallet:" +:+ pretty walletID +:+ ":transactions:");
  for_each redis_Del keys.

Definition CreateWallet (userID : N) : M Wallet.t :=
  fun w =>
    match userRepo_GetByID userID w with
    | (Err e, w1) =>
        if is_ErrRecordNotFound e
        then (Err (errors_New "user not found"), w1)
        else (Err e, w1)
    | (Ok _, w1) =>
        (wallet ← walletRepo_Create
                   (Wallet.mk 0 userID 0 0 0 User.zero);
         invalidateUserCache userID;;
         mret wallet) w1
    end.

Definition GetWallet (walletID : N) : M Wallet.t :=
  let cacheKey := wallet_cache_key walletID in
  cachedWallet ← redis_Get cacheKey;
  match cachedWallet ≫= json_Unmarshal_wallet env with
  | Some wallet => mret wallet
  | None =>
      wallet ← walletRepo_GetByID walletID;
      redis_Set cacheKey (json_Marshal_wallet env wallet) (5 * Minute);;
      mret wallet
  end.

(** The function [Deposit] hands to [db.Transaction]. *)
Definition Deposit_tx (walletID : N) (amountInMinorUnits : Z)
    (description : string) : M Transaction.t :=
  wallet ← tx_First_for_update walletID;
  let oldBalance := Wallet.Balance wallet in
  let newBalance := Int64.add oldBalance amountInMinorUnits in
  tx_Update_balance wallet newBalance;;
  uuid ← uuid_New_String;
  tx_Create_transaction
    (Transaction.mk 0 walletID TransactionTypeDeposit amountInMinorUnits
       oldBalance newBalance None None uuid description 0).

Definition Deposit (walletID : N) (amount : float64) (description : string)
  : M Transaction.t :=
  if Float64.leb amount Float64.zero
  then fail (errors_New "amount must be positive")
  else
    let amountInMinorUnits := DollarsToMinorUnits (arch env) amount in
    transaction ← db_Transaction
      (Deposit_tx walletID amountInMinorUnits description);
    invalidateWalletCache walletID;;
    invalidateTransactionCache walletID;;
    mret transaction.

(** The locking read of one side of a transfer, with the message that
    tells the two sides apart when the row does not exist. *)
Definition lock_wallet (id : N) (not_found : string) : M Wallet.t :=
  fun w =>
    match tx_First_for_update id w with
    | (Err e, w1) =>
        if is_ErrRecordNotFound e
        then (Err (errors_New not_found), w1)
        else (Err e, w1)
    | (Ok wallet, w1) => (Ok wallet, w1)
    end.

(** The function [Transfer] hands to [db.Transaction]. *)
Definition Transfer_tx (fromWalletID toWalletID : N) (amountInMinorUnits : Z)
    (description : string) : M Transaction.t :=
  fromWallet ← lock_wallet fromWalletID "source wallet not found";
  toWallet ← lock_wallet toWalletID "destination wallet not found";
  if Wallet.Balance fromWallet <? amountInMinorUnits
  then fail (errors_New "insufficient balance")
  else
    let fromOldBalance := Wallet.Balance fromWallet in
    let fromNewBalance := Int64.sub fromOldBalance amountInMinorUnits in
    let toOldBalance := Wallet.Balance toWallet in
    let toNewBalance := Int64.add toOldBalance amountInMinorUnits in
    tx_Update_balance fromWallet fromNewBalance;;
    tx_Update_balance toWallet toNewBalance;;
    fromUUID ← uuid_New_String;
    let fromTransaction :=
      Transaction.mk 0 fromWalletID TransactionTypeTransfer
        (Int64.neg amountInMinorUnits) fromOldBalance fromNewBalance
        (Some fromWalletID) (Some toWalletID) fromUUID description 0 in
    toUUID ← uuid_New_String;
    let toTransaction :=
      Transaction.mk 0 toWalletID TransactionTypeTransfer
        amountInMinorUnits toOldBalance toNewBalance
        (Some fromWalletID) (Some toWalletID) toUUID description 0 in
    fromTransaction ← tx_Create_transaction fromTransaction;
    tx_Create_transaction toTransaction;;
    mret fromTransaction.

Definition Transfer (fromWalletID toWalletID : N) (amount : float64)
    (description : string) : M Transaction.t :=
  if Float64.leb amount Float64.zero
  then fail (errors_New "amount must be positive")
  else if N.eqb fromWalletID toWalletID
  then fail (errors_New "cannot transfer to the same wallet")
  else
    let amountInMinorUnits := DollarsToMinorUnits (arch env) amount in
    fromTransaction ← db_Transaction
      (Transfer_tx fromWalletID toWalletID amountInMinorUnits description);
    invalidateWalletCache fromWalletID;;
    invalidateWalletCache toWalletID;;
    invalidateTransactionCache fromWalletID;;
    invalidateTransactionCache toWalletID;;
    mret fromTransaction.

Definition GetTransactions (walletID : N) (limit offset : Z)
  : M (list Transaction.t) :=
  let cacheKey := transactions_cache_key walletID limit offset in
  cached ← redis_Get cacheKey;
  match cached ≫= json_Unmarshal_transactions env with
  | Some transactions => mret transactions
  | None =>
      transactions ← transactionRepo_GetByWalletID walletID limit offset;
      match json_Marshal_transactions env transactions with
      | Some transactionsJSON =>
          redis_Set cacheKey transactionsJSON (2 * Minute)
      | None => mret tt
      end;;
      mret transactions
  end.

End Service.

(** ** Concrete collaborators and states, to run the service on *)

Module Sample.

(** No fault anywhere, a clock that advances by a millisecond per
    interaction, identifiers that never repeat, ties left in the order
    found, and a codec that reads the empty object only. *)
Definition quiet (a : Float64.Arch) : Env :=
  {| arch := a;
     storage_fault := fun _ => None;
     cache_fault := fun _ => false;
     uuid_New := fun n => "uuid-" +:+ pretty n;
     time_Now := fun n => 1000000 * Z.of_nat n;
     tie_before := fun _ _ _ => false;
     json_Marshal_wallet := fun w => "wallet#" +:+ pretty (Wallet.ID w);
     json_Unmarshal_wallet := fun s =>
       if String.eqb s "{}" then Some (Wallet.mk 0 0 0 0 0 User.zero) else None;
     json_Marshal_transactions := fun l => Some ("rows#" +:+ pretty (length l));
     json_Unmarshal_transactions := fun s =>
       if String.eqb s "[]" then Some [] else None |}.



Definition alice : User.t := User.mk 1 "alice" "hash".

Definition wallet_of (id : N) (balance : Z) : Wallet.t :=
  Wallet.mk id 1 balance 0 0 User.zero.

(** One user, nothing else. *)
Definition empty_db : DB := mkDB {[ 1%N := alice ]} ∅ [] 1 1.

(** One user owning wallets 1 and 2. *)
Definition two_wallets (b1 b2 : Z) : DB :=
  mkDB {[ 1%N := alice ]}
       (<[ 1%N := wallet_of 1 b1 ]> {[ 2%N := wallet_of 2 b2 ]}) [] 3 1.

Definition world_of (d : DB) : World := mkWorld d ∅ 0 [].

(** Go's constants [0.004], [1e300] and [5e16] as [float64]. *)
Definition f_0_004 : float64 := Float64.of_decimal 4 3.
Definition f_1e300 : float64 := Float64.of_Z (10 ^ 300).
Definition f_5e16 : float64 := Float64.of_Z (5 * 10 ^ 16).

End Sample.

(** ** Observations on states and runs *)

(** The rows locked, in the order the locks were taken. *)
Definition locks_of (tr : list Stmt) : list N :=
  omap (fun s => match s with
                 | SqlSelectWalletForUpdate id true => Some id
                 | _ => None
                 end) tr.

(** Two states of the store hold the same rows. *)
Definition same_rows (d d' : DB) : Prop :=
  users d' = users d /\ wallets d' = wallets d /\ transactions d' = transactions d.

(** No wallet has a negative balance. *)
Definition balances_nonneg (d : DB) : Prop :=
  map_Forall (fun _ wal => 0 <= Wallet.Balance wal) (wallets d).

(** Every balance is an [int64]. *)
Definition balances_int64 (d : DB) : Prop :=
  map_Forall (fun _ wal => Int64.in_range (Wallet.Balance wal)) (wallets d).

(** The operations of the engine, as a caller invokes them. *)
Inductive Op : Type :=
| OpCreateWallet (userID : N)
| OpGetWallet (walletID : N)
| OpDeposit (walletID : N) (amount : float64) (description : string)
| OpTransfer (fromWalletID toWalletID : N) (amount : float64) (description : string)
| OpGetTransactions (walletID : N) (limit offset : Z).

Definition apply_op (env : Env) (op : Op) (w : World) : World :=
  match op with
  | OpCreateWallet u => snd (CreateWallet env u w)
  | OpGetWallet id => snd (GetWallet env id w)
  | OpDeposit id amount d => snd (Deposit env id amount d w)
  | OpTransfer a b amount d => snd (Transfer env a b amount d w)
  | OpGetTransactions id l o => snd (GetTransactions env id l o w)
  end.

Definition run (env : Env) (ops : list Op) (w : World) : World :=
  foldl (fun w op => apply_op env op w) w ops.

(** An amount the engine accepts converts to minor units without leaving
    [int64], and crediting it to the wallet [id] does not overflow. *)
Definition credit_fits (env : Env) (w : World) (id : N) (amount : float64) : bool :=
  Float64.leb amount Float64.zero
  || (Float64.representable (Float64.mul amount (Float64.of_Z 100))
      && match wallets (db w) !! id with
         | Some wal =>
             Wallet.Balance wal + DollarsToMinorUnits (arch env) amount
               <=? Int64.max_int
         | None => true
         end).

Definition op_fits (env : Env) (w : World) (op : Op) : bool :=
  match op with
  | OpDeposit id amount _ => credit_fits env w id amount
  | OpTransfer _ to amount _ => credit_fits env w to amount
  | _ => true
  end.

(** Every operation of the run fits, in the state it is applied to. *)
Fixpoint run_fits (env : Env) (ops : list Op) (w : World) : bool :=
  match ops with
  | [] => true
  | op :: ops' => op_fits env w op && run_fits env ops' (apply_op env op w)
  end.

(** Rows by decreasing creation time: every row is at least as recent as
    each row after it. *)
Definition descending (rows : list Transaction.t) : Prop :=
  StronglySorted
    (fun a b => Transaction.CreatedAt b <= Transaction.CreatedAt a) rows.


(** The interactions, counted from the start of the call, at which Deposit
    sends a statement to the store: BEGIN, the locking SELECT, the UPDATE,
    the INSERT and the COMMIT (the others read the clock or draw the uuid). *)
Definition Deposit_statements : list nat := [0; 1; 3; 6; 7]%nat.

(** The store answers the statement at interaction [k] of the call with
    the fault [msg], and answered every earlier statement of the call. *)
Definition first_fault (env : Env) (w : World) (stmts : list nat)
    (k : nat) (msg : string) : Prop :=
  k ∈ stmts /\
  storage_fault env (k + tick w)%nat = Some msg /\
  forall j, j ∈ stmts -> (j < k)%nat -> storage_fault env (j + tick w)%nat = None.

(** The store answers every statement of the call. *)
Definition store_answers (env : Env) (w : World) (stmts : list nat) : Prop :=
  forall k, k ∈ stmts -> storage_fault env (k + tick w)%nat = None.

(** An interaction with the cache only: the store and the locks taken are
    as before. *)
Definition cache_step (w w' : World) : Prop :=
  db w' = db w /\ locks_of (trace w') = locks_of (trace w).

(** A computation that talks to the cache only and returns [a]. *)
Definition cache_only {A : Type} (m : M A) (a : A) : Prop :=
  forall w, exists w', m w = (Ok a, w') /\ cache_step w w'.

(** The records appended to the transactions table between two states. *)
Definition written (w w' : World) : list Transaction.t :=
  drop (length (transactions (db w))) (transactions (db w')).

(** The two invariants of the ledger a run maintains together. *)
Definition ledger_ok (d : DB) : Prop := balances_int64 d /\ balances_nonneg d.

(** The character occurs in the string. *)
Fixpoint occurs (c : ascii) (s : string) : bool :=
  match s with
  | EmptyString => false
  | String a s' => Ascii.eqb a c || occurs c s'
  end.

(** ** Runs used as examples *)

Module Runs.
Import Sample.

(** A wallet is created and receives 5e16 dollars twice. *)
Definition overflowing_run : list Op :=
  [OpCreateWallet 1; OpDeposit 1 f_5e16 "first"; OpDeposit 1 f_5e16 "second"].


(** Examples 1 and 2 of the specification, in sequence. *)
Definition salary_then_rent : list Op :=
  [OpCreateWallet 1; OpCreateWallet 1;
   OpDeposit 1 (Float64.of_decimal 20050 2) "salary";
   OpDeposit 2 (Float64.of_decimal 5025 2) "gift";
   OpTransfer 1 2 (Float64.of_decimal 7525 2) "rent"].

(** The record Example 1 writes. *)
Definition salary_record : Transaction.t :=
  Transaction.mk 1 1 TransactionTypeDeposit 20050 0 20050 None None
    "uuid-4" "salary" 5000000.

(** Wallet 1 is cached as the empty object, live until instant 1000. *)
Definition cached_world : World :=
  mkWorld (two_wallets 10 20) {[ "wallet:1" := mkEntry "{}" 1000 ]} 0 [].

End Runs.

(** * More of the code: conversions, listings, endpoints, accounts *)

(** ** [internal/domain]: back from minor units to dollars *)

(** Go's [x / y] on [float64]. *)
Definition float64_div (x y : float64) : float64 :=
  SFdiv Float64.prec Float64.emax x y.

(** Go's [x > y] on floats, written [y < x]: false as soon as one side is
    NaN. *)
Definition float64_ltb (x y : float64) : bool := SFltb x y.

(** [func MinorUnitsToDollars(minorUnits int64) float64 { return float64(minorUnits) / 100.0 }] *)
Definition MinorUnitsToDollars (minorUnits : Z) : float64 :=
  float64_div (Float64.of_Z minorUnits) (Float64.of_Z 100).

(** [func (w *Wallet) GetBalanceInDollars() float64] *)
Definition Wallet_GetBalanceInDollars (w : Wallet.t) : float64 :=
  float64_div (Float64.of_Z (Wallet.Balance w)) (Float64.of_Z 100).

(** [func (w *Wallet) SetBalanceFromDollars(dollars float64)] *)
Definition Wallet_SetBalanceFromDollars (arch : Float64.Arch) (w : Wallet.t)
    (dollars : float64) : Wallet.t :=
  Wallet.mk (Wallet.ID w) (Wallet.UserID w)
    (Float64.to_int64 arch (Float64.mul dollars (Float64.of_Z 100)))
    (Wallet.CreatedAt w) (Wallet.UpdatedAt w) (Wallet.User w).

(** [func (t *Transaction) GetAmountInDollars() float64] *)
Definition Transaction_GetAmountInDollars (t : Transaction.t) : float64 :=
  float64_div (Float64.of_Z (Transaction.Amount t)) (Float64.of_Z 100).

(** [func (t *Transaction) SetAmountFromDollars(dollars float64)] *)
Definition Transaction_SetAmountFromDollars (arch : Float64.Arch)
    (t : Transaction.t) (dollars : float64) : Transaction.t :=
  Transaction.mk (Transaction.ID t) (Transaction.WalletID t) (Transaction.Type_ t)
    (Float64.to_int64 arch (Float64.mul dollars (Float64.of_Z 100)))
    (Transaction.BalanceBefore t) (Transaction.BalanceAfter t)
    (Transaction.FromWalletID t) (Transaction.ToWalletID t)
    (Transaction.TransactionUUID t) (Transaction.Description t)
    (Transaction.CreatedAt t).

(** Every integer below [n], from zero, passes the test. *)
Fixpoint all_below (p : Z -> bool) (n : nat) : bool :=
  match n with
  | O => true
  | S k => p (Z.of_nat k) && all_below p k
  end.

(** The integer survives the way to dollars and back to minor units, or
    comes back one unit nearer to zero. *)
Definition survives_round_trip (n : Z) : bool :=
  match Float64.truncate (Float64.mul (MinorUnitsToDollars n) (Float64.of_Z 100)) with
  | Some z => (z =? n) || ((0 <? n) && (z =? n - 1)) || ((n <? 0) && (z =? n + 1))
  | None => false
  end.

(** ** [internal/repository] and [internal/service]: the listings *)

Section Listings.

Variable env : Env.

(** A query sent to the store by one of the listings: it fails when the
    store faults at this interaction. The trace follows the statements of
    the ledger operations only. *)
Definition query : M unit :=
  fun w =>
    match storage_fault env (tick w) with
    | Some msg => (Err (ErrDriver msg), advance [] w)
    | None => (Ok tt, advance [] w)
    end.

(** The rows of the wallets table, each with its primary key. The query
    has no [ORDER BY]: the order of the rows is the store's, and nothing
    proved below depends on it. *)
Definition wallet_rows (d : DB) : list Wallet.t :=
  (fun kv => Wallet.with_ID kv.2 kv.1) <$> map_to_list (wallets d).

(** [walletRepository.GetByUserID]:
    [r.db.WithContext(ctx).Where("user_id = ?", userID).Find(&wallets)].
    [Find] reports no error when no row matches. *)
Definition walletRepo_GetByUserID (userID : N) : M (list Wallet.t) :=
  query;;
  d ← read_db;
  mret (filter (fun row => Wallet.UserID row = userID) (wallet_rows d)).

(** [walletRepository.UpdateBalance]:
    [Model(&domain.Wallet{}).Where("id = ?", walletID).Update("balance", newBalance)].
    An [UPDATE] that matches no row is no error. *)
Definition walletRepo_UpdateBalance (walletID : N) (newBalance : Z) : M unit :=
  now ← time_Now_ env;
  query;;
  update_db (fun d =>
    mkDB (users d)
         (alter (fun row => Wallet.with_Balance row newBalance now) walletID (wallets d))
         (transactions d)
         (wallets_auto_increment d) (transactions_auto_increment d)).

(** [transactionRepository.GetByUserID]:
    [Joins("JOIN wallets ON transactions.wallet_id = wallets.id").Where("wallets.user_id = ?", userID).Order("transactions.created_at DESC").Limit(limit).Offset(offset).Find(&transactions)]. *)
Definition transactionRepo_GetByUserID (userID : N) (limit offset : Z)
  : M (list Transaction.t) :=
  n ← interaction;
  query;;
  d ← read_db;
  limit_offset limit offset
    (order_by_created_at_desc env n
       (filter (fun r => Wallet.UserID <$> wallets d !! Transaction.WalletID r
                         = Some userID)
               (transactions d))).

(** [walletService.GetUserWallets] *)
Definition GetUserWallets (userID : N) : M (list Wallet.t) :=
  walletRepo_GetByUserID userID.

End Listings.

(** ** [internal/http/handler]: the wallet endpoints *)

(** [err.Error()] *)
Definition Error_text (e : error) : string :=
  match e with
  | ErrRecordNotFound => "record not found"
  | ErrDriver msg => msg
  | errors_New msg => msg
  end.

Module Http.
Definition StatusOK : Z := 200.
Definition StatusCreated : Z := 201.
Definition StatusBadRequest : Z := 400.
Definition StatusUnauthorized : Z := 401.
Definition StatusForbidden : Z := 403.
Definition StatusNotFound : Z := 404.
Definition StatusInternalServerError : Z := 500.
End Http.

Module DepositRequest.
Record t : Type := mk { WalletID : N; Amount : float64; Description : string }.
End DepositRequest.

Module TransferRequest.
Record t : Type := mk {
  FromWalletID : N; ToWalletID : N; Amount : float64; Description : string
}.
End TransferRequest.

(** The map a handler answers with for one wallet. *)
Record WalletView : Type := mkWalletView {
  view_id : N;
  view_user_id : N;
  view_balance : float64;
  view_created_at : Z
}.

(** The map a handler answers with for one ledger record. A key that the
    handler leaves out is [None]; the two wallet keys of a transfer hold a
    pointer, which may be nil. *)
Record TransactionView : Type := mkTransactionView {
  view_transaction_id : N;
  view_wallet_id : N;
  view_type : TransactionType;
  view_amount : float64;
  view_balance_before : float64;
  view_balance_after : float64;
  view_from_wallet_id : option (option N);
  view_to_wallet_id : option (option N);
  view_transaction_uuid : string;
  view_description : string;
  view_transaction_created_at : Z
}.

(** [WalletResponse]: an error text or data; [gin.Recovery] answers a
    panic with a status and no body. *)
Inductive Body : Type :=
| ErrorBody (msg : string)
| WalletData (v : WalletView)
| WalletsData (l : list WalletView)
| TransactionData (v : TransactionView)
| TransactionsData (l : list TransactionView)
| NoBody.

Record Response : Type := mkResponse { status : Z; body : Body }.

(** What a handler does: it answers, and leaves the store and the cache in
    a new state. *)
Definition Handler : Type := World -> Response * World.

Definition wallet_view (wallet : Wallet.t) : WalletView :=
  mkWalletView (Wallet.ID wallet) (Wallet.UserID wallet)
    (MinorUnitsToDollars (Wallet.Balance wallet)) (Wallet.CreatedAt wallet).

Definition transaction_view (from_to : option N -> option (option N))
    (t : Transaction.t) : TransactionView :=
  mkTransactionView (Transaction.ID t) (Transaction.WalletID t)
    (Transaction.Type_ t)
    (MinorUnitsToDollars (Transaction.Amount t))
    (MinorUnitsToDollars (Transaction.BalanceBefore t))
    (MinorUnitsToDollars (Transaction.BalanceAfter t))
    (from_to (Transaction.FromWalletID t)) (from_to (Transaction.ToWalletID t))
    (Transaction.TransactionUUID t) (Transaction.Description t)
    (Transaction.CreatedAt t).

(** The tags [validate:"required"] on an unsigned integer (not zero) and
    [validate:"required,gt=0"] on a float (not zero, and above zero). *)
Definition DepositRequest_valid (req : DepositRequest.t) : bool :=
  negb (DepositRequest.WalletID req =? 0)%N
  && float64_ltb Float64.zero (DepositRequest.Amount req).

Definition TransferRequest_valid (req : TransferRequest.t) : bool :=
  negb (TransferRequest.FromWalletID req =? 0)%N
  && negb (TransferRequest.ToWalletID req =? 0)%N
  && float64_ltb Float64.zero (TransferRequest.Amount req).

Section Handlers.

Variable env : Env.

(** [strconv.ParseUint(s, 10, 32)]: the number, when there is no error. *)
Variable strconv_ParseUint : string -> option N.

(** [strconv.Atoi(s)]: the number returned; the handler drops the error. *)
Variable strconv_Atoi : string -> Z.

(** [err.Error()] of the validator on a request it refuses. *)
Variable validator_Error_deposit : DepositRequest.t -> string.
Variable validator_Error_transfer : TransferRequest.t -> string.

Definition respond (code : Z) (b : Body) (w : World) : Response * World :=
  (mkResponse code b, w).

(** [userID, exists := c.Get("user_id")] is the identifier the
    authentication middleware stored, if it stored one. *)
Definition WalletHandler_CreateWallet (user_id : option N) : Handler :=
  fun w =>
    match user_id with
    | None =>
        respond Http.StatusUnauthorized (ErrorBody "User not authenticated") w
    | Some userID =>
        match CreateWallet env userID w with
        | (Err err, w1) =>
            respond Http.StatusBadRequest (ErrorBody (Error_text err)) w1
        | (Ok wallet, w1) =>
            respond Http.StatusCreated (WalletData (wallet_view wallet)) w1
        end
    end.

(** [wallet.UserID != userID.(uint)]: the assertion panics on a missing
    identifier, and [gin.Recovery] answers 500. *)
Definition check_owner (wallet : Wallet.t) (user_id : option N)
    (denied : string) (granted : Handler) : Handler :=
  fun w =>
    match user_id with
    | None => respond Http.StatusInternalServerError NoBody w
    | Some userID =>
        if negb (Wallet.UserID wallet =? userID)%N
        then respond Http.StatusForbidden (ErrorBody denied) w
        else granted w
    end.

Definition WalletHandler_GetWallet (id : string) (user_id : option N) : Handler :=
  fun w =>
    match strconv_ParseUint id with
    | None => respond Http.StatusBadRequest (ErrorBody "Invalid wallet ID") w
    | Some walletID =>
        match GetWallet env walletID w with
        | (Err _, w1) =>
            respond Http.StatusNotFound (ErrorBody "Wallet not found") w1
        | (Ok wallet, w1) =>
            check_owner wallet user_id "Access denied"
              (respond Http.StatusOK (WalletData (wallet_view wallet))) w1
        end
    end.

Definition WalletHandler_GetUserWallets (user_id : option N) : Handler :=
  fun w =>
    match user_id with
    | None =>
        respond Http.StatusUnauthorized (ErrorBody "User not authenticated") w
    | Some userID =>
        match GetUserWallets env userID w with
        | (Err err, w1) =>
            respond Http.StatusInternalServerError (ErrorBody (Error_text err)) w1
        | (Ok wallets, w1) =>
            respond Http.StatusOK (WalletsData (wallet_view <$> wallets)) w1
        end
    end.

(** [c.ShouldBindJSON(&req)] gives the request, or fails on a body that
    does not decode. *)
Definition WalletHandler_Deposit (bound : option DepositRequest.t)
    (user_id : option N) : Handler :=
  fun w =>
    match bound with
    | None =>
        respond Http.StatusBadRequest (ErrorBody "Invalid request format") w
    | Some req =>
        if negb (DepositRequest_valid req)
        then respond Http.StatusBadRequest
               (ErrorBody ("Validation failed: " +:+ validator_Error_deposit req)) w
        else
          match GetWallet env (DepositRequest.WalletID req) w with
          | (Err _, w1) =>
              respond Http.StatusNotFound (ErrorBody "Wallet not found") w1
          | (Ok wallet, w1) =>
              check_owner wallet user_id "Access denied"
                (fun w1 =>
                   match Deposit env (DepositRequest.WalletID req)
                           (DepositRequest.Amount req)
                           (DepositRequest.Description req) w1 with
                   | (Err err, w2) =>
                       respond Http.StatusBadRequest (ErrorBody (Error_text err)) w2
                   | (Ok transaction, w2) =>
                       respond Http.StatusOK
                         (TransactionData
                            (transaction_view (fun _ => None) transaction)) w2
                   end) w1
          end
    end.

Definition WalletHandler_Transfer (bound : option TransferRequest.t)
    (user_id : option N) : Handler :=
  fun w =>
    match bound with
    | None =>
        respond Http.StatusBadRequest (ErrorBody "Invalid request format") w
    | Some req =>
        if negb (TransferRequest_valid req)
        then respond Http.StatusBadRequest
               (ErrorBody ("Validation failed: " +:+ validator_Error_transfer req)) w
        else
          match GetWallet env (TransferRequest.FromWalletID req) w with
          | (Err _, w1) =>
              respond Http.StatusNotFound (ErrorBody "Source wallet not found") w1
          | (Ok fromWallet, w1) =>
              check_owner fromWallet user_id "Access denied to source wallet"
                (fun w1 =>
                   match Transfer env (TransferRequest.FromWalletID req)
                           (TransferRequest.ToWalletID req)
                           (TransferRequest.Amount req)
                           (TransferRequest.Description req) w1 with
                   | (Err err, w2) =>
                       respond Http.StatusBadRequest (ErrorBody (Error_text err)) w2
                   | (Ok transaction, w2) =>
                       respond Http.StatusOK
                         (TransactionData (transaction_view Some transaction)) w2
                   end) w1
          end
    end.

(** [if limit <= 0 || limit > 100 { limit = 10 }] *)
Definition page_limit (limit : Z) : Z :=
  if (limit <=? 0) || (100 <? limit) then 10 else limit.

(** [c.DefaultQuery(key, def)] on a query that holds [key] or not. *)
Definition DefaultQuery (param : option string) (def : string) : string :=
  default def param.

Definition WalletHandler_GetTransactions (id : string) (user_id : option N)
    (limit_param offset_param : option string) : Handler :=
  fun w =>
    match strconv_ParseUint id with
    | None => respond Http.StatusBadRequest (ErrorBody "Invalid wallet ID") w
    | Some walletID =>
        match GetWallet env walletID w with
        | (Err _, w1) =>
            respond Http.StatusNotFound (ErrorBody "Wallet not found") w1
        | (Ok wallet, w1) =>
            check_owner wallet user_id "Access denied"
              (fun w1 =>
                 let limit := strconv_Atoi (DefaultQuery limit_param "10") in
                 let offset := strconv_Atoi (DefaultQuery offset_param "0") in
                 let limit := page_limit limit in
                 match GetTransactions env walletID limit offset w1 with
                 | (Err err, w2) =>
                     respond Http.StatusInternalServerError
                       (ErrorBody (Error_text err)) w2
                 | (Ok transactions, w2) =>
                     respond Http.StatusOK
                       (TransactionsData
                          (transaction_view (fmap Some) <$> transactions)) w2
                 end) w1
        end
    end.

End Handlers.

(** ** [internal/service]: registration and login *)

(** The class [[A-Za-z]] of the username pattern. *)
Definition is_letter (c : ascii) : bool :=
  let n := nat_of_ascii c in
  ((65 <=? n) && (n <=? 90) || (97 <=? n) && (n <=? 122))%nat.

Fixpoint all_letters (s : string) : bool :=
  match s with
  | EmptyString => true
  | String c s' => is_letter c && all_letters s'
  end.

(** [regexp.MustCompile(`^[A-Za-z]+$`).MatchString(username)] *)
Definition alphabetic (username : string) : bool :=
  match username with
  | EmptyString => false
  | _ => all_letters username
  end.

Definition user_username_key (username : string) : string :=
  "user:username:" +:+ username.

Definition user_id_key (id : N) : string := "user:id:" +:+ pretty id.

Section Auth.

Variable env : Env.

(** [repository/user.go] is not among the sources, and neither are bcrypt
    and the token library: the two queries of the user repository, the
    hash, its check and [generateToken] are taken as given, whatever they
    do. So is [json.Marshal] on a user. *)
Variable userRepo_GetByUsername : string -> M User.t.
Variable userRepo_Create : User.t -> M User.t.
Variable bcrypt_GenerateFromPassword : string -> M string.
Variable bcrypt_CompareHashAndPassword : string -> string -> bool.
Variable generateToken : User.t -> M string.
Variable json_Marshal_user : User.t -> option string.

Definition cacheUser (user : User.t) : M unit :=
  match json_Marshal_user user with
  | None => mret tt
  | Some userJSON =>
      redis_Set env (user_username_key (User.Username user)) userJSON (10 * Minute);;
      redis_Set env (user_id_key (User.ID user)) userJSON (10 * Minute)
  end.

Definition Register (username password : string) : M User.t :=
  if ((String.length username <? 3) || (50 <? String.length username))%nat
  then fail (errors_New "username must be between 3 and 50 characters")
  else if negb (alphabetic username)
  then fail (errors_New "username must contain only alphabetic characters")
  else if ((String.length password <? 8) || (15 <? String.length password))%nat
  then fail (errors_New "password must be between 8 and 15 characters")
  else fun w =>
    match userRepo_GetByUsername username w with
    | (Ok _, w1) => (Err (errors_New "username already exists"), w1)
    | (Err err, w1) =>
        if negb (is_ErrRecordNotFound err) then (Err err, w1)
        else
          (hashedPassword ← bcrypt_GenerateFromPassword password;
           user ← userRepo_Create (User.mk 0 username hashedPassword);
           cacheUser user;;
           mret user) w1
    end.

Definition Login (username password : string) : M string :=
  fun w =>
    match userRepo_GetByUsername username w with
    | (Err err, w1) =>
        if is_ErrRecordNotFound err
        then (Err (errors_New "invalid credentials"), w1)
        else (Err err, w1)
    | (Ok user, w1) =>
        if negb (bcrypt_CompareHashAndPassword (User.Password user) password)
        then (Err (errors_New "invalid credentials"), w1)
        else (cacheUser user;; generateToken user) w1
    end.

End Auth.

(** ** Observations used by the properties of the whole service *)

(** Every wallet row sits under an identifier the counter has passed. *)
Definition wallets_fresh (d : DB) : Prop :=
  forall k, is_Some (wallets d !! k) -> (k < wallets_auto_increment d)%N.

(** The computation leaves an observation of the state as it found it. *)
Definition preserves {X A : Type} (f : World -> X) (m : M A) : Prop :=
  forall w, f (snd (m w)) = f w.

(** Observations that neither the interaction counter nor the trace
    touches. *)
Definition timeless {X : Type} (f : World -> X) : Prop :=
  forall s w, f (advance s w) = f w.

(** The AUTO_INCREMENT counter of the wallets table. *)
Definition wallet_counter (w : World) : N := wallets_auto_increment (db w).

(** The cache answers every command. *)
Definition cache_answers (env : Env) : Prop := forall n, cache_fault env n = false.

(** The cache is out of reach for the whole run. *)
Definition cache_down (env : Env) : Prop := forall n, cache_fault env n = true.

(** The literal part of the pattern [invalidateTransactionCache] scans
    for: [fmt.Sprintf("wallet:%d:transactions:*", walletID)] without its
    final star. *)
Definition transactions_cache_prefix (walletID : N) : string :=
  "wallet:" +:+ pretty walletID +:+ ":transactions:".

(** ** More collaborators and states, to run the rest of the code on *)

Module Cases.
Import Sample.

(** The quiet collaborators with a cache that is out of reach. *)
Definition no_cache : Env :=
  {| arch := Float64.amd64;
     storage_fault := fun _ => None;
     cache_fault := fun _ => true;
     uuid_New := fun n => "uuid-" +:+ pretty n;
     time_Now := fun n => 1000000 * Z.of_nat n;
     tie_before := fun _ _ _ => false;
     json_Marshal_wallet := fun w => "wallet#" +:+ pretty (Wallet.ID w);
     json_Unmarshal_wallet := fun _ => None;
     json_Marshal_transactions := fun l => Some ("rows#" +:+ pretty (length l));
     json_Unmarshal_transactions := fun _ => None |}.

(** The quiet collaborators with a codec that writes every wallet as the
    empty object (and reads the empty object as the zero wallet). *)
Definition empty_object_codec : Env :=
  {| arch := Float64.amd64;
     storage_fault := fun _ => None;
     cache_fault := fun _ => false;
     uuid_New := fun n => "uuid-" +:+ pretty n;
     time_Now := fun n => 1000000 * Z.of_nat n;
     tie_before := fun _ _ _ => false;
     json_Marshal_wallet := fun _ => "{}";
     json_Unmarshal_wallet := fun s =>
       if String.eqb s "{}" then Some (Wallet.mk 0 0 0 0 0 User.zero) else None;
     json_Marshal_transactions := fun l => Some ("rows#" +:+ pretty (length l));
     json_Unmarshal_transactions := fun _ => None |}.

(** The quiet collaborators with a cache that faults at the ninth
    interaction and at no other. *)
Definition cache_fault_at_8 : Env :=
  {| arch := Float64.amd64;
     storage_fault := fun _ => None;
     cache_fault := fun n => Nat.eqb n 8;
     uuid_New := fun n => "uuid-" +:+ pretty n;
     time_Now := fun n => Z.of_nat n;
     tie_before := fun _ _ _ => false;
     json_Marshal_wallet := fun w => "wallet#" +:+ pretty (Wallet.ID w);
     json_Unmarshal_wallet := fun s =>
       if String.eqb s "{}" then Some (Wallet.mk 0 0 0 0 0 User.zero) else None;
     json_Marshal_transactions := fun l => Some ("rows#" +:+ pretty (length l));
     json_Unmarshal_transactions := fun _ => None |}.

Definition bob : User.t := User.mk 2 "bob" "hash".

(** Two users: alice owns wallets 1 and 3, bob owns wallet 2. *)
Definition two_users : DB :=
  mkDB (<[ 1%N := alice ]> {[ 2%N := bob ]})
       (<[ 1%N := Wallet.mk 1 1 500 0 0 User.zero ]>
          (<[ 2%N := Wallet.mk 2 2 700 0 0 User.zero ]>
             {[ 3%N := Wallet.mk 3 1 0 0 0 User.zero ]}))
       [] 4 1.

(** Decimal numerals, as much of [strconv] as the examples call for. *)
Fixpoint digits_value (acc : N) (s : string) : option N :=
  match s with
  | EmptyString => Some acc
  | String c s' =>
      let n := N_of_ascii c in
      if ((48 <=? n) && (n <=? 57))%N
      then digits_value (10 * acc + (n - 48))%N s'
      else None
  end.

Definition ParseUint (s : string) : option N :=
  match s with
  | EmptyString => None
  | _ => n ← digits_value 0 s; if (n <? 2 ^ 32)%N then Some n else None
  end.

Definition Atoi (s : string) : Z :=
  match s with
  | EmptyString => 0
  | _ => default 0 (Z.of_N <$> digits_value 0 s)
  end.

Definition validator_Error {A : Type} (req : A) : string :=
  "Key: 'Amount' Error:Field validation for 'Amount' failed on the 'gt' tag".

(** A user repository over a single list of users, a hash that is the
    password behind a prefix, and a token that names the user. *)
Definition GetByUsername (known : list User.t) (username : string) : M User.t :=
  match List.find (fun u => String.eqb (User.Username u) username) known with
  | Some u => mret u
  | None => fail ErrRecordNotFound
  end.

Definition Create (u : User.t) : M User.t :=
  mret (User.mk 7 (User.Username u) (User.Password u)).

Definition GenerateFromPassword (password : string) : M string :=
  mret ("hash:" +:+ password).

Definition CompareHashAndPassword (hash password : string) : bool :=
  String.eqb hash ("hash:" +:+ password).

Definition token_for (u : User.t) : M string :=
  mret ("token:" +:+ User.Username u).

Definition Marshal_user (u : User.t) : option string := Some "{}".

Definition carol : User.t := User.mk 5 "carol" "hash:correcthorse".

End Cases.

(** * Supporting lemmas *)

Ltac unfold_gorm :=
  unfold lock_wallet, tx_First_for_update, tx_Update_balance, tx_Create_transaction,
    uuid_New_String, time_Now_, sql, update_db, read_db, interaction, limit_offset, fail,
    mbind, M_bind, mret, M_ret in *.

(** ** Arithmetic of [int64] and of the money conversion *)

Module Int64Facts.
Import Int64.

Lemma wrap_in_range z : in_range (wrap z).
Proof.
  unfold in_range, wrap, min_int, max_int, modulus.
  pose proof (Z.mod_pos_bound (z - - 2 ^ 63) (2 ^ 64)). lia.
Qed.

Lemma wrap_id z : in_range z -> wrap z = z.
Proof.
  unfold in_range, wrap, min_int, max_int, modulus. intros Hz.
  rewrite Z.mod_small; lia.
Qed.

Lemma wrap_wrap_add x y : wrap (x + wrap y) = wrap (x + y).
Proof.
  unfold wrap, modulus.
  replace (x + ((y - min_int) mod 2 ^ 64 + min_int) - min_int)
    with (x + (y - min_int) mod 2 ^ 64) by lia.
  rewrite Zplus_mod_idemp_r. do 2 f_equal. lia.
Qed.

Lemma add_neg x y : add x (neg y) = sub x y.
Proof. unfold add, neg, sub. rewrite wrap_wrap_add. reflexivity. Qed.

Lemma in_rangeb_spec z : in_rangeb z = true <-> in_range z.
Proof. unfold in_rangeb, in_range. rewrite andb_true_iff. lia. Qed.
End Int64Facts.

Module Float64Facts.
Import Float64.

Lemma to_int64_in_range arch x : Int64.in_range (to_int64 arch x).
Proof.
  unfold to_int64. destruct (truncate x) as [z|].
  - destruct (Int64.in_rangeb z) eqn:E.
    + by apply Int64Facts.in_rangeb_spec.
    + apply Int64Facts.wrap_in_range.
  - apply Int64Facts.wrap_in_range.
Qed.

Lemma to_int64_representable arch x z :
  truncate x = Some z -> representable x = true -> to_int64 arch x = z.
Proof. unfold representable, to_int64. intros ->. by intros ->. Qed.

(** The sign of a product that is finite. *)
Lemma mul_finite_sign x y s m e :
  mul x y = S754_finite s m e ->
  exists sx mx ex sy my ey,
    x = S754_finite sx mx ex /\ y = S754_finite sy my ey /\ s = xorb sx sy.
Proof.
  unfold mul, SFmul.
  destruct x as [sx|sx| |sx mx ex], y as [sy|sy| |sy my ey]; try discriminate.
  unfold binary_round_aux.
  destruct (shr_fexp _ _ _ _ _) as [mrs' e'].
  destruct (shr_fexp _ _ _ _ _) as [mrs'' e''].
  destruct (shr_m mrs''); try discriminate.
  destruct (_ <=? _); try discriminate.
  intros [= <- <- <-]. by eexists _, _, _, _, _, _.
Qed.

Lemma leb_zero_false_finite s m e :
  leb (S754_finite s m e) zero = false -> s = false.
Proof. by destruct s. Qed.

Lemma truncate_nonneg x z :
  truncate x = Some z ->
  (forall m e, x <> S754_finite true m e) -> 0 <= z.
Proof.
  destruct x as [s|s| |s m e]; simpl; try discriminate.
  - by intros [= <-].
  - intros [= <-] Hs. destruct s; [by destruct (Hs m e)|].
    destruct (0 <=? e) eqn:E.
    + rewrite Z.shiftl_mul_pow2 by lia. 
      assert (0 < 2 ^ e) by (apply Z.pow_pos_nonneg; lia). lia.
    + apply Z.shiftr_nonneg. lia.
Qed.
End Float64Facts.

Lemma DollarsToMinorUnits_in_range arch dollars :
  Int64.in_range (DollarsToMinorUnits arch dollars).
Proof. apply Float64Facts.to_int64_in_range. Qed.

Lemma DollarsToMinorUnits_nonneg arch dollars :
  Float64.leb dollars Float64.zero = false ->
  Float64.representable (Float64.mul dollars (Float64.of_Z 100)) = true ->
  0 <= DollarsToMinorUnits arch dollars.
Proof.
  intros Hpos Hrep. unfold DollarsToMinorUnits.
  destruct (Float64.truncate (Float64.mul dollars (Float64.of_Z 100))) as [z|] eqn:Ht.
  2:{ unfold Float64.representable in Hrep. by rewrite Ht in Hrep. }
  rewrite (Float64Facts.to_int64_representable _ _ _ Ht Hrep).
  eapply Float64Facts.truncate_nonneg; [done|].
  intros m e Hm.
  apply Float64Facts.mul_finite_sign in Hm
    as (sx & mx & ex & sy & my & ey & -> & Hy & Hs).
  apply Float64Facts.leb_zero_false_finite in Hpos as ->.
  vm_compute in Hy. injection Hy as <- _ _. done.
Qed.

(** ** What each operation does to the store *)

Lemma locks_of_app tr tr' : locks_of (tr ++ tr') = locks_of tr ++ locks_of tr'.
Proof. apply omap_app. Qed.

Section Steps.
Variable env : Env.

Lemma cache_step_refl w : cache_step w w.
Proof. by split. Qed.

Lemma cache_step_trans w1 w2 w3 :
  cache_step w1 w2 -> cache_step w2 w3 -> cache_step w1 w3.
Proof. intros [? ?] [? ?]. split; congruence. Qed.

Lemma redis_Del_step k w :
  exists w', redis_Del env k w = (Ok tt, w') /\ cache_step w w'.
Proof.
  unfold redis_Del, cache_step.
  destruct (cache_fault env (tick w)); eexists; (split; [reflexivity|]);
    simpl; rewrite locks_of_app, app_nil_r; done.
Qed.

Lemma for_each_redis_Del_step keys w :
  exists w', for_each (redis_Del env) keys w = (Ok tt, w') /\ cache_step w w'.
Proof.
  revert w. induction keys as [|k keys IH]; intros w.
  - exists w. split; [done|apply cache_step_refl].
  - destruct (redis_Del_step k w) as (w1 & E1 & S1).
    destruct (IH w1) as (w2 & E2 & S2).
    exists w2. split; [|by eapply cache_step_trans].
    simpl. unfold mbind, M_bind. by rewrite E1.
Qed.

Lemma invalidateWalletCache_step id w :
  exists w', invalidateWalletCache env id w = (Ok tt, w') /\ cache_step w w'.
Proof. apply redis_Del_step. Qed.

Lemma invalidateTransactionCache_step id w :
  exists w', invalidateTransactionCache env id w = (Ok tt, w') /\ cache_step w w'.
Proof.
  unfold invalidateTransactionCache, mbind, M_bind, redis_Scan.
  match goal with |- context [for_each _ ?ks ?w1] =>
    destruct (for_each_redis_Del_step ks w1) as (w2 & E2 & [S2 L2]) end.
  exists w2. split; [done|]. split; [done|].
  rewrite L2. simpl. by rewrite locks_of_app, app_nil_r.
Qed.

Lemma Deposit_tx_cases id amt desc w :
  match Deposit_tx env id amt desc w with
  | (Err _, _) => True
  | (Ok r, w') =>
      exists row now created,
        wallets (db w) !! id = Some row /\
        r = Transaction.mk (transactions_auto_increment (db w)) id
              TransactionTypeDeposit amt (Wallet.Balance row)
              (Int64.add (Wallet.Balance row) amt) None None
              (Transaction.TransactionUUID r) desc created /\
        uuid_taken (Transaction.TransactionUUID r) (transactions (db w)) = false /\
        users (db w') = users (db w) /\
        wallets (db w') =
          alter (fun x => Wallet.with_Balance x (Int64.add (Wallet.Balance row) amt) now)
                id (wallets (db w)) /\
        transactions (db w') = transactions (db w) ++ [r] /\
        locks_of (trace w') = locks_of (trace w) ++ [id]
  end.
Proof.
  unfold Deposit_tx, tx_First_for_update, tx_Update_balance, tx_Create_transaction,
    uuid_New_String, time_Now_, sql, update_db, read_db, fail, mbind, M_bind, mret, M_ret.
  repeat (case_match; simplify_eq/=; try done).
  eexists _, _, _. repeat split; try done.
  rewrite !locks_of_app. simpl. by rewrite !app_nil_r.
Qed.


Lemma db_Transaction_cases {A} (fc : M A) w :
  let '(res, w') := db_Transaction env fc w in
  (exists msg, storage_fault env (tick w) = Some msg /\ res = Err (ErrDriver msg) /\
               same_rows (db w) (db w') /\
               locks_of (trace w') = locks_of (trace w))
  \/ (storage_fault env (tick w) = None /\
      exists r2 w2, fc (advance [SqlBegin] w) = (r2, w2) /\
        locks_of (trace w') = locks_of (trace w2) /\
        match r2 with
        | Err e => res = Err e /\ same_rows (db w) (db w')
        | Ok a =>
            (storage_fault env (tick w2) = None /\ res = Ok a /\ db w' = db w2)
            \/ (exists msg, storage_fault env (tick w2) = Some msg /\
                            res = Err (ErrDriver msg) /\ same_rows (db w) (db w'))
        end).
Proof.
  destruct (db_Transaction env fc w) as [res w'] eqn:E.
  unfold db_Transaction, sql in E.
  destruct (storage_fault env (tick w)) as [msg|] eqn:Hb.
  { left. exists msg. simplify_eq/=. repeat split; try done.
    by rewrite locks_of_app, app_nil_r. }
  right. split; [done|].
  destruct (fc _) as [[a|e] w2] eqn:Hfc.
  - destruct (storage_fault env (tick w2)) as [msg|] eqn:Hc; simplify_eq/=.
    + exists (Ok a), w2. repeat split; try done.
      * by rewrite locks_of_app, app_nil_r.
      * right. exists msg. by repeat split.
    + exists (Ok a), w2. repeat split; try done.
      * by rewrite locks_of_app, app_nil_r.
      * by left.
  - simplify_eq/=. exists (Err e), w2. repeat split; try done.
    by rewrite locks_of_app, app_nil_r.
Qed.

Lemma uuid_taken_snoc u l r :
  uuid_taken u (l ++ [r]) =
  uuid_taken u l || String.eqb (Transaction.TransactionUUID r) u.
Proof. unfold uuid_taken. rewrite existsb_app. simpl. by rewrite orb_false_r. Qed.

Lemma Transfer_tx_cases a b amt desc w :
  match Transfer_tx env a b amt desc w with
  | (Err _, w') =>
      locks_of (trace w') = locks_of (trace w)
      \/ locks_of (trace w') = locks_of (trace w) ++ [a]
      \/ locks_of (trace w') = locks_of (trace w) ++ [a; b]
  | (Ok r, w') =>
      exists ra rb now_a now_b credit,
        wallets (db w) !! a = Some ra /\
        wallets (db w) !! b = Some rb /\
        (Wallet.Balance ra <? amt) = false /\
        r = Transaction.mk (transactions_auto_increment (db w)) a
              TransactionTypeTransfer (Int64.neg amt) (Wallet.Balance ra)
              (Int64.sub (Wallet.Balance ra) amt) (Some a) (Some b)
              (Transaction.TransactionUUID r) desc (Transaction.CreatedAt r) /\
        credit = Transaction.mk (N.succ (transactions_auto_increment (db w))) b
              TransactionTypeTransfer amt (Wallet.Balance rb)
              (Int64.add (Wallet.Balance rb) amt) (Some a) (Some b)
              (Transaction.TransactionUUID credit) desc (Transaction.CreatedAt credit) /\
        Transaction.TransactionUUID r <> Transaction.TransactionUUID credit /\
        uuid_taken (Transaction.TransactionUUID r) (transactions (db w)) = false /\
        uuid_taken (Transaction.TransactionUUID credit) (transactions (db w)) = false /\
        users (db w') = users (db w) /\
        wallets (db w') =
          alter (fun x => Wallet.with_Balance x (Int64.add (Wallet.Balance rb) amt) now_b) b
            (alter (fun x => Wallet.with_Balance x (Int64.sub (Wallet.Balance ra) amt) now_a) a
               (wallets (db w))) /\
        transactions (db w') = transactions (db w) ++ [r; credit] /\
        locks_of (trace w') = locks_of (trace w) ++ [a; b]
  end.
Proof.
  unfold Transfer_tx. unfold_gorm.
  repeat (case_match; simplify_eq/=; try done);
    rewrite ?locks_of_app; simpl; rewrite ?app_nil_r, <-?app_assoc; simpl;
    try (by left); try (by right; left); try (by right; right).
  match goal with H : uuid_taken _ (_ ++ _) = false |- _ =>
    rewrite uuid_taken_snoc in H; apply orb_false_elim in H as [Hold Hnew];
    apply String.eqb_neq in Hnew; simpl in Hnew end.
  eexists _, _, _, _, _. repeat split; done.
Qed.

Lemma cache_only_ret {A} (a : A) : cache_only (mret a) a.
Proof. intros w. exists w. split; [done|apply cache_step_refl]. Qed.

Lemma cache_only_seq {A B} (m : M A) (k : M B) a b :
  cache_only m a -> cache_only k b -> cache_only (m ;; k) b.
Proof.
  intros Hm Hk w. destruct (Hm w) as (w1 & E1 & S1).
  destruct (Hk w1) as (w2 & E2 & S2). exists w2.
  split; [|by eapply cache_step_trans].
  unfold mbind, M_bind. by rewrite E1.
Qed.

Lemma Deposit_invalidation id (r : Transaction.t) :
  cache_only (invalidateWalletCache env id ;;
              invalidateTransactionCache env id ;; mret r) r.
Proof.
  repeat eapply cache_only_seq; try apply cache_only_ret.
  - intros w. apply invalidateWalletCache_step.
  - intros w. apply invalidateTransactionCache_step.
Qed.

Lemma Transfer_invalidation a b (r : Transaction.t) :
  cache_only (invalidateWalletCache env a ;; invalidateWalletCache env b ;;
              invalidateTransactionCache env a ;;
              invalidateTransactionCache env b ;; mret r) r.
Proof.
  repeat eapply cache_only_seq; try apply cache_only_ret;
    intros w; first [apply invalidateWalletCache_step
                    |apply invalidateTransactionCache_step].
Qed.

Lemma same_rows_refl d : same_rows d d.
Proof. by repeat split. Qed.

Lemma Deposit_cases id amount desc w :
  let amt := DollarsToMinorUnits (arch env) amount in
  match Deposit env id amount desc w with
  | (Err _, w') => same_rows (db w) (db w')
  | (Ok r, w') =>
      Float64.leb amount Float64.zero = false /\
      exists row now,
        wallets (db w) !! id = Some row /\
        r = Transaction.mk (transactions_auto_increment (db w)) id
              TransactionTypeDeposit amt (Wallet.Balance row)
              (Int64.add (Wallet.Balance row) amt) None None
              (Transaction.TransactionUUID r) desc (Transaction.CreatedAt r) /\
        uuid_taken (Transaction.TransactionUUID r) (transactions (db w)) = false /\
        users (db w') = users (db w) /\
        wallets (db w') =
          alter (fun x => Wallet.with_Balance x (Int64.add (Wallet.Balance row) amt) now)
                id (wallets (db w)) /\
        transactions (db w') = transactions (db w) ++ [r]
  end.
Proof.
  intros amt. unfold Deposit.
  destruct (Float64.leb amount Float64.zero) eqn:Hpos.
  { apply same_rows_refl. }
  fold amt. unfold mbind at 1, M_bind at 1.
  pose proof (db_Transaction_cases (Deposit_tx env id amt desc) w) as Htx.
  destruct (db_Transaction _ _ _) as [res w1].
  destruct Htx as [(msg & _ & -> & Hrows & _)|(_ & r2 & w2 & Hfc & _ & Hres)].
  { done. }
  pose proof (Deposit_tx_cases id amt desc (advance [SqlBegin] w)) as Hbody.
  rewrite Hfc in Hbody. destruct r2 as [r|e].
  2:{ by destruct Hres as [-> ?]. }
  destruct Hres as [(_ & -> & Hdb)|(msg & _ & -> & ?)]; [|done].
  destruct (Deposit_invalidation id r w1) as (w' & -> & [Hdb' _]).
  split; [done|].
  destruct Hbody as (row & now & created & Hrow & Hr & Hu & Husers & Hw & Ht & _).
  exists row, now. rewrite Hdb', Hdb. repeat split; try done.
  rewrite Hr at 1. simpl. by rewrite Hr.
Qed.

Lemma Transfer_cases a b amount desc w :
  let amt := DollarsToMinorUnits (arch env) amount in
  let '(res, w') := Transfer env a b amount desc w in
  (locks_of (trace w') = locks_of (trace w)
   \/ locks_of (trace w') = locks_of (trace w) ++ [a]
   \/ locks_of (trace w') = locks_of (trace w) ++ [a; b]) /\
  match res with
  | Err _ => same_rows (db w) (db w')
  | Ok r =>
      Float64.leb amount Float64.zero = false /\ a <> b /\
      exists ra rb now_a now_b credit,
        wallets (db w) !! a = Some ra /\
        wallets (db w) !! b = Some rb /\
        (Wallet.Balance ra <? amt) = false /\
        r = Transaction.mk (transactions_auto_increment (db w)) a
              TransactionTypeTransfer (Int64.neg amt) (Wallet.Balance ra)
              (Int64.sub (Wallet.Balance ra) amt) (Some a) (Some b)
              (Transaction.TransactionUUID r) desc (Transaction.CreatedAt r) /\
        credit = Transaction.mk (N.succ (transactions_auto_increment (db w))) b
              TransactionTypeTransfer amt (Wallet.Balance rb)
              (Int64.add (Wallet.Balance rb) amt) (Some a) (Some b)
              (Transaction.TransactionUUID credit) desc (Transaction.CreatedAt credit) /\
        Transaction.TransactionUUID r <> Transaction.TransactionUUID credit /\
        uuid_taken (Transaction.TransactionUUID r) (transactions (db w)) = false /\
        uuid_taken (Transaction.TransactionUUID credit) (transactions (db w)) = false /\
        users (db w') = users (db w) /\
        wallets (db w') =
          alter (fun x => Wallet.with_Balance x (Int64.add (Wallet.Balance rb) amt) now_b) b
            (alter (fun x => Wallet.with_Balance x (Int64.sub (Wallet.Balance ra) amt) now_a) a
               (wallets (db w))) /\
        transactions (db w') = transactions (db w) ++ [r; credit] /\
        locks_of (trace w') = locks_of (trace w) ++ [a; b]
  end.
Proof.
  intros amt. unfold Transfer.
  destruct (Float64.leb amount Float64.zero) eqn:Hpos.
  { split; [by left|apply same_rows_refl]. }
  destruct (N.eqb a b) eqn:Hab.
  { split; [by left|apply same_rows_refl]. }
  apply N.eqb_neq in Hab.
  fold amt. unfold mbind at 1, M_bind at 1.
  pose proof (db_Transaction_cases (Transfer_tx env a b amt desc) w) as Htx.
  destruct (db_Transaction _ _ _) as [res w1].
  destruct Htx as [(msg & _ & -> & Hrows & Hl)|(_ & r2 & w2 & Hfc & Hl & Hres)].
  { split; [by left|done]. }
  pose proof (Transfer_tx_cases a b amt desc (advance [SqlBegin] w)) as Hbody.
  rewrite Hfc in Hbody.
  assert (Hl0 : locks_of (trace (advance [SqlBegin] w)) = locks_of (trace w)).
  { simpl. by rewrite locks_of_app, app_nil_r. }
  rewrite Hl0 in Hbody. clear Hl0.
  destruct r2 as [r|e].
  2:{ destruct Hres as [-> ?]. rewrite Hl. done. }
  destruct Hbody as (ra & rb & now_a & now_b & credit & Hra & Hrb & Hlt & Hr & Hc
                     & Hne & Hu1 & Hu2 & Husers & Hw & Ht & Hlocks).
  destruct Hres as [(_ & -> & Hdb)|(msg & _ & -> & ?)].
  2:{ rewrite Hl, Hlocks. split; [by right; right|done]. }
  destruct (Transfer_invalidation a b r w1) as (w' & -> & [Hdb' Hl']).
  rewrite Hl', Hl, Hlocks. split; [by right; right|].
  split; [done|]. split; [done|].
  exists ra, rb, now_a, now_b, credit. rewrite Hdb', Hdb. by repeat split.
Qed.

Lemma GetWallet_db id w : db (snd (GetWallet env id w)) = db w.
Proof.
  unfold GetWallet, walletRepo_GetByID, redis_Get, redis_Set, sql, read_db, fail,
    mbind, M_bind, mret, M_ret.
  repeat (case_match; simplify_eq/=; try done).
Qed.

Lemma GetTransactions_db id l o w : db (snd (GetTransactions env id l o w)) = db w.
Proof.
  unfold GetTransactions, transactionRepo_GetByWalletID, redis_Get, redis_Set, sql,
    read_db, interaction, limit_offset, fail, mbind, M_bind, mret, M_ret.
  repeat (case_match; simplify_eq/=; try done).
Qed.

Lemma CreateWallet_wallets u w :
  let d' := db (snd (CreateWallet env u w)) in
  wallets d' = wallets (db w)
  \/ exists k row, Wallet.Balance row = 0 /\ wallets d' = <[k := row]> (wallets (db w)).
Proof.
  unfold CreateWallet, userRepo_GetByID, walletRepo_Create, invalidateUserCache,
    redis_Del, time_Now_, sql, read_db, update_db, fail, mbind, M_bind, mret, M_ret.
  repeat (case_match; simplify_eq/=; try (by left)); right;
    eexists _, _; (split; [|reflexivity]); reflexivity.
Qed.
End Steps.

(** ** Balances under the operations *)

Lemma balances_alter (Q : Z -> Prop) c now k (m : gmap N Wallet.t) :
  map_Forall (fun _ wal => Q (Wallet.Balance wal)) m -> Q c ->
  map_Forall (fun _ wal => Q (Wallet.Balance wal))
             (alter (fun x => Wallet.with_Balance x c now) k m).
Proof.
  intros Hm Hc i x. rewrite lookup_alter. case_decide as Hik.
  - subst i. destruct (m !! k) as [y|]; simpl; [|done]. by intros [= <-].
  - apply Hm.
Qed.

Lemma balances_insert (Q : Z -> Prop) row k (m : gmap N Wallet.t) :
  map_Forall (fun _ wal => Q (Wallet.Balance wal)) m -> Q (Wallet.Balance row) ->
  map_Forall (fun _ wal => Q (Wallet.Balance wal)) (<[k := row]> m).
Proof. intros Hm Hc. by apply map_Forall_insert_2. Qed.

(** A credit that fits lands where arithmetic on integers puts it. *)
Lemma credit_exact env w id amount row :
  credit_fits env w id amount = true ->
  Float64.leb amount Float64.zero = false ->
  wallets (db w) !! id = Some row ->
  0 <= Wallet.Balance row ->
  let amt := DollarsToMinorUnits (arch env) amount in
  0 <= amt /\ Int64.add (Wallet.Balance row) amt = Wallet.Balance row + amt
  /\ Wallet.Balance row + amt <= Int64.max_int.
Proof.
  intros Hfit Hpos Hrow Hb amt. unfold credit_fits in Hfit. rewrite Hpos, Hrow in Hfit.
  simpl in Hfit. apply andb_prop in Hfit as [Hrep Hmax]. apply Z.leb_le in Hmax.
  pose proof (DollarsToMinorUnits_nonneg (arch env) amount Hpos Hrep) as Hamt.
  fold amt in Hmax, Hamt. split; [done|]. split; [|done].
  apply Int64Facts.wrap_id. unfold Int64.in_range, Int64.min_int. 
  change (- 2 ^ 63) with (-9223372036854775808). lia.
Qed.

Lemma apply_op_ledger_ok env op w :
  ledger_ok (db w) -> op_fits env w op = true -> ledger_ok (db (apply_op env op w)).
Proof.
  intros [Hty Hnn] Hfit. destruct op as [u|id|id amount desc|a b amount desc|id l o]; simpl.
  - destruct (CreateWallet_wallets env u w) as [E|(k & row & Hb & E)];
      unfold ledger_ok, balances_int64, balances_nonneg; rewrite E; [done|].
    split; apply balances_insert; try done; rewrite Hb; [|done].
    by vm_compute.
  - by rewrite GetWallet_db.
  - pose proof (Deposit_cases env id amount desc w) as H. simpl in H.
    destruct (Deposit env id amount desc w) as [[r|e] w']; simpl.
    + destruct H as (Hpos & row & now & Hrow & _ & _ & _ & Hw & _).
      destruct (credit_exact env w id amount row Hfit Hpos Hrow (Hnn _ _ Hrow))
        as (Hamt & Hadd & Hmax).
      unfold ledger_ok, balances_int64, balances_nonneg. rewrite Hw.
      split; apply balances_alter; try done.
      * apply Int64Facts.wrap_in_range.
      * rewrite Hadd. specialize (Hnn _ _ Hrow). simpl in Hnn. lia.
    + destruct H as (_ & Hw & _). unfold ledger_ok, balances_int64, balances_nonneg.
      by rewrite Hw.
  - pose proof (Transfer_cases env a b amount desc w) as H. simpl in H.
    destruct (Transfer env a b amount desc w) as [[r|e] w']; simpl.
    + destruct H as (_ & Hpos & Hab & ra & rb & na & nb & credit & Hra & Hrb & Hlt
                     & _ & _ & _ & _ & _ & _ & Hw & _).
      destruct (credit_exact env w b amount rb Hfit Hpos Hrb (Hnn _ _ Hrb))
        as (Hamt & Hadd & Hmax).
      apply Z.ltb_ge in Hlt.
      unfold ledger_ok, balances_int64, balances_nonneg. rewrite Hw.
      split; repeat apply balances_alter; try done;
        try apply Int64Facts.wrap_in_range.
      * unfold Int64.sub. rewrite Int64Facts.wrap_id; [lia|].
        specialize (Hty _ _ Hra). unfold Int64.in_range in *. simpl in Hty.
        unfold Int64.min_int in *. change (- 2 ^ 63) with (-9223372036854775808) in *. lia.
      * rewrite Hadd. specialize (Hnn _ _ Hrb). simpl in Hnn. lia.
    + destruct H as (_ & _ & Hw & _). unfold ledger_ok, balances_int64, balances_nonneg.
      by rewrite Hw.
  - by rewrite GetTransactions_db.
Qed.

(** ** Records written *)

Lemma written_none w w' : same_rows (db w) (db w') -> written w w' = [].
Proof. intros (_ & _ & E). unfold written. rewrite E. apply drop_all. Qed.

Lemma written_app w w' l :
  transactions (db w') = transactions (db w) ++ l -> written w w' = l.
Proof. intros E. unfold written. rewrite E. apply drop_app_length. Qed.

Lemma CreateWallet_transactions env u w :
  transactions (db (snd (CreateWallet env u w))) = transactions (db w).
Proof.
  unfold CreateWallet, userRepo_GetByID, walletRepo_Create, invalidateUserCache,
    redis_Del, time_Now_, sql, read_db, update_db, fail, mbind, M_bind, mret, M_ret.
  repeat (case_match; simplify_eq/=; try done).
Qed.

Lemma sum_exact x y :
  Int64.in_range (x + y) -> Int64.add x y = x + y.
Proof. apply Int64Facts.wrap_id. Qed.

Lemma neg_add_cancel x : Int64.add (Int64.neg x) x = 0.
Proof.
  unfold Int64.add, Int64.neg. rewrite Z.add_comm, Int64Facts.wrap_wrap_add.
  replace (x + - x) with 0 by lia. reflexivity.
Qed.

Lemma neg_exact x : Int64.in_range x -> x <> Int64.min_int -> Int64.neg x = - x.
Proof.
  intros Hx Hne. apply Int64Facts.wrap_id.
  unfold Int64.in_range, Int64.min_int, Int64.max_int in *. lia.
Qed.

Lemma Deposit_succeeds env id amount desc w row :
  Float64.leb amount Float64.zero = false ->
  wallets (db w) !! id = Some row ->
  store_answers env w Deposit_statements ->
  uuid_taken (uuid_New env (4 + tick w)%nat) (transactions (db w)) = false ->
  exists r w', Deposit env id amount desc w = (Ok r, w').
Proof.
  intros Hpos Hrow Hstore Huuid.
  pose proof (Hstore 0%nat ltac:(unfold Deposit_statements; set_solver)) as F0.
  pose proof (Hstore 1%nat ltac:(unfold Deposit_statements; set_solver)) as F1.
  pose proof (Hstore 3%nat ltac:(unfold Deposit_statements; set_solver)) as F3.
  pose proof (Hstore 6%nat ltac:(unfold Deposit_statements; set_solver)) as F6.
  pose proof (Hstore 7%nat ltac:(unfold Deposit_statements; set_solver)) as F7.
  simpl in F0, F1, F3, F6, F7, Huuid.
  unfold Deposit. rewrite Hpos. unfold mbind at 1, M_bind at 1.
  assert (exists r1 w1,
    db_Transaction env
      (Deposit_tx env id (DollarsToMinorUnits (arch env) amount) desc) w
    = (Ok r1, w1)) as (r1 & w1 & ->).
  { unfold db_Transaction, Deposit_tx. unfold_gorm. simpl.
    rewrite F0. simpl. rewrite F1, Hrow. simpl. rewrite F3. simpl.
    rewrite F6. simpl. rewrite Huuid. simpl. rewrite F7. by eexists _, _. }
  destruct (Deposit_invalidation env id r1 w1) as (w2 & -> & _). by eexists _, _.
Qed.

(** ** The order of a history page *)

Section Ordering.
Variable env : Env.

Lemma sorts_before_recent n a b :
  sorts_before env n a b = true ->
  Transaction.CreatedAt b <= Transaction.CreatedAt a.
Proof.
  unfold sorts_before. intros [H|[H _]%andb_prop]%orb_prop; lia.
Qed.

Lemma sorts_before_not n a b :
  sorts_before env n a b = false ->
  Transaction.CreatedAt a <= Transaction.CreatedAt b.
Proof.
  unfold sorts_before. intros [H _]%orb_false_elim. lia.
Qed.

Lemma insert_desc_Permutation n a l : insert_desc env n a l ≡ₚ a :: l.
Proof.
  induction l as [|b l IH]; simpl; [done|].
  destruct (sorts_before env n a b); [done|].
  rewrite IH. apply Permutation_swap.
Qed.

Lemma insert_desc_descending n a l :
  descending l -> descending (insert_desc env n a l).
Proof.
  unfold descending. induction l as [|b l IH]; simpl; intros Hl.
  { repeat constructor. }
  apply StronglySorted_inv in Hl as [Hl Hb].
  destruct (sorts_before env n a b) eqn:Hab.
  - apply sorts_before_recent in Hab.
    constructor; [by constructor|].
    constructor; [done|].
    eapply Forall_impl; [exact Hb|]. simpl. intros; lia.
  - apply sorts_before_not in Hab.
    constructor; [by apply IH|].
    rewrite insert_desc_Permutation. by constructor.
Qed.

Lemma order_by_created_at_desc_Permutation n rows :
  order_by_created_at_desc env n rows ≡ₚ rows.
Proof.
  unfold order_by_created_at_desc.
  induction rows as [|a rows IH]; simpl; [done|].
  by rewrite insert_desc_Permutation, IH.
Qed.

Lemma order_by_created_at_desc_descending n rows :
  descending (order_by_created_at_desc env n rows).
Proof.
  unfold order_by_created_at_desc.
  induction rows as [|a rows IH]; simpl; [constructor|].
  by apply insert_desc_descending.
Qed.
End Ordering.

Lemma descending_take n l : descending l -> descending (take n l).
Proof.
  unfold descending. intros H. rewrite <-(take_drop n l) in H.
  by apply StronglySorted_app_1_l in H.
Qed.

Lemma descending_drop n l : descending l -> descending (drop n l).
Proof.
  unfold descending. intros H. rewrite <-(take_drop n l) in H.
  by apply StronglySorted_app_1_r in H.
Qed.

Lemma rows_in_window_descending limit offset l :
  descending l -> descending (rows_in_window limit offset l).
Proof.
  intros H. unfold rows_in_window.
  repeat case_match; auto using descending_take, descending_drop.
Qed.

Lemma rows_in_window_subseteq {A} limit offset (l : list A) :
  rows_in_window limit offset l ⊆ l.
Proof.
  unfold rows_in_window.
  repeat case_match; try done;
    repeat (etrans; [first [apply subseteq_take|apply subseteq_drop]|]); done.
Qed.

(** ** Cache keys *)

Lemma occurs_app c s1 s2 : occurs c (s1 +:+ s2) = occurs c s1 || occurs c s2.
Proof. induction s1 as [|a s1 IH]; simpl; [done|]. by rewrite IH, orb_assoc. Qed.

(** Two strings cut at the first occurrence of a separator agree on both
    sides of the cut. *)
Lemma append_separator_inj c s1 s2 r1 r2 :
  occurs c s1 = false -> occurs c s2 = false ->
  s1 +:+ String c r1 = s2 +:+ String c r2 -> s1 = s2 /\ r1 = r2.
Proof.
  revert s2. induction s1 as [|a s1 IH]; intros [|b s2]; simpl.
  - by intros _ _ [= ->].
  - intros _ [Hb _]%orb_false_elim [= -> _]. by rewrite Ascii.eqb_refl in Hb.
  - intros [Ha _]%orb_false_elim _ [= -> _]. by rewrite Ascii.eqb_refl in Ha.
  - intros [_ H1]%orb_false_elim [_ H2]%orb_false_elim [= -> E].
    destruct (IH s2 H1 H2 E) as [-> ->]. done.
Qed.

Lemma pretty_N_char_no_colon x : Ascii.eqb (pretty_N_char x) ":" = false.
Proof. unfold pretty_N_char. by repeat case_match. Qed.

Lemma pretty_N_go_no_colon x s :
  occurs ":" s = false -> occurs ":" (pretty_N_go x s) = false.
Proof.
  revert s. induction (N.lt_wf_0 x) as [x _ IH]; intros s Hs.
  assert (x = 0 \/ 0 < x)%N as [->|Hx] by lia.
  - by rewrite pretty_N_go_0.
  - rewrite pretty_N_go_step by done. apply IH.
    + by apply N.div_lt.
    + simpl. by rewrite pretty_N_char_no_colon.
Qed.

Lemma pretty_N_no_colon (x : N) : occurs ":" (pretty x) = false.
Proof.
  unfold pretty, pretty_N. case_decide; [done|]. by apply pretty_N_go_no_colon.
Qed.



(** * The ledger engine against its specification *)

Import Sample Runs.

(** ** Balances never go negative (C1) *)

(** C1, as the specification states it, fails on the code: a wallet that is
    created and then receives 5e16 dollars twice ends with the balance
    [5e18 + 5e18] wrapped around [int64], which is negative. The amount
    passes the positivity check and converts exactly on every platform. *)
Lemma balance_negative_after_overflow :
  let w := run (quiet Float64.arm64) overflowing_run (world_of empty_db) in
  balances_nonneg (db (world_of empty_db)) /\
  Wallet.Balance <$> wallets (db w) !! 1%N = Some (-8446744073709551616) /\
  ~ balances_nonneg (db w).
Proof.
  assert (E : Wallet.Balance <$>
      wallets (db (run (quiet Float64.arm64) overflowing_run (world_of empty_db))) !! 1%N
      = Some (-8446744073709551616)) by (vm_compute; reflexivity).
  split; [|split; [exact E|]].
  - intros k wal. simpl. by rewrite lookup_empty.
  - intros H. destruct (wallets _ !! 1%N) as [wal|] eqn:Hw; [|done].
    apply H in Hw. injection E as E. lia.
Qed.

(** C1, amended: from a store whose balances are non-negative [int64]
    values, no sequence of engine operations makes a balance negative as
    long as every amount the engine accepts has an [int64] value in minor
    units and no credit carries a balance past the [int64] maximum.
    CreateWallet starts a wallet at zero, Deposit adds the converted amount,
    which is then not negative, and Transfer debits the source only after
    checking that its balance is at least the amount. *)
Theorem balances_nonneg_while_credits_fit env ops w :
  balances_int64 (db w) -> balances_nonneg (db w) -> run_fits env ops w = true ->
  balances_nonneg (db (run env ops w)).
Proof.
  intros Hty Hnn Hfit. cut (ledger_ok (db (run env ops w))); [by intros []|].
  assert (Hok : ledger_ok (db w)) by done. clear Hty Hnn.
  revert w Hok Hfit. induction ops as [|op ops IH]; intros w Hok Hfit; [done|].
  simpl in Hfit. apply andb_prop in Hfit as [Hop Hrest].
  simpl. apply IH; [|done]. by apply apply_op_ledger_ok.
Qed.

Lemma balances_nonneg_while_credits_fit_witness :
  balances_int64 (db (world_of empty_db)) /\
  balances_nonneg (db (world_of empty_db)) /\
  run_fits (quiet Float64.amd64) salary_then_rent (world_of empty_db) = true /\
  balances_nonneg (db (run (quiet Float64.amd64) salary_then_rent (world_of empty_db))).
Proof.
  assert (H1 : balances_int64 (db (world_of empty_db))) by apply map_Forall_empty.
  assert (H2 : balances_nonneg (db (world_of empty_db))) by apply map_Forall_empty.
  assert (H3 : run_fits (quiet Float64.amd64) salary_then_rent (world_of empty_db) = true)
    by (vm_compute; reflexivity).
  split; [exact H1|]. split; [exact H2|]. split; [exact H3|].
  exact (balances_nonneg_while_credits_fit (quiet Float64.amd64) salary_then_rent
           (world_of empty_db) H1 H2 H3).
Defined.

(** ** Records carry the balance before and after (C2) *)

(** C2, as the specification states it, fails on the code: the record of
    the second deposit of 5e16 dollars has [balance_before = 5e18],
    [amount = 5e18] and [balance_after = -8446744073709551616]. *)
Lemma record_sum_wraps_on_overflow :
  let env := quiet Float64.arm64 in
  let w := run env [OpCreateWallet 1; OpDeposit 1 f_5e16 "first"] (world_of empty_db) in
  exists r,
    written w (apply_op env (OpDeposit 1 f_5e16 "second") w) = [r] /\
    Transaction.BalanceBefore r = 5000000000000000000 /\
    Transaction.Amount r = 5000000000000000000 /\
    Transaction.BalanceAfter r = -8446744073709551616 /\
    Transaction.BalanceAfter r <> Transaction.BalanceBefore r + Transaction.Amount r.
Proof.
  eexists. split; [vm_compute; reflexivity|]. by vm_compute.
Qed.

(** C2, amended: every record an operation appends to the transactions
    table belongs to a wallet of the store; its [balance_before] is the
    balance of that wallet when the operation started (the one the locking
    read returned), its [balance_after] is the balance of that wallet when
    the operation ended (the one the same storage transaction persisted),
    and [balance_after] is [balance_before + amount] wrapped around
    [int64]: the sum itself whenever the sum is an [int64]. *)
Theorem record_balance_after_is_wrapped_sum env op w r :
  r ∈ written w (apply_op env op w) ->
  exists row row',
    wallets (db w) !! Transaction.WalletID r = Some row /\
    wallets (db (apply_op env op w)) !! Transaction.WalletID r = Some row' /\
    Transaction.BalanceBefore r = Wallet.Balance row /\
    Transaction.BalanceAfter r = Wallet.Balance row' /\
    Transaction.BalanceAfter r
      = Int64.wrap (Transaction.BalanceBefore r + Transaction.Amount r) /\
    (Int64.in_range (Transaction.BalanceBefore r + Transaction.Amount r) ->
     Transaction.BalanceAfter r = Transaction.BalanceBefore r + Transaction.Amount r).
Proof.
  destruct op as [u|id|id amount desc|a b amount desc|id l o]; simpl.
  - unfold written. rewrite CreateWallet_transactions, drop_all. by intros ?%elem_of_nil.
  - unfold written. rewrite GetWallet_db, drop_all. by intros ?%elem_of_nil.
  - pose proof (Deposit_cases env id amount desc w) as H. simpl in H.
    destruct (Deposit env id amount desc w) as [[r0|e] w']; simpl.
    2:{ rewrite written_none by done. by intros ?%elem_of_nil. }
    destruct H as (_ & row & now & Hrow & Hr & _ & _ & Hw & Ht).
    rewrite (written_app _ _ _ Ht). intros ->%list_elem_of_singleton.
    rewrite Hr. simpl. eexists row, _. split; [done|]. split.
    { rewrite Hw, lookup_alter_eq, Hrow. reflexivity. }
    repeat split; try done. apply sum_exact.
  - pose proof (Transfer_cases env a b amount desc w) as H. simpl in H.
    destruct (Transfer env a b amount desc w) as [[r0|e] w']; simpl.
    2:{ destruct H as [_ H]. rewrite written_none by done. by intros ?%elem_of_nil. }
    destruct H as (_ & _ & Hab & ra & rb & na & nb & credit & Hra & Hrb & _
                   & Hr & Hc & _ & _ & _ & _ & Hw & Ht & _).
    rewrite (written_app _ _ _ Ht).
    intros [->| ->%list_elem_of_singleton]%elem_of_cons.
    + rewrite Hr. simpl. eexists ra, _. split; [done|]. split.
      { rewrite Hw, lookup_alter_ne, lookup_alter_eq, Hra by done. reflexivity. }
      fold (Int64.add (Wallet.Balance ra)
              (Int64.neg (DollarsToMinorUnits (arch env) amount))).
      rewrite Int64Facts.add_neg. repeat split; try done.
      rewrite <-Int64Facts.add_neg. apply sum_exact.
    + rewrite Hc. simpl. eexists rb, _. split; [done|]. split.
      { rewrite Hw, lookup_alter_eq, lookup_alter_ne, Hrb by done. reflexivity. }
      repeat split; try done. apply sum_exact.
  - unfold written. rewrite GetTransactions_db, drop_all. by intros ?%elem_of_nil.
Qed.

(** Example 1 of the specification: a deposit of 200.50 on an empty wallet. *)
Lemma record_balance_after_is_wrapped_sum_witness :
  let env := quiet Float64.amd64 in
  let w := world_of (two_wallets 0 5025) in
  let op := OpDeposit 1 (Float64.of_decimal 20050 2) "salary" in
  salary_record ∈ written w (apply_op env op w) /\
  Transaction.BalanceBefore salary_record = 0 /\
  Transaction.BalanceAfter salary_record = 20050 /\
  Transaction.BalanceAfter salary_record
    = Transaction.BalanceBefore salary_record + Transaction.Amount salary_record.
Proof.
  intros env w op.
  assert (Hin : salary_record ∈ written w (apply_op env op w)).
  { vm_compute. apply list_elem_of_here. }
  split; [exact Hin|].
  destruct (record_balance_after_is_wrapped_sum env op w _ Hin)
    as (row & row' & _ & _ & _ & _ & _ & Hexact).
  split; [reflexivity|]. split; [reflexivity|].
  apply Hexact. vm_compute. split; discriminate.
Defined.

(** ** A transfer writes a debit and a credit (C3) *)

(** C3, as the specification states it, fails on the code where Go compiles
    [int64(x)] to the amd64 conversion: a transfer of 1e300 dollars between
    two existing wallets passes both checks (the amount is positive, and no
    balance is below the converted amount, the [int64] minimum), succeeds,
    and writes two records whose amounts are both the [int64] minimum: they
    do not sum to zero. *)
Lemma Transfer_amounts_do_not_cancel_on_amd64 :
  let env := quiet Float64.amd64 in
  let w := world_of (two_wallets 10 20) in
  exists debit credit w',
    Transfer env 1 2 f_1e300 "" w = (Ok debit, w') /\
    written w w' = [debit; credit] /\
    Transaction.Amount debit = Int64.min_int /\
    Transaction.Amount credit = Int64.min_int /\
    Transaction.Amount debit + Transaction.Amount credit <> 0.
Proof.
  eexists _, _, _. split; [vm_compute; reflexivity|].
  split; [vm_compute; reflexivity|]. by vm_compute.
Qed.

(** C3, amended: every successful Transfer appends exactly two records, the
    one it returns, on the source wallet, then one on the destination
    wallet; the destination record carries the amount in minor units and
    the source record its [int64] negation, so the two amounts cancel in
    [int64] arithmetic, and sum to zero as integers whenever the amount in
    minor units is not the [int64] minimum; both records carry the pair
    (from, to), and their transaction identifiers differ from each other
    and from every identifier already in the table. *)
Theorem Transfer_writes_debit_and_credit env a b amount desc w debit w' :
  Transfer env a b amount desc w = (Ok debit, w') ->
  exists credit,
    transactions (db w') = transactions (db w) ++ [debit; credit] /\
    Transaction.WalletID debit = a /\ Transaction.WalletID credit = b /\
    Transaction.Amount credit = DollarsToMinorUnits (arch env) amount /\
    Transaction.Amount debit = Int64.neg (Transaction.Amount credit) /\
    Int64.add (Transaction.Amount debit) (Transaction.Amount credit) = 0 /\
    (Transaction.Amount credit <> Int64.min_int ->
     Transaction.Amount debit + Transaction.Amount credit = 0) /\
    Transaction.FromWalletID debit = Some a /\ Transaction.ToWalletID debit = Some b /\
    Transaction.FromWalletID credit = Some a /\ Transaction.ToWalletID credit = Some b /\
    Transaction.TransactionUUID debit <> Transaction.TransactionUUID credit /\
    uuid_taken (Transaction.TransactionUUID debit) (transactions (db w)) = false /\
    uuid_taken (Transaction.TransactionUUID credit) (transactions (db w)) = false.
Proof.
  intros E. pose proof (Transfer_cases env a b amount desc w) as H. simpl in H.
  rewrite E in H.
  destruct H as (_ & _ & Hab & ra & rb & na & nb & credit & Hra & Hrb & _
                 & Hr & Hc & Hne & Hu1 & Hu2 & _ & _ & Ht & _).
  assert (Hamt : Transaction.Amount credit = DollarsToMinorUnits (arch env) amount)
    by (by rewrite Hc).
  assert (Hneg : Transaction.Amount debit = Int64.neg (Transaction.Amount credit))
    by (by rewrite Hr, Hc).
  exists credit. repeat split; try done; try (by rewrite Hr); try (by rewrite Hc).
  - rewrite Hneg. apply neg_add_cancel.
  - intros Hmin. rewrite Hneg, neg_exact; [lia| |done].
    rewrite Hamt. apply DollarsToMinorUnits_in_range.
Qed.

(** Example 2 of the specification: 75.25 from a wallet holding 200.50 to
    a wallet holding 50.25. *)
Lemma Transfer_writes_debit_and_credit_witness :
  let env := quiet Float64.amd64 in
  let w := world_of (two_wallets 20050 5025) in
  let amount := Float64.of_decimal 7525 2 in
  exists debit credit,
    Transfer env 1 2 amount "rent" w
      = (Ok debit, snd (Transfer env 1 2 amount "rent" w)) /\
    written w (snd (Transfer env 1 2 amount "rent" w)) = [debit; credit] /\
    Transaction.Amount debit = -7525 /\ Transaction.Amount credit = 7525 /\
    Transaction.Amount debit + Transaction.Amount credit = 0.
Proof.
  intros env w amount.
  assert (E : Transfer env 1 2 amount "rent" w
              = (Ok (Transaction.mk 1 1 TransactionTypeTransfer (-7525) 20050 12525
                       (Some 1%N) (Some 2%N) "uuid-7" "rent" 9000000),
                 snd (Transfer env 1 2 amount "rent" w)))
    by (vm_compute; reflexivity).
  destruct (Transfer_writes_debit_and_credit env 1 2 amount "rent" w _ _ E)
    as (credit & Ht & _ & _ & Hamt & _ & _ & Hsum & _).
  exists (Transaction.mk 1 1 TransactionTypeTransfer (-7525) 20050 12525
            (Some 1%N) (Some 2%N) "uuid-7" "rent" 9000000), credit.
  assert (Hc : Transaction.Amount credit = 7525) by (rewrite Hamt; vm_compute; reflexivity).
  split; [exact E|]. split; [exact (written_app _ _ _ Ht)|].
  split; [reflexivity|]. split; [exact Hc|].
  apply Hsum. rewrite Hc. discriminate.
Defined.

(** ** Insufficient funds (C4) *)

(** C4, as the specification states it, fails on the code in two ways.
    - Where Go compiles [int64(x)] to the amd64 conversion, an amount
      whose minor units do not fit [int64] converts to the [int64]
      minimum, which no balance is below: a transfer of 1e300 dollars from
      a wallet holding 10 cents is not refused. It succeeds, writes two
      records and leaves both balances negative.
    - A transfer from a wallet that holds less than the amount is refused
      with another error when the call does not get as far as the balance
      check: to a wallet that does not exist it fails with "destination
      wallet not found". *)
Lemma Transfer_beyond_int64_is_not_refused :
  (let env := quiet Float64.amd64 in
   let w := world_of (two_wallets 10 20) in
   exists z debit w',
     Float64.truncate (Float64.mul f_1e300 (Float64.of_Z 100)) = Some z /\
     wallets (db w) !! 1%N = Some (wallet_of 1 10) /\
     Wallet.Balance (wallet_of 1 10) < z /\
     Transfer env 1 2 f_1e300 "" w = (Ok debit, w') /\
     length (written w w') = 2%nat /\
     Wallet.Balance <$> wallets (db w') !! 1%N = Some (10 - 2 ^ 63) /\
     Wallet.Balance <$> wallets (db w') !! 2%N = Some (20 - 2 ^ 63))
  /\ (let env := quiet Float64.amd64 in
      let w := world_of (two_wallets 12525 12550) in
      Wallet.Balance (wallet_of 1 12525)
        < DollarsToMinorUnits (arch env) (Float64.of_Z 1000) /\
      fst (Transfer env 1 999 (Float64.of_Z 1000) "" w)
      = Err (errors_New "destination wallet not found")).
Proof.
  split.
  - eexists _, _, _. split; [vm_compute; reflexivity|].
    split; [reflexivity|]. split; [vm_compute; reflexivity|].
    split; [vm_compute; reflexivity|].
    split; [vm_compute; reflexivity|].
    split; vm_compute; reflexivity.
  - split; vm_compute; reflexivity.
Qed.

(** Whatever the conversion yields, a source that holds less than the
    converted amount is refused. *)
Lemma Transfer_refused_below_converted_amount env a b amount desc w ra :
  wallets (db w) !! a = Some ra ->
  Wallet.Balance ra < DollarsToMinorUnits (arch env) amount ->
  exists e w',
    Transfer env a b amount desc w = (Err e, w') /\
    same_rows (db w) (db w') /\
    (Float64.leb amount Float64.zero = false -> a <> b ->
     is_Some (wallets (db w) !! b) ->
     storage_fault env (tick w) = None ->
     storage_fault env (S (tick w)) = None ->
     storage_fault env (S (S (tick w))) = None ->
     e = errors_New "insufficient balance").
Proof.
  intros Hra Hlt.
  pose proof (Transfer_cases env a b amount desc w) as H. simpl in H.
  destruct (Transfer env a b amount desc w) as [[r|e] w'] eqn:E.
  { destruct H as (_ & _ & _ & ra' & rb & na & nb & credit & Hra' & _ & Hge & _).
    rewrite Hra in Hra'. injection Hra' as <-. apply Z.ltb_ge in Hge. lia. }
  exists e, w'. split; [done|]. destruct H as [_ H]. split; [done|].
  intros Hpos Hab [rb Hrb] F0 F1 F2.
  apply Z.ltb_lt in Hlt. apply N.eqb_neq in Hab.
  unfold Transfer in E. rewrite Hpos, Hab in E.
  unfold Transfer_tx, db_Transaction in E. unfold_gorm.
  simpl in E. rewrite F0 in E. simpl in E. rewrite F1, Hra in E. simpl in E.
  rewrite F2, Hrb in E. simpl in E. rewrite Hlt in E. by simplify_eq/=.
Qed.

(** C4, amended: a Transfer of an amount whose minor units (the integer
    part of the amount times 100, [z]) fit [int64], from a source wallet
    that holds less than [z], fails and leaves every row of the store as
    it was: no balance changes and no record is written. The error is
    "insufficient balance" whenever the call gets as far as the check: the
    amount is positive, the two wallets differ, the destination exists,
    and the store answers the BEGIN and the two locking reads. *)
Theorem Transfer_insufficient_funds env a b amount desc w ra z :
  wallets (db w) !! a = Some ra ->
  Float64.truncate (Float64.mul amount (Float64.of_Z 100)) = Some z ->
  Int64.in_range z ->
  Wallet.Balance ra < z ->
  exists e w',
    Transfer env a b amount desc w = (Err e, w') /\
    same_rows (db w) (db w') /\
    (Float64.leb amount Float64.zero = false -> a <> b ->
     is_Some (wallets (db w) !! b) ->
     storage_fault env (tick w) = None ->
     storage_fault env (S (tick w)) = None ->
     storage_fault env (S (S (tick w))) = None ->
     e = errors_New "insufficient balance").
Proof.
  intros Hra Hz Hrange Hlt.
  apply (Transfer_refused_below_converted_amount env a b amount desc w ra Hra).
  unfold DollarsToMinorUnits.
  rewrite (Float64Facts.to_int64_representable _ _ z Hz); [done|].
  unfold Float64.representable. rewrite Hz.
  by apply Int64Facts.in_rangeb_spec.
Qed.

(** Example 3 of the specification: 1000.00 from a wallet holding 125.25. *)
Lemma Transfer_insufficient_funds_witness :
  let env := quiet Float64.amd64 in
  let w := world_of (two_wallets 12525 12550) in
  let amount := Float64.of_Z 1000 in
  wallets (db w) !! 1%N = Some (wallet_of 1 12525) /\
  Float64.truncate (Float64.mul amount (Float64.of_Z 100)) = Some 100000 /\
  Int64.in_range 100000 /\
  Wallet.Balance (wallet_of 1 12525) < 100000 /\
  exists w',
    Transfer env 1 2 amount "" w = (Err (errors_New "insufficient balance"), w') /\
    same_rows (db w) (db w').
Proof.
  intros env w amount.
  assert (H1 : wallets (db w) !! 1%N = Some (wallet_of 1 12525)) by reflexivity.
  assert (H2 : Float64.truncate (Float64.mul amount (Float64.of_Z 100)) = Some 100000)
    by (vm_compute; reflexivity).
  assert (H3 : Int64.in_range 100000) by (vm_compute; split; discriminate).
  assert (H4 : Wallet.Balance (wallet_of 1 12525) < 100000) by (vm_compute; reflexivity).
  split; [exact H1|]. split; [exact H2|]. split; [exact H3|]. split; [exact H4|].
  destruct (Transfer_insufficient_funds env 1 2 amount "" w _ _ H1 H2 H3 H4)
    as (e & w' & E & Hrows & Hkind).
  exists w'. split; [|exact Hrows].
  rewrite E. f_equal. f_equal. apply Hkind; try reflexivity.
  - discriminate.
  - eexists. reflexivity.
Defined.

(** ** The order of the two row locks (C5) *)

(** C5, as the specification states it, fails on the code: between the
    same two wallets, a transfer from 1 to 2 locks row 1 and then row 2,
    and a transfer from 2 to 1 locks row 2 and then row 1. *)
Lemma Transfer_lock_order_follows_arguments :
  let env := quiet Float64.amd64 in
  let w := world_of (two_wallets 1000 1000) in
  locks_of (trace (snd (Transfer env 1 2 (Float64.of_Z 5) "" w))) = [1%N; 2%N] /\
  locks_of (trace (snd (Transfer env 2 1 (Float64.of_Z 5) "" w))) = [2%N; 1%N].
Proof. split; vm_compute; reflexivity. Qed.

(** C5, amended: Transfer takes its row locks in the order of its
    arguments, the source wallet first and the destination wallet second.
    The locks a call takes are none, the source only, or the source then
    the destination; and a call that succeeds has taken both, in that
    order. *)
Theorem Transfer_locks_source_then_destination env a b amount desc w :
  exists taken,
    locks_of (trace (snd (Transfer env a b amount desc w)))
      = locks_of (trace w) ++ taken /\
    (taken = [] \/ taken = [a] \/ taken = [a; b]) /\
    (forall r, fst (Transfer env a b amount desc w) = Ok r -> taken = [a; b]).
Proof.
  pose proof (Transfer_cases env a b amount desc w) as H. simpl in H.
  destruct (Transfer env a b amount desc w) as [[r|e] w']; simpl.
  - destruct H as (_ & _ & _ & ra & rb & na & nb & credit & H).
    do 11 destruct H as [_ H]. exists [a; b]. rewrite H. auto.
  - destruct H as [[H|[H|H]] _]; rewrite H.
    + exists []. rewrite app_nil_r. split; [done|]. split; [auto|done].
    + exists [a]. split; [done|]. split; [auto|done].
    + exists [a; b]. split; [done|]. split; [auto|done].
Qed.

(** ** Deposit of a non-positive amount (C6) *)

(** C6: a Deposit of an amount that is zero or negative returns the error
    "amount must be positive" and leaves the state exactly as it was: no
    statement is sent to the store or to the cache, no lock is taken, and
    nothing outside is consulted. *)
Theorem Deposit_rejects_nonpositive_amount env id amount desc w :
  Float64.leb amount Float64.zero = true ->
  Deposit env id amount desc w = (Err (errors_New "amount must be positive"), w).
Proof. intros H. unfold Deposit. by rewrite H. Qed.

(** Example 4 of the specification: Deposit(wallet=1, amount=0). *)
Lemma Deposit_rejects_nonpositive_amount_witness :
  Float64.leb (Float64.of_Z 0) Float64.zero = true /\
  Deposit (quiet Float64.amd64) 1 (Float64.of_Z 0) "" (world_of (two_wallets 10 20))
    = (Err (errors_New "amount must be positive"), world_of (two_wallets 10 20)).
Proof.
  assert (H : Float64.leb (Float64.of_Z 0) Float64.zero = true) by reflexivity.
  split; [exact H|].
  exact (Deposit_rejects_nonpositive_amount (quiet Float64.amd64) 1 (Float64.of_Z 0) ""
           (world_of (two_wallets 10 20)) H).
Defined.

(** ** Failures of Deposit (C7) *)

(** C7: for a Deposit of a positive amount,
    - when the wallet is not in the store and the store answers the BEGIN
      and the locking read, the call returns [gorm.ErrRecordNotFound], an
      error distinct from every fault of the store;
    - when the store answers one of the statements of the call with a
      fault, the call returns that very fault;
    - and whenever the call returns an error, the rows of the store are the
      rows it started from: no balance has changed, no record persists. *)
Theorem Deposit_failure_modes env id amount desc w :
  Float64.leb amount Float64.zero = false ->
  exists res w',
    Deposit env id amount desc w = (res, w') /\
    (wallets (db w) !! id = None ->
     storage_fault env (tick w) = None -> storage_fault env (S (tick w)) = None ->
     res = Err ErrRecordNotFound) /\
    (forall k msg,
       first_fault env w Deposit_statements k msg ->
       ((1 < k)%nat -> is_Some (wallets (db w) !! id)) ->
       ((6 < k)%nat ->
        uuid_taken (uuid_New env (4 + tick w)%nat) (transactions (db w)) = false) ->
       res = Err (ErrDriver msg)) /\
    (forall e, res = Err e -> same_rows (db w) (db w')).
Proof.
  intros Hpos.
  destruct (Deposit env id amount desc w) as [res w'] eqn:E.
  exists res, w'. split; [done|].
  pose proof (Deposit_cases env id amount desc w) as Hcases. simpl in Hcases.
  rewrite E in Hcases.
  unfold Deposit in E. rewrite Hpos in E.
  unfold Deposit_tx, db_Transaction in E. unfold_gorm. simpl in E.
  split; [|split].
  - intros Hnone F0 F1. rewrite F0 in E. simpl in E. rewrite F1, Hnone in E.
    by simplify_eq/=.
  - intros k msg (Hk & Hfault & Hbefore) Hrow Huuid.
    assert (Hb : forall j, j ∈ Deposit_statements -> (j < k)%nat ->
                   storage_fault env (j + tick w)%nat = None) by exact Hbefore.
    unfold Deposit_statements in Hk, Hb.
    repeat (apply elem_of_cons in Hk as [->|Hk]); [..|by apply elem_of_nil in Hk].
    + simpl in Hfault. rewrite Hfault in E. by simplify_eq/=.
    + pose proof (Hb 0%nat ltac:(set_solver) ltac:(lia)) as F0.
      simpl in *. rewrite F0 in E. simpl in E. rewrite Hfault in E. by simplify_eq/=.
    + pose proof (Hb 0%nat ltac:(set_solver) ltac:(lia)) as F0.
      pose proof (Hb 1%nat ltac:(set_solver) ltac:(lia)) as F1.
      destruct Hrow as [row Hrow]; [lia|].
      simpl in *. rewrite F0 in E. simpl in E. rewrite F1, Hrow in E. simpl in E.
      rewrite Hfault in E. by simplify_eq/=.
    + pose proof (Hb 0%nat ltac:(set_solver) ltac:(lia)) as F0.
      pose proof (Hb 1%nat ltac:(set_solver) ltac:(lia)) as F1.
      pose proof (Hb 3%nat ltac:(set_solver) ltac:(lia)) as F3.
      destruct Hrow as [row Hrow]; [lia|].
      simpl in *. rewrite F0 in E. simpl in E. rewrite F1, Hrow in E. simpl in E.
      rewrite F3 in E. simpl in E. rewrite Hfault in E. by simplify_eq/=.
    + pose proof (Hb 0%nat ltac:(set_solver) ltac:(lia)) as F0.
      pose proof (Hb 1%nat ltac:(set_solver) ltac:(lia)) as F1.
      pose proof (Hb 3%nat ltac:(set_solver) ltac:(lia)) as F3.
      pose proof (Hb 6%nat ltac:(set_solver) ltac:(lia)) as F6.
      destruct Hrow as [row Hrow]; [lia|]. specialize (Huuid ltac:(lia)).
      simpl in *. rewrite F0 in E. simpl in E. rewrite F1, Hrow in E. simpl in E.
      rewrite F3 in E. simpl in E. rewrite F6 in E. simpl in E.
      rewrite Huuid in E. simpl in E. rewrite Hfault in E. by simplify_eq/=.
  - intros e ->. done.
Qed.

(** A deposit of 10.00 on the wallet 999999, which does not exist. *)
Lemma Deposit_failure_modes_witness :
  let env := quiet Float64.amd64 in
  let w := world_of (two_wallets 10 20) in
  Float64.leb (Float64.of_Z 10) Float64.zero = false /\
  exists w',
    Deposit env 999999 (Float64.of_Z 10) "" w = (Err ErrRecordNotFound, w') /\
    same_rows (db w) (db w').
Proof.
  intros env w.
  assert (Hpos : Float64.leb (Float64.of_Z 10) Float64.zero = false) by reflexivity.
  split; [exact Hpos|].
  destruct (Deposit_failure_modes env 999999 (Float64.of_Z 10) "" w Hpos)
    as (res & w' & E & Hmissing & _ & Hrows).
  assert (Hres : res = Err ErrRecordNotFound).
  { apply Hmissing; reflexivity. }
  exists w'. split.
  - rewrite E, Hres. reflexivity.
  - exact (Hrows _ Hres).
Defined.

(** ** When the cache has nothing to offer *)

(** The cache yields no usable value for a key exactly when it faults,
    holds no entry for the key, holds an expired one, or holds a live one
    whose bytes do not deserialize. *)
Lemma cache_unusable {A : Type} env w key (decode : string -> option A) :
  cached_value env w key ≫= decode = None <->
  cache_fault env (tick w) = true
  \/ cache w !! key = None
  \/ exists entry,
       cache w !! key = Some entry /\
       (expires_at entry <= time_Now env (tick w) \/ decode (value entry) = None).
Proof.
  unfold cached_value. destruct (cache_fault env (tick w)); [naive_solver|].
  destruct (cache w !! key) as [entry|]; [|naive_solver].
  destruct (Z.ltb_spec (time_Now env (tick w)) (expires_at entry)); simpl.
  - split.
    + intros Hd. right. right. exists entry. auto.
    + intros [?|[?|(e & [= <-] & [?|?])]]; try done. lia.
  - split; [|done]. intros _. right. right. exists entry. auto.
Qed.

(** ** GetWallet reads through the cache (C8) *)

(** C8: GetWallet first asks the cache for the key of the wallet.
    - When the cache answers with a value that deserializes, that wallet is
      returned as it is and no statement is sent to the store.
    - Otherwise (no entry, an expired entry, a fault of the cache, or a
      value that does not deserialize) the wallet is read from the store;
      when it is found, it is returned and written to the cache under the
      same key with a time to live of five minutes (the entry is there
      unless the cache faults on the write); when the store has no such
      wallet, the call fails with [gorm.ErrRecordNotFound] and the cache is
      left as it was. *)
Theorem GetWallet_cache_aside env id w :
  let key := wallet_cache_key id in
  let w1 := advance [RedisGet key] w in
  (forall s cached,
     cached_value env w key = Some s ->
     json_Unmarshal_wallet env s = Some cached ->
     GetWallet env id w = (Ok cached, w1))
  /\ (cached_value env w key ≫= json_Unmarshal_wallet env = None ->
      (forall row,
         wallets (db w) !! id = Some row ->
         storage_fault env (S (tick w)) = None ->
         storage_fault env (S (S (tick w))) = None ->
         let wallet :=
           Wallet.with_User (Wallet.with_ID row id)
             (default User.zero (users (db w) !! Wallet.UserID row)) in
         let json := json_Marshal_wallet env wallet in
         exists w',
           GetWallet env id w = (Ok wallet, w') /\
           db w' = db w /\
           trace w' = trace w ++ [RedisGet key; SqlSelectWallet id;
                                  SqlSelectUser (Wallet.UserID row);
                                  RedisSet key json (5 * Minute)] /\
           (cache_fault env (S (S (S (tick w)))) = false ->
            cache w' !! key
              = Some (mkEntry json
                        (time_Now env (S (S (S (tick w)))) + 5 * Minute))))
      /\ (wallets (db w) !! id = None ->
          storage_fault env (S (tick w)) = None ->
          exists w', GetWallet env id w = (Err ErrRecordNotFound, w')
                     /\ db w' = db w /\ cache w' = cache w)).
Proof.
  intros key w1. split; [|intros Hmiss; split].
  - intros s cached Hs Hc. unfold GetWallet, redis_Get, mbind, M_bind.
    fold key. rewrite Hs. simpl. by rewrite Hc.
  - intros row Hrow F1 F2 wallet json.
    unfold GetWallet, redis_Get, mbind at 1, M_bind at 1. fold key.
    rewrite Hmiss. unfold walletRepo_GetByID, redis_Set. unfold_gorm. simpl.
    rewrite F1. simpl. rewrite Hrow. simpl. rewrite F2. simpl.
    fold wallet json.
    destruct (cache_fault env (S (S (S (tick w))))) eqn:Hc;
      eexists; (split; [reflexivity|]); simpl;
      repeat split; try done; rewrite <-?app_assoc; try done.
    intros _. apply lookup_insert_eq.
  - intros Hnone F1.
    unfold GetWallet, redis_Get, mbind at 1, M_bind at 1. fold key.
    rewrite Hmiss. unfold walletRepo_GetByID. unfold_gorm. simpl.
    rewrite F1. simpl. rewrite Hnone. by eexists.
Qed.

(** A live entry for wallet 1 is served as cached, whatever the store
    holds; wallet 2, not cached, is read from the store and cached; and
    Example 5 of the specification, GetWallet(999999). *)
Lemma GetWallet_cache_aside_witness :
  let env := quiet Float64.amd64 in
  GetWallet env 1 cached_world
    = (Ok (Wallet.mk 0 0 0 0 0 User.zero), advance [RedisGet "wallet:1"] cached_world)
  /\ (exists w', GetWallet env 2 cached_world
                   = (Ok (Wallet.with_User (wallet_of 2 20) alice), w')
                 /\ cache w' !! "wallet:2"
                    = Some (mkEntry "wallet#2" (3000000 + 5 * Minute)))
  /\ (exists w', GetWallet env 999999 cached_world = (Err ErrRecordNotFound, w')).
Proof.
  intros env.
  destruct (GetWallet_cache_aside env 1 cached_world) as [Hhit _].
  destruct (GetWallet_cache_aside env 2 cached_world) as [_ Hmiss2].
  destruct (GetWallet_cache_aside env 999999 cached_world) as [_ Hmiss9].
  split; [|split].
  - apply (Hhit "{}"); reflexivity.
  - destruct (Hmiss2 eq_refl) as [Hfound _].
    destruct (Hfound (wallet_of 2 20) eq_refl eq_refl eq_refl)
      as (w' & E & _ & _ & Hcache).
    exists w'. split; [exact E|]. exact (Hcache eq_refl).
  - destruct (Hmiss9 eq_refl) as [_ Habsent].
    destruct (Habsent eq_refl eq_refl) as (w' & E & _).
    exists w'. exact E.
Defined.

(** ** The order of a history page and its cache key (C9) *)




(** ** Deposits below one minor unit (C10) *)

(** C10: Deposit checks that the dollar amount is positive before it
    converts it to minor units, and the conversion discards the fraction.
    So for a positive amount whose hundredfold truncates to zero, a Deposit
    on an existing wallet that the store carries out succeeds, appends one
    record with amount 0 whose balance before and balance after are both
    the balance of the wallet, and leaves that balance as it was. The
    amount 0.004 is one such amount. *)
Theorem Deposit_below_one_minor_unit env id amount desc w row :
  Float64.leb amount Float64.zero = false ->
  Float64.truncate (Float64.mul amount (Float64.of_Z 100)) = Some 0 ->
  wallets (db w) !! id = Some row ->
  Int64.in_range (Wallet.Balance row) ->
  store_answers env w Deposit_statements ->
  uuid_taken (uuid_New env (4 + tick w)%nat) (transactions (db w)) = false ->
  exists r w',
    Deposit env id amount desc w = (Ok r, w') /\
    Transaction.Amount r = 0 /\
    Transaction.BalanceBefore r = Wallet.Balance row /\
    Transaction.BalanceAfter r = Wallet.Balance row /\
    transactions (db w') = transactions (db w) ++ [r] /\
    Wallet.Balance <$> wallets (db w') !! id = Some (Wallet.Balance row).
Proof.
  intros Hpos Hzero Hrow Hrange Hstore Huuid.
  assert (Hamt : DollarsToMinorUnits (arch env) amount = 0).
  { unfold DollarsToMinorUnits, Float64.to_int64. by rewrite Hzero. }
  assert (Hadd : Int64.add (Wallet.Balance row) 0 = Wallet.Balance row).
  { unfold Int64.add. rewrite Z.add_0_r. by apply Int64Facts.wrap_id. }
  destruct (Deposit_succeeds env id amount desc w row Hpos Hrow Hstore Huuid)
    as (r & w' & E).
  exists r, w'. split; [done|].
  pose proof (Deposit_cases env id amount desc w) as Hcases. simpl in Hcases.
  rewrite E, Hamt in Hcases.
  destruct Hcases as (_ & row' & now & Hrow' & Hr & _ & _ & Hw & Ht).
  rewrite Hrow in Hrow'. injection Hrow' as <-. rewrite Hadd in Hr, Hw.
  repeat split; try done; try (by rewrite Hr).
  rewrite Hw, lookup_alter_eq, Hrow. done.
Qed.

(** A deposit of 0.004 dollars on a wallet holding 10 cents. *)
Lemma Deposit_below_one_minor_unit_witness :
  let env := quiet Float64.amd64 in
  let w := world_of (two_wallets 10 20) in
  Float64.leb f_0_004 Float64.zero = false /\
  Float64.truncate (Float64.mul f_0_004 (Float64.of_Z 100)) = Some 0 /\
  wallets (db w) !! 1%N = Some (wallet_of 1 10) /\
  Int64.in_range (Wallet.Balance (wallet_of 1 10)) /\
  store_answers env w Deposit_statements /\
  uuid_taken (uuid_New env (4 + tick w)%nat) (transactions (db w)) = false /\
  exists r w',
    Deposit env 1 f_0_004 "dust" w = (Ok r, w') /\
    Transaction.Amount r = 0 /\
    Transaction.BalanceBefore r = 10 /\ Transaction.BalanceAfter r = 10 /\
    Wallet.Balance <$> wallets (db w') !! 1%N = Some 10.
Proof.
  intros env w.
  assert (H1 : Float64.leb f_0_004 Float64.zero = false) by reflexivity.
  assert (H2 : Float64.truncate (Float64.mul f_0_004 (Float64.of_Z 100)) = Some 0)
    by (vm_compute; reflexivity).
  assert (H3 : wallets (db w) !! 1%N = Some (wallet_of 1 10)) by reflexivity.
  assert (H4 : Int64.in_range (Wallet.Balance (wallet_of 1 10)))
    by (vm_compute; split; discriminate).
  assert (H5 : store_answers env w Deposit_statements) by (intros k _; reflexivity).
  assert (H6 : uuid_taken (uuid_New env (4 + tick w)%nat) (transactions (db w)) = false)
    by reflexivity.
  repeat (split; [assumption|]).
  destruct (Deposit_below_one_minor_unit env 1 f_0_004 "dust" w _ H1 H2 H3 H4 H5 H6)
    as (r & w' & E & Ha & Hb & Hc & _ & Hw).
  exists r, w'. repeat split; assumption.
Defined.

(** * More of the service: effects, listings, endpoints *)

(** ** Observations a computation leaves alone *)

Section Preserves.
Variable env : Env.
Context {X : Type} (f : World -> X).
Hypothesis f_timeless : timeless f.

Lemma preserves_ret {A} (a : A) : preserves f (mret a : M A).
Proof. by intros w. Qed.

Lemma preserves_fail {A} e : preserves f (fail e : M A).
Proof. by intros w. Qed.

Lemma preserves_bind {A B} (m : M A) (k : A -> M B) :
  preserves f m -> (forall a, preserves f (k a)) -> preserves f (m ≫= k).
Proof.
  intros Hm Hk w. unfold mbind, M_bind. specialize (Hm w).
  destruct (m w) as [[a|e] w1]; simpl in *; [|done].
  by rewrite (Hk a w1).
Qed.

Lemma preserves_sql s : preserves f (sql env s).
Proof. intros w. unfold sql. case_match; apply f_timeless. Qed.

Lemma preserves_time : preserves f (time_Now_ env).
Proof. intros w. apply f_timeless. Qed.

Lemma preserves_uuid : preserves f (uuid_New_String env).
Proof. intros w. apply f_timeless. Qed.

Lemma preserves_read_db : preserves f read_db.
Proof. by intros w. Qed.

Lemma preserves_First id : preserves f (tx_First_for_update env id).
Proof. intros w. unfold tx_First_for_update. repeat case_match; apply f_timeless. Qed.

Lemma preserves_lock id msg : preserves f (lock_wallet env id msg).
Proof.
  intros w. unfold lock_wallet. pose proof (preserves_First id w) as H.
  destruct (tx_First_for_update env id w) as [[r|e] w1]; simpl in *; [done|].
  by case_match.
Qed.

(** What the observation must not see for writes to the store to leave it
    alone: the rows, or else the counters. *)
Hypothesis f_update : forall g w,
  (forall d, wallets_auto_increment (g d) = wallets_auto_increment d) ->
  f (set_db (g (db w)) w) = f w.

Lemma preserves_update_db g :
  (forall d, wallets_auto_increment (g d) = wallets_auto_increment d) ->
  preserves f (update_db g).
Proof. intros Hg w. by apply f_update. Qed.

Lemma preserves_Update wallet nb : preserves f (tx_Update_balance env wallet nb).
Proof.
  unfold tx_Update_balance.
  apply preserves_bind; [apply preserves_time|]. intros now.
  apply preserves_bind; [apply preserves_sql|]. intros _.
  by apply preserves_update_db.
Qed.

Lemma preserves_Create r : preserves f (tx_Create_transaction env r).
Proof.
  unfold tx_Create_transaction.
  apply preserves_bind; [apply preserves_time|]. intros now.
  apply preserves_bind; [apply preserves_sql|]. intros _.
  apply preserves_bind; [apply preserves_read_db|]. intros d.
  case_match; [apply preserves_fail|].
  apply preserves_bind; [by apply preserves_update_db|]. intros _.
  apply preserves_ret.
Qed.

Hypothesis f_rollback : forall w0 w,
  f (set_db (rolled_back (db w0) (db w)) w) = f w.

Lemma preserves_db_Transaction {A} (fc : M A) :
  preserves f fc -> preserves f (db_Transaction env fc).
Proof.
  intros Hfc w. unfold db_Transaction, sql.
  destruct (storage_fault env (tick w)); [apply f_timeless|].
  specialize (Hfc (advance [SqlBegin] w)). rewrite f_timeless in Hfc.
  destruct (fc _) as [[a|e] w2]; cbn [snd] in *.
  - destruct (storage_fault env (tick w2)); cbn [snd].
    + by rewrite f_rollback, f_timeless.
    + by rewrite f_timeless.
  - by rewrite f_timeless, f_rollback.
Qed.

Lemma preserves_Deposit_tx id amt desc : preserves f (Deposit_tx env id amt desc).
Proof.
  unfold Deposit_tx.
  apply preserves_bind; [apply preserves_First|]. intros wallet.
  apply preserves_bind; [apply preserves_Update|]. intros _.
  apply preserves_bind; [apply preserves_uuid|]. intros uuid. apply preserves_Create.
Qed.

Lemma preserves_Transfer_tx a b amt desc : preserves f (Transfer_tx env a b amt desc).
Proof.
  unfold Transfer_tx.
  apply preserves_bind; [apply preserves_lock|]. intros wa.
  apply preserves_bind; [apply preserves_lock|]. intros wb.
  case_match; [apply preserves_fail|].
  apply preserves_bind; [apply preserves_Update|]. intros _.
  apply preserves_bind; [apply preserves_Update|]. intros _.
  apply preserves_bind; [apply preserves_uuid|]. intros u1.
  apply preserves_bind; [apply preserves_uuid|]. intros u2.
  apply preserves_bind; [apply preserves_Create|]. intros r1.
  apply preserves_bind; [apply preserves_Create|]. intros r2. apply preserves_ret.
Qed.
End Preserves.

Section Instances.
Variable env : Env.

Lemma Deposit_keeps_wallet_counter id amount desc :
  preserves wallet_counter (Deposit env id amount desc).
Proof.
  unfold Deposit. case_match; [by apply preserves_fail|].
  apply preserves_bind.
  - apply preserves_db_Transaction; try done.
    apply preserves_Deposit_tx; try done. intros g w Hg. apply Hg.
  - intros r w. destruct (Deposit_invalidation env id r w) as (w' & E & [Hdb _]).
    rewrite E. unfold wallet_counter. simpl. by rewrite Hdb.
Qed.

Lemma Transfer_keeps_wallet_counter a b amount desc :
  preserves wallet_counter (Transfer env a b amount desc).
Proof.
  unfold Transfer. case_match; [by apply preserves_fail|].
  case_match; [by apply preserves_fail|].
  apply preserves_bind.
  - apply preserves_db_Transaction; try done.
    apply preserves_Transfer_tx; try done. intros g w Hg. apply Hg.
  - intros r w. destruct (Transfer_invalidation env a b r w) as (w' & E & [Hdb _]).
    rewrite E. unfold wallet_counter. simpl. by rewrite Hdb.
Qed.

(** The storage transaction of a deposit or a transfer never touches the
    cache. *)
Lemma Deposit_tx_keeps_cache id amt desc w :
  cache (snd (db_Transaction env (Deposit_tx env id amt desc) w)) = cache w.
Proof.
  apply (preserves_db_Transaction env cache); try done.
  apply preserves_Deposit_tx; done.
Qed.

Lemma Transfer_tx_keeps_cache a b amt desc w :
  cache (snd (db_Transaction env (Transfer_tx env a b amt desc) w)) = cache w.
Proof.
  apply (preserves_db_Transaction env cache); try done.
  apply preserves_Transfer_tx; done.
Qed.
End Instances.

(** ** What a deposit and a transfer change *)

(** X1: a Deposit that succeeds credits exactly one wallet. The balance of
    the wallet becomes its old balance plus the amount in minor units,
    wrapped to [int64]; the identifier, the owner and the creation time of
    the row stay; every other wallet and every user is as before; and one
    record is appended, a deposit on this wallet of this amount with the
    description given and no transfer parties. *)
Theorem Deposit_credits_one_wallet env id amount desc w r w' :
  Deposit env id amount desc w = (Ok r, w') ->
  exists row row',
    wallets (db w) !! id = Some row /\
    wallets (db w') !! id = Some row' /\
    Wallet.Balance row'
      = Int64.wrap (Wallet.Balance row + DollarsToMinorUnits (arch env) amount) /\
    Wallet.ID row' = Wallet.ID row /\ Wallet.UserID row' = Wallet.UserID row /\
    Wallet.CreatedAt row' = Wallet.CreatedAt row /\
    (forall k, k <> id -> wallets (db w') !! k = wallets (db w) !! k) /\
    users (db w') = users (db w) /\
    transactions (db w') = transactions (db w) ++ [r] /\
    Transaction.WalletID r = id /\
    Transaction.Type_ r = TransactionTypeDeposit /\
    Transaction.Amount r = DollarsToMinorUnits (arch env) amount /\
    Transaction.Description r = desc /\
    Transaction.FromWalletID r = None /\ Transaction.ToWalletID r = None.
Proof.
  intros E. pose proof (Deposit_cases env id amount desc w) as H. simpl in H.
  rewrite E in H. destruct H as (_ & row & now & Hrow & Hr & _ & Hu & Hw & Ht).
  eexists row, _. split; [done|]. split.
  { rewrite Hw, lookup_alter_eq, Hrow. reflexivity. }
  simpl. repeat split; try done; try (by rewrite Hr).
  intros k Hk. by rewrite Hw, lookup_alter_ne.
Qed.

(** Five dollars on a wallet holding 10 cents; wallet 2 is not touched. *)
Lemma Deposit_credits_one_wallet_witness :
  let env := quiet Float64.amd64 in
  let w := world_of (two_wallets 10 20) in
  exists r w',
    Deposit env 1 (Float64.of_Z 5) "gift" w = (Ok r, w') /\
    Wallet.Balance <$> wallets (db w') !! 1%N = Some 510 /\
    wallets (db w') !! 2%N = Some (wallet_of 2 20) /\
    Transaction.Amount r = 500.
Proof.
  intros env w.
  destruct (Deposit env 1 (Float64.of_Z 5) "gift" w) as [[r|e] w'] eqn:E;
    [|vm_compute in E; discriminate].
  exists r, w'. split; [reflexivity|].
  destruct (Deposit_credits_one_wallet env 1 (Float64.of_Z 5) "gift" w r w' E)
    as (row & row' & Hrow & Hrow' & Hbal & _ & _ & _ & Hothers & _ & _ & _ & _ & Hamt & _).
  vm_compute in Hrow. injection Hrow as <-.
  split; [|split].
  - rewrite Hrow'. simpl. rewrite Hbal. vm_compute. reflexivity.
  - rewrite Hothers by discriminate. reflexivity.
  - rewrite Hamt. vm_compute. reflexivity.
Defined.

(** X2: a Transfer that succeeds moves the converted amount between two
    different wallets. The check it passed is on the amount as converted
    to [int64]: the source held at least that, loses it and the
    destination gains it, each wrapped to [int64]. When the minor units of
    the amount fit [int64], the converted amount is those minor units and
    is not negative, so the source held at least the amount asked for.
    (When they do not fit, the conversion is left to the machine: on amd64
    it is the [int64] minimum, and every source passes the check.) The sum
    of the two balances is kept modulo 2^64, and exactly when neither
    balance leaves [int64]; the owners stay; every other wallet and every
    user is as before. *)
Theorem Transfer_moves_between_two_wallets env a b amount desc w r w' :
  Transfer env a b amount desc w = (Ok r, w') ->
  let amt := DollarsToMinorUnits (arch env) amount in
  exists ra rb ra' rb',
    a <> b /\
    wallets (db w) !! a = Some ra /\ wallets (db w) !! b = Some rb /\
    wallets (db w') !! a = Some ra' /\ wallets (db w') !! b = Some rb' /\
    amt <= Wallet.Balance ra /\
    (forall z,
       Float64.truncate (Float64.mul amount (Float64.of_Z 100)) = Some z ->
       Int64.in_range z ->
       amt = z /\ 0 <= z <= Wallet.Balance ra) /\
    Wallet.Balance ra' = Int64.wrap (Wallet.Balance ra - amt) /\
    Wallet.Balance rb' = Int64.wrap (Wallet.Balance rb + amt) /\
    Int64.wrap (Wallet.Balance ra' + Wallet.Balance rb')
      = Int64.wrap (Wallet.Balance ra + Wallet.Balance rb) /\
    (Int64.in_range (Wallet.Balance ra - amt) ->
     Int64.in_range (Wallet.Balance rb + amt) ->
     Wallet.Balance ra' + Wallet.Balance rb' = Wallet.Balance ra + Wallet.Balance rb) /\
    Wallet.UserID ra' = Wallet.UserID ra /\ Wallet.UserID rb' = Wallet.UserID rb /\
    (forall k, k <> a -> k <> b -> wallets (db w') !! k = wallets (db w) !! k) /\
    users (db w') = users (db w).
Proof.
  intros E amt. pose proof (Transfer_cases env a b amount desc w) as H. simpl in H.
  rewrite E in H. fold amt in H.
  destruct H as (_ & Hpos & Hab & ra & rb & na & nb & credit & Hra & Hrb & Hlt
                 & _ & _ & _ & _ & _ & Hu & Hw & _).
  apply Z.ltb_ge in Hlt.
  eexists ra, rb, _, _. split; [done|]. split; [done|]. split; [done|]. split.
  { rewrite Hw, lookup_alter_ne, lookup_alter_eq, Hra by done. reflexivity. }
  split.
  { rewrite Hw, lookup_alter_eq, lookup_alter_ne, Hrb by done. reflexivity. }
  split; [done|]. split.
  { intros z Hz Hrange.
    assert (Hrep : Float64.representable (Float64.mul amount (Float64.of_Z 100)) = true).
    { unfold Float64.representable. rewrite Hz. by apply Int64Facts.in_rangeb_spec. }
    assert (Hamt : amt = z).
    { apply (Float64Facts.to_int64_representable _ _ z Hz Hrep). }
    pose proof (DollarsToMinorUnits_nonneg (arch env) amount Hpos Hrep) as Hnn.
    fold amt in Hnn. split; [done|]. lia. }
  simpl. repeat split; try done.
  - unfold Int64.sub, Int64.add.
    rewrite Int64Facts.wrap_wrap_add, Z.add_comm, Int64Facts.wrap_wrap_add.
    f_equal. lia.
  - intros H1 H2. unfold Int64.sub, Int64.add.
    rewrite !Int64Facts.wrap_id by done. lia.
  - intros k Ha Hb. by rewrite Hw, !lookup_alter_ne.
Qed.

(** Example 2 of the specification: 75.25 from a wallet holding 200.50 to
    a wallet holding 50.25. *)
Lemma Transfer_moves_between_two_wallets_witness :
  let env := quiet Float64.amd64 in
  let w := world_of (two_wallets 20050 5025) in
  exists r w',
    Transfer env 1 2 (Float64.of_decimal 7525 2) "rent" w = (Ok r, w') /\
    DollarsToMinorUnits (arch env) (Float64.of_decimal 7525 2) = 7525 /\
    Wallet.Balance <$> wallets (db w') !! 1%N = Some 12525 /\
    Wallet.Balance <$> wallets (db w') !! 2%N = Some 12550.
Proof.
  intros env w.
  destruct (Transfer env 1 2 (Float64.of_decimal 7525 2) "rent" w)
    as [[r|e] w'] eqn:E; [|vm_compute in E; discriminate].
  exists r, w'. split; [reflexivity|].
  destruct (Transfer_moves_between_two_wallets env 1 2 _ "rent" w r w' E)
    as (ra & rb & ra' & rb' & _ & Hra & Hrb & Hra' & Hrb' & _ & Hfits & Ha & Hb & _).
  vm_compute in Hra. injection Hra as <-.
  vm_compute in Hrb. injection Hrb as <-.
  split; [|split].
  - apply (Hfits 7525); [vm_compute; reflexivity|vm_compute; split; discriminate].
  - rewrite Hra'. simpl. rewrite Ha. vm_compute. reflexivity.
  - rewrite Hrb'. simpl. rewrite Hb. vm_compute. reflexivity.
Defined.

(** X3: the ways a Transfer is refused before it moves anything. An
    amount that is not positive and a transfer from a wallet to itself are
    refused before the store or the cache is consulted: the state is
    untouched. A source that does not exist is reported as "source wallet
    not found" after BEGIN, one locking read and ROLLBACK; a destination
    that does not exist as "destination wallet not found", after the source
    row was locked; in both cases the rows are as before. *)
Theorem Transfer_failure_modes env a b amount desc w :
  (Float64.leb amount Float64.zero = true ->
   Transfer env a b amount desc w = (Err (errors_New "amount must be positive"), w))
  /\ (Float64.leb amount Float64.zero = false -> a = b ->
      Transfer env a b amount desc w
        = (Err (errors_New "cannot transfer to the same wallet"), w))
  /\ (Float64.leb amount Float64.zero = false -> a <> b ->
      storage_fault env (tick w) = None -> storage_fault env (S (tick w)) = None ->
      (wallets (db w) !! a = None ->
       exists w', Transfer env a b amount desc w
                    = (Err (errors_New "source wallet not found"), w') /\
                  same_rows (db w) (db w') /\
                  trace w' = trace w ++ [SqlBegin; SqlSelectWalletForUpdate a false;
                                         SqlRollback])
      /\ (is_Some (wallets (db w) !! a) -> wallets (db w) !! b = None ->
          storage_fault env (S (S (tick w))) = None ->
          exists w', Transfer env a b amount desc w
                       = (Err (errors_New "destination wallet not found"), w') /\
                     same_rows (db w) (db w') /\
                     trace w' = trace w ++ [SqlBegin; SqlSelectWalletForUpdate a true;
                                            SqlSelectWalletForUpdate b false;
                                            SqlRollback])).
Proof.
  split; [|split].
  - unfold Transfer. by intros ->.
  - unfold Transfer. intros -> ->. by rewrite N.eqb_refl.
  - intros Hpos Hab F0 F1. apply N.eqb_neq in Hab.
    unfold Transfer. rewrite Hpos, Hab.
    unfold Transfer_tx, db_Transaction. unfold_gorm. simpl. rewrite F0. simpl.
    rewrite F1. split.
    + intros ->. simpl. eexists. split; [reflexivity|]. simpl.
      split; [by repeat split|]. by rewrite <-!app_assoc.
    + intros [ra ->] Hb F2. simpl. rewrite F2, Hb. simpl.
      eexists. split; [reflexivity|]. simpl.
      split; [by repeat split|]. by rewrite <-!app_assoc.
Qed.

(** Example 4 of the specification, a transfer from a wallet to itself,
    and a transfer to a wallet that does not exist. *)
Lemma Transfer_failure_modes_witness :
  let env := quiet Float64.amd64 in
  let w := world_of (two_wallets 10000 0) in
  Transfer env 1 1 (Float64.of_Z 10) "" w
    = (Err (errors_New "cannot transfer to the same wallet"), w)
  /\ exists w', Transfer env 1 999 (Float64.of_Z 10) "" w
                  = (Err (errors_New "destination wallet not found"), w')
                /\ same_rows (db w) (db w').
Proof.
  intros env w.
  destruct (Transfer_failure_modes env 1 1 (Float64.of_Z 10) "" w) as (_ & Hsame & _).
  destruct (Transfer_failure_modes env 1 999 (Float64.of_Z 10) "" w) as (_ & _ & Hgone).
  split.
  - apply Hsame; reflexivity.
  - destruct (Hgone eq_refl ltac:(discriminate) eq_refl eq_refl) as [_ Hdest].
    destruct (Hdest ltac:(eexists; reflexivity) eq_refl eq_refl) as (w' & E & Hrows & _).
    exists w'. split; [exact E|exact Hrows].
Defined.

(** ** Creating wallets *)

Section Creation.
Variable env : Env.

Lemma CreateWallet_ok u w wal w' :
  CreateWallet env u w = (Ok wal, w') ->
  is_Some (users (db w) !! u) /\
  Wallet.Balance wal = 0 /\ Wallet.UserID wal = u /\
  Wallet.ID wal = wallets_auto_increment (db w) /\
  wallets (db w') = <[Wallet.ID wal := wal]> (wallets (db w)) /\
  wallets_auto_increment (db w') = N.succ (wallets_auto_increment (db w)) /\
  users (db w') = users (db w) /\
  transactions (db w') = transactions (db w).
Proof.
  unfold CreateWallet, userRepo_GetByID, walletRepo_Create, invalidateUserCache,
    redis_Del. unfold_gorm. simpl.
  repeat (case_match; simplify_eq/=; try done);
    intros; simplify_eq/=; by repeat split.
Qed.

Lemma CreateWallet_err u w e w' :
  CreateWallet env u w = (Err e, w') ->
  same_rows (db w) (db w') /\ cache w' = cache w /\
  (wallets_auto_increment (db w) <= wallets_auto_increment (db w'))%N.
Proof.
  unfold CreateWallet, userRepo_GetByID, walletRepo_Create, invalidateUserCache,
    redis_Del. unfold_gorm. simpl.
  repeat (case_match; simplify_eq/=; try done);
    intros; simplify_eq/=; (split; [done|]); (split; [done|]); lia.
Qed.

End Creation.

(** X4: what CreateWallet does. For a user the store does not know (the
    store answering) it fails with "user not found" and leaves the store
    and the cache as they were; whenever it fails, the rows and the cache
    are as before; when it succeeds, the user exists and the wallet
    returned has balance 0, belongs to the user, carries the next
    identifier of the wallets table and is the one row added: users and
    records are as before. *)
Theorem CreateWallet_outcomes env u w :
  (users (db w) !! u = None -> storage_fault env (tick w) = None ->
   exists w', CreateWallet env u w = (Err (errors_New "user not found"), w')
              /\ db w' = db w /\ cache w' = cache w)
  /\ (forall e w', CreateWallet env u w = (Err e, w') ->
        same_rows (db w) (db w') /\ cache w' = cache w)
  /\ (forall wal w', CreateWallet env u w = (Ok wal, w') ->
        is_Some (users (db w) !! u) /\
        Wallet.Balance wal = 0 /\ Wallet.UserID wal = u /\
        Wallet.ID wal = wallets_auto_increment (db w) /\
        wallets (db w') = <[Wallet.ID wal := wal]> (wallets (db w)) /\
        wallets_auto_increment (db w') = N.succ (wallets_auto_increment (db w)) /\
        users (db w') = users (db w) /\
        transactions (db w') = transactions (db w)).
Proof.
  split; [|split].
  - unfold CreateWallet, userRepo_GetByID. unfold_gorm. simpl.
    intros Hu F0. rewrite F0. simpl. rewrite Hu. simpl. by eexists.
  - intros e w' E. apply CreateWallet_err in E as (? & ? & _). by split.
  - intros wal w'. apply CreateWallet_ok.
Qed.

(** A wallet for user 42, who does not exist, and one for alice. *)
Lemma CreateWallet_outcomes_witness :
  let env := quiet Float64.amd64 in
  let w := world_of empty_db in
  (exists w', CreateWallet env 42 w = (Err (errors_New "user not found"), w')
              /\ db w' = db w)
  /\ exists wal w', CreateWallet env 1 w = (Ok wal, w') /\
                    Wallet.ID wal = 1%N /\ Wallet.Balance wal = 0.
Proof.
  intros env w.
  destruct (CreateWallet_outcomes env 42 w) as (Hunknown & _ & _).
  destruct (CreateWallet_outcomes env 1 w) as (_ & _ & Hok).
  split.
  - destruct (Hunknown eq_refl eq_refl) as (w' & E & Hdb & _).
    exists w'. split; [exact E|exact Hdb].
  - destruct (CreateWallet env 1 w) as [[wal|e] w'] eqn:E;
      [|vm_compute in E; discriminate].
    destruct (Hok wal w' eq_refl) as (_ & Hb & _ & Hid & _).
    exists wal, w'. split; [reflexivity|]. split; [exact Hid|exact Hb].
Defined.

(** ** Wallets are never removed *)

Section Counter.
Variable env : Env.

(** What one operation does to the wallets table. *)
Lemma apply_op_wallets op w :
  wallets_fresh (db w) ->
  wallets_fresh (db (apply_op env op w)) /\
  forall k row, wallets (db w) !! k = Some row ->
    exists row', wallets (db (apply_op env op w)) !! k = Some row' /\
      Wallet.ID row' = Wallet.ID row /\ Wallet.UserID row' = Wallet.UserID row /\
      Wallet.CreatedAt row' = Wallet.CreatedAt row.
Proof.
  intros Hfresh.
  destruct op as [u|id|id amount desc|a b amount desc|id l o]; simpl.
  - destruct (CreateWallet env u w) as [[wal|e] w'] eqn:E; simpl.
    + destruct (CreateWallet_ok env u w wal w' E) as (_ & _ & _ & Hid & Hw & Hc & _).
      rewrite Hid in Hw. split.
      * intros k. rewrite Hw, Hc. intros [x Hx].
        destruct (decide (k = wallets_auto_increment (db w))) as [->|Hne]; [lia|].
        rewrite lookup_insert_ne in Hx by done.
        specialize (Hfresh k (mk_is_Some _ _ Hx)). lia.
      * intros k row Hk. exists row. rewrite Hw, lookup_insert_ne; [done|].
        intros <-. specialize (Hfresh _ (mk_is_Some _ _ Hk)). lia.
    + destruct (CreateWallet_err env u w e w' E) as ((_ & Hw & _) & _ & Hc).
      split.
      * intros k. rewrite Hw. intros Hk. specialize (Hfresh k Hk). lia.
      * intros k row Hk. exists row. by rewrite Hw.
  - rewrite GetWallet_db. split; [done|]. intros k row Hk. by exists row.
  - pose proof (Deposit_keeps_wallet_counter env id amount desc w) as Hc.
    unfold wallet_counter in Hc.
    pose proof (Deposit_cases env id amount desc w) as H. simpl in H.
    destruct (Deposit env id amount desc w) as [[r|e] w']; simpl in *.
    + destruct H as (_ & row0 & now & _ & _ & _ & _ & Hw & _). split.
      * intros k. rewrite Hw, Hc, lookup_alter_is_Some. apply Hfresh.
      * intros k row Hk. rewrite Hw, lookup_alter.
        case_decide; subst; rewrite Hk; simpl; eauto.
    + destruct H as (_ & Hw & _). split.
      * intros k. rewrite Hw, Hc. apply Hfresh.
      * intros k row Hk. exists row. by rewrite Hw.
  - pose proof (Transfer_keeps_wallet_counter env a b amount desc w) as Hc.
    unfold wallet_counter in Hc.
    pose proof (Transfer_cases env a b amount desc w) as H. simpl in H.
    destruct (Transfer env a b amount desc w) as [[r|e] w']; simpl in *.
    + destruct H as (_ & _ & _ & ra & rb & na & nb & credit & _ & _ & _
                     & _ & _ & _ & _ & _ & _ & Hw & _). split.
      * intros k. rewrite Hw, Hc, !lookup_alter_is_Some. apply Hfresh.
      * intros k row Hk. rewrite Hw, !lookup_alter.
        repeat case_decide; subst; rewrite Hk; simpl; eauto.
    + destruct H as (_ & _ & Hw & _). split.
      * intros k. rewrite Hw, Hc. apply Hfresh.
      * intros k row Hk. exists row. by rewrite Hw.
  - rewrite GetTransactions_db. split; [done|]. intros k row Hk. by exists row.
Qed.
End Counter.

(** X5: no run of the service removes a wallet or hands it to another
    user. From a store in which every wallet sits below the AUTO_INCREMENT
    counter, a wallet that exists still exists after any sequence of
    operations, under the same identifier, with the same owner and the
    same creation time. *)
Theorem wallets_are_never_removed env ops w k row :
  wallets_fresh (db w) ->
  wallets (db w) !! k = Some row ->
  exists row', wallets (db (run env ops w)) !! k = Some row' /\
    Wallet.ID row' = Wallet.ID row /\ Wallet.UserID row' = Wallet.UserID row /\
    Wallet.CreatedAt row' = Wallet.CreatedAt row.
Proof.
  revert w row. induction ops as [|op ops IH]; intros w row Hfresh Hk.
  { exists row. by repeat split. }
  destruct (apply_op_wallets env op w Hfresh) as [Hfresh' Hkeep].
  destruct (Hkeep k row Hk) as (row1 & Hk1 & E1 & E2 & E3).
  destruct (IH _ row1 Hfresh' Hk1) as (row' & Hk' & F1 & F2 & F3).
  exists row'. simpl. split; [done|]. split; [congruence|]. split; congruence.
Qed.

(** Wallet 2 after the run of Examples 1 and 2 on a store that holds it. *)
Lemma wallets_are_never_removed_witness :
  let env := quiet Float64.amd64 in
  let w := world_of (two_wallets 0 5025) in
  wallets_fresh (db w) /\
  exists row', wallets (db (run env salary_then_rent w)) !! 2%N = Some row' /\
               Wallet.UserID row' = 1%N.
Proof.
  intros env w.
  assert (Hfresh : wallets_fresh (db w)).
  { intros k [row Hk]. simpl in Hk.
    destruct (decide (k = 1%N)) as [->|]; [reflexivity|].
    destruct (decide (k = 2%N)) as [->|]; [reflexivity|].
    rewrite lookup_insert_ne, lookup_singleton_ne in Hk by done. discriminate. }
  split; [exact Hfresh|].
  destruct (wallets_are_never_removed env salary_then_rent w 2 (wallet_of 2 5025)
              Hfresh eq_refl) as (row' & Hk & _ & Hu & _).
  exists row'. split; [exact Hk|exact Hu].
Defined.

(** ** The ledger only grows *)

Lemma uuid_taken_false u l :
  uuid_taken u l = false <-> u ∉ Transaction.TransactionUUID <$> l.
Proof.
  unfold uuid_taken. induction l as [|r l IH]; simpl.
  - split; [intros _ []%elem_of_nil|done].
  - rewrite not_elem_of_cons, orb_false_iff, IH, String.eqb_neq.
    split; intros [? ?]; split; auto.
Qed.

(** What one operation does to the transactions table. *)
Lemma apply_op_transactions env op w :
  exists new,
    transactions (db (apply_op env op w)) = transactions (db w) ++ new /\
    NoDup (Transaction.TransactionUUID <$> new) /\
    (forall u, u ∈ Transaction.TransactionUUID <$> new ->
               u ∉ Transaction.TransactionUUID <$> transactions (db w)).
Proof.
  assert (Hnil : forall l : list Transaction.t, exists new,
            l = l ++ new /\ NoDup (Transaction.TransactionUUID <$> new) /\
            (forall u, u ∈ Transaction.TransactionUUID <$> new ->
                       u ∉ Transaction.TransactionUUID <$> l)).
  { intros l. exists []. rewrite app_nil_r. split; [done|]. split; [constructor|].
    by intros u ?%elem_of_nil. }
  destruct op as [u|id|id amount desc|a b amount desc|id l o]; simpl.
  - rewrite CreateWallet_transactions. apply Hnil.
  - rewrite GetWallet_db. apply Hnil.
  - pose proof (Deposit_cases env id amount desc w) as H. simpl in H.
    destruct (Deposit env id amount desc w) as [[r|e] w']; simpl.
    + destruct H as (_ & row & now & _ & _ & Hu & _ & _ & Ht).
      exists [r]. split; [done|]. split.
      * simpl. apply NoDup_singleton.
      * intros u ->%list_elem_of_singleton. by apply uuid_taken_false.
    + destruct H as (_ & _ & ->). apply Hnil.
  - pose proof (Transfer_cases env a b amount desc w) as H. simpl in H.
    destruct (Transfer env a b amount desc w) as [[r|e] w']; simpl.
    + destruct H as (_ & _ & _ & ra & rb & na & nb & credit & _ & _ & _
                     & _ & _ & Hne & Hu1 & Hu2 & _ & _ & Ht & _).
      exists [r; credit]. split; [done|]. split.
      * simpl. apply NoDup_cons. split; [|apply NoDup_singleton].
        by intros ?%list_elem_of_singleton.
      * simpl. intros u [->| ->%list_elem_of_singleton]%elem_of_cons;
          by apply uuid_taken_false.
    + destruct H as (_ & _ & _ & ->). apply Hnil.
  - rewrite GetTransactions_db. apply Hnil.
Qed.

(** X6: the ledger is append-only. After any sequence of operations the
    transactions table is the table before followed by the records
    written since: no record is changed, reordered or deleted, whatever
    fails on the way. And if the [transaction_uuid]s were pairwise
    different before, they still are. *)
Theorem ledger_is_append_only env ops w :
  exists new,
    transactions (db (run env ops w)) = transactions (db w) ++ new /\
    (NoDup (Transaction.TransactionUUID <$> transactions (db w)) ->
     NoDup (Transaction.TransactionUUID <$> transactions (db (run env ops w)))).
Proof.
  revert w. induction ops as [|op ops IH]; intros w.
  { exists []. by rewrite app_nil_r. }
  destruct (apply_op_transactions env op w) as (new1 & E1 & Hnd & Hfresh).
  destruct (IH (apply_op env op w)) as (new2 & E2 & Hkeep).
  exists (new1 ++ new2). simpl. split.
  - by rewrite E2, E1, app_assoc.
  - intros Hw. apply Hkeep. rewrite E1, fmap_app. apply NoDup_app.
    split; [done|]. split; [|done]. intros u Hu Hu'. by apply (Hfresh u).
Qed.

(** The run of Examples 1 and 2 appends to a ledger that holds one record. *)
Lemma ledger_is_append_only_witness :
  let env := quiet Float64.amd64 in
  let d := two_wallets 0 0 in
  let w := world_of (mkDB (users d) (wallets d) [salary_record] 3 2) in
  NoDup (Transaction.TransactionUUID <$> transactions (db w)) /\
  head (transactions (db (run env salary_then_rent w))) = Some salary_record /\
  NoDup (Transaction.TransactionUUID <$> transactions (db (run env salary_then_rent w))).
Proof.
  intros env d w.
  assert (Hnd : NoDup (Transaction.TransactionUUID <$> transactions (db w))).
  { apply NoDup_singleton. }
  split; [exact Hnd|].
  destruct (ledger_is_append_only env salary_then_rent w) as (new & E & Hkeep).
  split.
  - rewrite E. reflexivity.
  - exact (Hkeep Hnd).
Defined.

(** ** Invalidation: which cache entries go *)

Lemma prefix_app p s : String.prefix p (p +:+ s) = true.
Proof.
  induction p as [|a p IH]; [by destruct s|].
  change (String a p +:+ s) with (String a (p +:+ s)). simpl.
  destruct (ascii_dec a a); [exact IH|congruence].
Qed.

Lemma prefix_inv p s : String.prefix p s = true -> exists r, s = p +:+ r.
Proof.
  revert s. induction p as [|a p IH]; intros s.
  - intros _. by exists s.
  - destruct s as [|b s]; [done|]. simpl.
    destruct (ascii_dec a b) as [->|]; [|done].
    intros [r ->]%IH. by exists r.
Qed.

Lemma append_assoc (a b c : string) : (a +:+ b) +:+ c = a +:+ (b +:+ c).
Proof.
  induction a as [|x a IH]; [done|].
  change (String x ((a +:+ b) +:+ c) = String x (a +:+ (b +:+ c))). by f_equal.
Qed.

Lemma transactions_cache_key_prefix id limit offset :
  String.prefix (transactions_cache_prefix id)
    (transactions_cache_key id limit offset) = true.
Proof.
  replace (transactions_cache_key id limit offset)
    with (transactions_cache_prefix id +:+ (pretty limit +:+ ":" +:+ pretty offset)).
  - apply prefix_app.
  - unfold transactions_cache_prefix, transactions_cache_key.
    by rewrite !append_assoc.
Qed.

Lemma transactions_cache_prefix_other id id' limit offset :
  id' <> id ->
  String.prefix (transactions_cache_prefix id)
    (transactions_cache_key id' limit offset) = false.
Proof.
  intros Hne. apply not_true_is_false. intros [r E]%prefix_inv.
  unfold transactions_cache_prefix, transactions_cache_key in E.
  rewrite !append_assoc in E.
  apply (inj (String.append "wallet:")) in E.
  change (":transactions:" +:+ ?x) with (String ":" ("transactions:" +:+ x)) in E.
  apply append_separator_inj in E as [E _]; try apply pretty_N_no_colon.
  by apply (inj pretty) in E.
Qed.

Lemma transactions_cache_prefix_wallet_key id id' :
  String.prefix (transactions_cache_prefix id) (wallet_cache_key id') = false.
Proof.
  apply not_true_is_false. intros [r E]%prefix_inv.
  unfold transactions_cache_prefix, wallet_cache_key in E.
  rewrite !append_assoc in E.
  apply (inj (String.append "wallet:")) in E.
  pose proof (pretty_N_no_colon id') as H. rewrite E, !occurs_app in H.
  simpl in H. by rewrite orb_true_r in H.
Qed.

Section Cache.
Variable env : Env.

Lemma redis_Del_cache k w :
  let w' := snd (redis_Del env k w) in
  (forall k', k' <> k -> cache w' !! k' = cache w !! k') /\
  (forall k', cache w' !! k' = None \/ cache w' !! k' = cache w !! k') /\
  (cache_fault env (tick w) = false -> cache w' !! k = None) /\
  (cache_fault env (tick w) = true -> cache w' = cache w).
Proof.
  unfold redis_Del. destruct (cache_fault env (tick w)); simpl.
  - repeat split; auto. done.
  - repeat split; try done.
    + intros k' Hk. by rewrite lookup_delete_ne.
    + intros k'. destruct (decide (k = k')) as [->|Hne].
      * left. apply lookup_delete_eq.
      * right. by rewrite lookup_delete_ne.
    + intros _. apply lookup_delete_eq.
Qed.

Lemma for_each_redis_Del_cache keys w :
  let w' := snd (for_each (redis_Del env) keys w) in
  (forall k, k ∉ keys -> cache w' !! k = cache w !! k) /\
  (forall k, cache w' !! k = None \/ cache w' !! k = cache w !! k) /\
  (cache_answers env -> forall k, k ∈ keys -> cache w' !! k = None).
Proof.
  revert w. induction keys as [|k keys IH]; intros w; simpl.
  { repeat split; auto. by intros _ k ?%elem_of_nil. }
  unfold mbind, M_bind.
  destruct (redis_Del_step env k w) as (w1 & E1 & _).
  pose proof (redis_Del_cache k w) as (D1 & D2 & D3 & _). rewrite E1 in *. simpl in *.
  destruct (IH w1) as (I1 & I2 & I3).
  repeat split.
  - intros k' [Hk Hks]%not_elem_of_cons. by rewrite I1, D1.
  - intros k'. destruct (I2 k') as [->| ->]; [by left|]. apply D2.
  - intros Hq k' [->|Hin]%elem_of_cons.
    + destruct (I2 k) as [->| ->]; [done|]. apply D3, Hq.
    + by apply I3.
Qed.

(** The sweep of the history pages of one wallet. *)
Lemma invalidateTransactionCache_cache id w :
  let w' := snd (invalidateTransactionCache env id w) in
  (forall k, String.prefix (transactions_cache_prefix id) k = false ->
             cache w' !! k = cache w !! k) /\
  (forall k, cache w' !! k = None \/ cache w' !! k = cache w !! k) /\
  (cache_answers env ->
   forall k, String.prefix (transactions_cache_prefix id) k = true ->
             cache w' !! k = None).
Proof.
  unfold invalidateTransactionCache, mbind, M_bind, redis_Scan.
  fold (transactions_cache_prefix id). cbn [fst snd].
  match goal with |- context [for_each _ ?ks ?w1] =>
    pose proof (for_each_redis_Del_cache ks w1) as (I1 & I2 & I3);
    destruct (for_each_redis_Del_step env ks w1) as (w2 & E2 & _) end.
  rewrite E2 in *. cbn [fst snd] in *. simpl in I1, I2, I3.
  repeat split.
  - intros k Hk. apply I1. case_match; [by intros ?%elem_of_nil|].
    intros [Hp _]%list_elem_of_filter. congruence.
  - apply I2.
  - intros Hq k Hk. rewrite (Hq (tick w)) in I3.
    destruct (cache w !! k) as [entry|] eqn:Hc.
    + apply (I3 Hq). apply list_elem_of_filter. split; [done|].
      apply list_elem_of_fmap. exists (k, entry). split; [done|].
      by apply elem_of_map_to_list.
    + destruct (I2 k) as [->| ->]; done.
Qed.
End Cache.

(** X7: the sweep of the history pages of one wallet is scoped to that
    wallet. [invalidateTransactionCache] leaves the store alone, keeps the
    cached wallet of every wallet and every cached page of every other
    wallet (the pattern of wallet 1 does not match a key of wallet 10),
    and never adds an entry; when the cache answers, no page of the wallet
    is left, whatever its limit and offset. *)
Theorem history_invalidation_is_scoped env id w :
  let w' := snd (invalidateTransactionCache env id w) in
  db w' = db w /\
  (forall id', cache w' !! wallet_cache_key id' = cache w !! wallet_cache_key id') /\
  (forall id' limit offset, id' <> id ->
     cache w' !! transactions_cache_key id' limit offset
       = cache w !! transactions_cache_key id' limit offset) /\
  (forall k, is_Some (cache w' !! k) -> cache w' !! k = cache w !! k) /\
  (cache_answers env ->
   forall limit offset, cache w' !! transactions_cache_key id limit offset = None).
Proof.
  intros w'. destruct (invalidateTransactionCache_cache env id w) as (H1 & H2 & H3).
  fold w' in H1, H2, H3.
  destruct (invalidateTransactionCache_step env id w) as (w2 & E & [Hdb _]).
  split. { unfold w'. by rewrite E. }
  split. { intros id'. apply H1, transactions_cache_prefix_wallet_key. }
  split. { intros id' l o Hne. by apply H1, transactions_cache_prefix_other. }
  split. { intros k [x Hx]. destruct (H2 k) as [Hn|Hn]; [congruence|done]. }
  intros Hq l o. apply (H3 Hq), transactions_cache_key_prefix.
Qed.

(** A cache holding a page of wallet 1, a page of wallet 10 and wallet 1. *)
Lemma history_invalidation_is_scoped_witness :
  let env := quiet Float64.amd64 in
  let page := mkEntry "[]" 1000 in
  let w := mkWorld (two_wallets 10 20)
             (<[ "wallet:1:transactions:10:0" := page ]>
                (<[ "wallet:10:transactions:10:0" := page ]>
                   {[ "wallet:1" := mkEntry "{}" 1000 ]})) 0 [] in
  let w' := snd (invalidateTransactionCache env 1 w) in
  cache_answers env /\
  cache w' !! "wallet:1:transactions:10:0" = None /\
  cache w' !! "wallet:10:transactions:10:0" = Some page /\
  cache w' !! "wallet:1" = Some (mkEntry "{}" 1000).
Proof.
  intros env page w w'.
  assert (Hq : cache_answers env) by (intros n; reflexivity).
  split; [exact Hq|].
  destruct (history_invalidation_is_scoped env 1 w) as (_ & Hwallet & Hother & _ & Hall).
  fold w' in Hwallet, Hother, Hall.
  split; [|split].
  - exact (Hall Hq 10 0).
  - etrans; [exact (Hother 10%N 10 0 ltac:(discriminate))|reflexivity].
  - etrans; [exact (Hwallet 1%N)|reflexivity].
Defined.

(** ** Reads after writes *)

Lemma wallet_cache_key_inj id id' : wallet_cache_key id = wallet_cache_key id' -> id = id'.
Proof.
  unfold wallet_cache_key. intros E%(inj (String.append "wallet:")).
  by apply (inj pretty) in E.
Qed.

Section Reads.
Variable env : Env.

(** GetWallet when the cache has nothing usable: the store decides. *)
Lemma GetWallet_read_through id w row :
  cached_value env w (wallet_cache_key id) ≫= json_Unmarshal_wallet env = None ->
  wallets (db w) !! id = Some row ->
  storage_fault env (S (tick w)) = None ->
  storage_fault env (S (S (tick w))) = None ->
  let wallet :=
    Wallet.with_User (Wallet.with_ID row id)
      (default User.zero (users (db w) !! Wallet.UserID row)) in
  exists w',
    GetWallet env id w = (Ok wallet, w') /\ db w' = db w /\
    tick w' = S (S (S (S (tick w)))) /\
    trace w' = trace w ++ [RedisGet (wallet_cache_key id); SqlSelectWallet id;
                           SqlSelectUser (Wallet.UserID row);
                           RedisSet (wallet_cache_key id)
                             (json_Marshal_wallet env wallet) (5 * Minute)] /\
    (cache_fault env (S (S (S (tick w)))) = false ->
     cache w' = <[wallet_cache_key id :=
                    mkEntry (json_Marshal_wallet env wallet)
                            (time_Now env (S (S (S (tick w)))) + 5 * Minute)]>
                  (cache w)).
Proof.
  intros Hmiss Hrow F1 F2 wallet.
  unfold GetWallet, redis_Get, mbind at 1, M_bind at 1.
  rewrite Hmiss. unfold walletRepo_GetByID, redis_Set. unfold_gorm. simpl.
  rewrite F1. simpl. rewrite Hrow. simpl. rewrite F2. simpl. fold wallet.
  destruct (cache_fault env (S (S (S (tick w))))) eqn:Hc;
    eexists; (split; [reflexivity|]); simpl;
    rewrite <-?app_assoc; by repeat split.
Qed.

(** GetWallet when the cache has a usable value: the cache decides. *)
Lemma GetWallet_served_from_cache id w s cached :
  cached_value env w (wallet_cache_key id) = Some s ->
  json_Unmarshal_wallet env s = Some cached ->
  GetWallet env id w = (Ok cached, advance [RedisGet (wallet_cache_key id)] w).
Proof.
  intros Hs Hc. unfold GetWallet, redis_Get, mbind, M_bind.
  rewrite Hs. simpl. by rewrite Hc.
Qed.

(** Where a successful Deposit stands when it starts to invalidate. *)
Lemma Deposit_before_invalidation id amount desc w r w' :
  Deposit env id amount desc w = (Ok r, w') ->
  exists w1,
    db_Transaction env
      (Deposit_tx env id (DollarsToMinorUnits (arch env) amount) desc) w = (Ok r, w1) /\
    tick w1 = (8 + tick w)%nat /\ cache w1 = cache w /\
    w' = snd (invalidateTransactionCache env id
                (snd (invalidateWalletCache env id w1))).
Proof.
  unfold Deposit. case_match; [done|].
  unfold mbind at 1, M_bind at 1.
  pose proof (Deposit_tx_keeps_cache env id
                (DollarsToMinorUnits (arch env) amount) desc w) as Hcache.
  destruct (db_Transaction _ _ _) as [[r1|e] w1] eqn:Etx; [|done].
  intros E. exists w1.
  unfold mbind, M_bind in E.
  destruct (invalidateWalletCache_step env id w1) as (w2 & E2 & _).
  destruct (invalidateTransactionCache_step env id w2) as (w3 & E3 & _).
  rewrite E2, E3 in E. injection E as -> <-. rewrite E2. cbn [snd]. rewrite E3.
  split; [done|]. split; [|by split].
  revert Etx. clear. unfold db_Transaction, Deposit_tx. unfold_gorm.
  repeat (case_match; simplify_eq/=; try done). by intros [= _ <-].
Qed.
End Reads.

Section Eviction.
Variable env : Env.

(** What the two invalidations at the end of a Deposit do to the cache. *)
Lemma Deposit_invalidations_cache id w1 :
  let w2 := snd (invalidateWalletCache env id w1) in
  let w' := snd (invalidateTransactionCache env id w2) in
  (forall id', cache w' !! wallet_cache_key id' = cache w2 !! wallet_cache_key id') /\
  (forall id' limit offset, id' <> id ->
     cache w' !! transactions_cache_key id' limit offset
       = cache w2 !! transactions_cache_key id' limit offset) /\
  (cache_answers env ->
   forall limit offset, cache w' !! transactions_cache_key id limit offset = None) /\
  (forall k, k <> wallet_cache_key id -> cache w2 !! k = cache w1 !! k) /\
  (cache_fault env (tick w1) = false -> cache w2 !! wallet_cache_key id = None) /\
  (cache_fault env (tick w1) = true -> cache w2 = cache w1).
Proof.
  intros w2 w'.
  destruct (invalidateTransactionCache_cache env id w2) as (H1 & _ & H3).
  fold w' in H1, H3.
  pose proof (redis_Del_cache env (wallet_cache_key id) w1) as (D1 & _ & D3 & D4).
  fold (invalidateWalletCache env id w1) in D1, D3, D4. fold w2 in D1, D3, D4.
  split. { intros id'. apply H1, transactions_cache_prefix_wallet_key. }
  split. { intros id' l o Hne. by apply H1, transactions_cache_prefix_other. }
  split. { intros Hq l o. apply (H3 Hq), transactions_cache_key_prefix. }
  done.
Qed.

Lemma Deposit_evicts_the_wallet_key id amount desc w r w' :
  Deposit env id amount desc w = (Ok r, w') ->
  cache_answers env ->
  cache w' !! wallet_cache_key id = None.
Proof.
  intros E Hq.
  destruct (Deposit_before_invalidation env _ _ _ _ _ _ E)
    as (w1 & _ & Htick & Hcache & ->).
  destruct (Deposit_invalidations_cache id w1) as (Hwk & _ & _ & _ & D3 & _).
  rewrite Hwk. apply D3, Hq.
Qed.

End Eviction.

(** X8: a Deposit that succeeds invalidates what the cache holds for its
    wallet, and nothing else. The cached wallet and the cached history
    pages of every other wallet are as before; when the cache answers, the
    cached wallet of the credited wallet and every cached page of its
    history are gone. *)
Theorem Deposit_invalidates_its_wallet env id amount desc w r w' :
  Deposit env id amount desc w = (Ok r, w') ->
  (forall id', id' <> id ->
     cache w' !! wallet_cache_key id' = cache w !! wallet_cache_key id' /\
     forall limit offset,
       cache w' !! transactions_cache_key id' limit offset
         = cache w !! transactions_cache_key id' limit offset) /\
  (cache_answers env ->
     cache w' !! wallet_cache_key id = None /\
     forall limit offset, cache w' !! transactions_cache_key id limit offset = None).
Proof.
  intros E. destruct (Deposit_before_invalidation env _ _ _ _ _ _ E)
    as (w1 & _ & Htick & Hcache & ->).
  destruct (Deposit_invalidations_cache env id w1) as (Hwk & Hother & Hall & D1 & D3 & _).
  split.
  - intros id' Hne. split.
    + rewrite Hwk, D1, Hcache; [done|]. by intros ?%wallet_cache_key_inj.
    + intros l o. rewrite Hother by done. rewrite D1, Hcache; [done|].
      intros Hk. pose proof (transactions_cache_prefix_wallet_key id' id) as Hp.
      rewrite <-Hk, transactions_cache_key_prefix in Hp. done.
  - intros Hq. split.
    + rewrite Hwk. apply D3, Hq.
    + apply Hall, Hq.
Qed.

(** A deposit on wallet 1 with wallets 1 and 2 and a page of each cached. *)
Lemma Deposit_invalidates_its_wallet_witness :
  let env := quiet Float64.amd64 in
  let entry := mkEntry "{}" 1000 in
  let w := mkWorld (two_wallets 10 20)
             (<[ "wallet:1" := entry ]>
                (<[ "wallet:2" := entry ]>
                   (<[ "wallet:1:transactions:10:0" := entry ]>
                      {[ "wallet:2:transactions:10:0" := entry ]}))) 0 [] in
  cache_answers env /\
  exists r w',
    Deposit env 1 (Float64.of_Z 5) "gift" w = (Ok r, w') /\
    cache w' !! "wallet:1" = None /\
    cache w' !! "wallet:1:transactions:10:0" = None /\
    cache w' !! "wallet:2" = Some entry /\
    cache w' !! "wallet:2:transactions:10:0" = Some entry.
Proof.
  intros env entry w.
  assert (Hq : cache_answers env) by (intros n; reflexivity).
  split; [exact Hq|].
  destruct (Deposit env 1 (Float64.of_Z 5) "gift" w) as [[r|e] w'] eqn:E;
    [|vm_compute in E; discriminate].
  exists r, w'. split; [reflexivity|].
  destruct (Deposit_invalidates_its_wallet env 1 _ "gift" w r w' E) as [Hothers Hown].
  destruct (Hown Hq) as [Hkey Hpages].
  destruct (Hothers 2%N ltac:(discriminate)) as [Hkey2 Hpages2].
  split; [exact Hkey|]. split; [exact (Hpages 10 0)|]. split.
  - etrans; [exact Hkey2|reflexivity].
  - etrans; [exact (Hpages2 10 0)|reflexivity].
Defined.

(** X9: a read after a write sees the write. After a Deposit that
    succeeded, with a cache that answers and a store that answers the two
    queries of the read, GetWallet returns the wallet with the balance the
    deposit recorded as its balance after. *)
Theorem GetWallet_after_Deposit_is_fresh env id amount desc w r w' :
  Deposit env id amount desc w = (Ok r, w') ->
  cache_answers env ->
  storage_fault env (S (tick w')) = None ->
  storage_fault env (S (S (tick w'))) = None ->
  exists wallet w'',
    GetWallet env id w' = (Ok wallet, w'') /\
    Wallet.Balance wallet = Transaction.BalanceAfter r.
Proof.
  intros E Hq F1 F2.
  pose proof (Deposit_evicts_the_wallet_key env _ _ _ _ _ _ E Hq) as Hkey.
  pose proof (Deposit_cases env id amount desc w) as H. simpl in H. rewrite E in H.
  destruct H as (_ & row & now & Hrow & Hr & _ & _ & Hw & _).
  assert (Hrow' : wallets (db w') !! id
            = Some (Wallet.with_Balance row (Transaction.BalanceAfter r) now)).
  { rewrite Hw, lookup_alter_eq, Hrow. simpl. by rewrite Hr. }
  assert (Hmiss : cached_value env w' (wallet_cache_key id)
                    ≫= json_Unmarshal_wallet env = None).
  { unfold cached_value. by rewrite Hq, Hkey. }
  destruct (GetWallet_read_through env id w' _ Hmiss Hrow' F1 F2) as (w'' & G & _).
  eexists _, w''. split; [exact G|]. done.
Qed.

(** Wallet 1, cached with a balance of 0, is credited and read again. *)
Lemma GetWallet_after_Deposit_is_fresh_witness :
  let env := quiet Float64.amd64 in
  exists r w' wallet w'',
    Deposit env 1 (Float64.of_Z 5) "gift" cached_world = (Ok r, w') /\
    GetWallet env 1 w' = (Ok wallet, w'') /\
    Wallet.Balance wallet = 510.
Proof.
  intros env.
  destruct (Deposit env 1 (Float64.of_Z 5) "gift" cached_world) as [[r|e] w'] eqn:E;
    [|vm_compute in E; discriminate].
  destruct (GetWallet_after_Deposit_is_fresh env 1 _ "gift" cached_world r w' E)
    as (wallet & w'' & G & Hb); try (intros n; reflexivity); try reflexivity.
  exists r, w', wallet, w''. split; [reflexivity|]. split; [exact G|].
  rewrite Hb.
  pose proof (f_equal (fun x => match fst x with
                                | Ok r => Transaction.BalanceAfter r
                                | Err _ => 0
                                end) E) as H.
  vm_compute in H. symmetry. exact H.
Defined.

(** X10: when the cache fails while the wallet key is being deleted, the
    old entry outlives the deposit. If the wallet was cached before a
    Deposit that succeeded and the cache faulted on the deletion of its key
    (the ninth interaction of the call), then as long as the entry is
    alive and the cache answers again, GetWallet returns the wallet as it
    was cached, while the store holds the new balance. *)
Theorem GetWallet_after_failed_invalidation_is_stale
    env id amount desc w r w' entry cached :
  Deposit env id amount desc w = (Ok r, w') ->
  cache w !! wallet_cache_key id = Some entry ->
  cache_fault env (8 + tick w)%nat = true ->
  cache_fault env (tick w') = false ->
  time_Now env (tick w') < expires_at entry ->
  json_Unmarshal_wallet env (value entry) = Some cached ->
  GetWallet env id w' = (Ok cached, advance [RedisGet (wallet_cache_key id)] w') /\
  Wallet.Balance <$> wallets (db w') !! id = Some (Transaction.BalanceAfter r).
Proof.
  intros E Hentry Hdel Hget Hlive Hdecode.
  destruct (Deposit_before_invalidation env _ _ _ _ _ _ E)
    as (w1 & _ & Htick & Hcache & Hw').
  destruct (Deposit_invalidations_cache env id w1) as (Hwk & _ & _ & _ & _ & D4).
  rewrite Htick in D4. specialize (D4 Hdel).
  assert (Hkept : cache w' !! wallet_cache_key id = Some entry).
  { rewrite Hw', Hwk, D4, Hcache. done. }
  split.
  - apply (GetWallet_served_from_cache env id w' (value entry)); [|done].
    unfold cached_value. rewrite Hget, Hkept.
    by destruct (Z.ltb_spec (time_Now env (tick w')) (expires_at entry)); [|lia].
  - pose proof (Deposit_cases env id amount desc w) as H. simpl in H. rewrite E in H.
    destruct H as (_ & row & now & Hrow & Hr & _ & _ & Hw & _).
    rewrite Hw, lookup_alter_eq, Hrow. simpl. by rewrite Hr.
Qed.

(** Wallet 1 is cached as the zero wallet; the cache misses the deletion
    of its key during the deposit. *)
Lemma GetWallet_after_failed_invalidation_is_stale_witness :
  let env := Cases.cache_fault_at_8 in
  let w := cached_world in
  exists r w',
    Deposit env 1 (Float64.of_Z 5) "gift" w = (Ok r, w') /\
    GetWallet env 1 w'
      = (Ok (Wallet.mk 0 0 0 0 0 User.zero), advance [RedisGet "wallet:1"] w') /\
    Wallet.Balance <$> wallets (db w') !! 1%N = Some 510.
Proof.
  intros env w.
  destruct (Deposit env 1 (Float64.of_Z 5) "gift" w) as [[r|e] w'] eqn:E;
    [|vm_compute in E; discriminate].
  assert (Htick : tick w' = 10%nat).
  { pose proof (f_equal (fun x => tick (snd x)) E) as H. vm_compute in H.
    symmetry. exact H. }
  assert (Hget : cache_fault env (tick w') = false) by (rewrite Htick; reflexivity).
  assert (Hlive : time_Now env (tick w') < expires_at (mkEntry "{}" 1000)).
  { rewrite Htick. vm_compute. reflexivity. }
  destruct (GetWallet_after_failed_invalidation_is_stale env 1 _ "gift" w r w'
              (mkEntry "{}" 1000) (Wallet.mk 0 0 0 0 0 User.zero)
              E eq_refl eq_refl Hget Hlive eq_refl) as [G Hstore].
  exists r, w'. split; [reflexivity|]. split; [exact G|].
  rewrite Hstore. f_equal.
  pose proof (f_equal (fun x => match fst x with
                                | Ok r => Transaction.BalanceAfter r
                                | Err _ => 0
                                end) E) as H.
  vm_compute in H. symmetry. exact H.
Defined.

(** X11: two reads of the same wallet. A first GetWallet that misses the
    cache reads the store and caches the wallet for five minutes. A second
    read before the entry expires is served from the cache, with a single
    command to the cache and no statement to the store, and returns what
    the codec reads back from what it wrote; a second read once the entry
    has expired goes to the store again, with the same four statements as
    the first. *)
Theorem GetWallet_twice env id w row :
  cached_value env w (wallet_cache_key id) ≫= json_Unmarshal_wallet env = None ->
  wallets (db w) !! id = Some row ->
  storage_fault env (S (tick w)) = None ->
  storage_fault env (S (S (tick w))) = None ->
  cache_fault env (S (S (S (tick w)))) = false ->
  let wallet :=
    Wallet.with_User (Wallet.with_ID row id)
      (default User.zero (users (db w) !! Wallet.UserID row)) in
  let expiry := time_Now env (S (S (S (tick w)))) + 5 * Minute in
  exists w1,
    GetWallet env id w = (Ok wallet, w1) /\
    (forall cached,
       cache_fault env (tick w1) = false ->
       time_Now env (tick w1) < expiry ->
       json_Unmarshal_wallet env (json_Marshal_wallet env wallet) = Some cached ->
       GetWallet env id w1
         = (Ok cached, advance [RedisGet (wallet_cache_key id)] w1)) /\
    (expiry <= time_Now env (tick w1) ->
     storage_fault env (S (tick w1)) = None ->
     storage_fault env (S (S (tick w1))) = None ->
     exists w2, GetWallet env id w1 = (Ok wallet, w2) /\
       trace w2 = trace w1 ++ [RedisGet (wallet_cache_key id); SqlSelectWallet id;
                               SqlSelectUser (Wallet.UserID row);
                               RedisSet (wallet_cache_key id)
                                 (json_Marshal_wallet env wallet) (5 * Minute)]).
Proof.
  intros Hmiss Hrow F1 F2 Hset wallet expiry.
  destruct (GetWallet_read_through env id w row Hmiss Hrow F1 F2)
    as (w1 & E & Hdb & Htick & _ & Hcache).
  specialize (Hcache Hset). fold wallet expiry in E, Hcache.
  exists w1. split; [exact E|]. split.
  - intros cached Hget Hlive Hdecode.
    apply (GetWallet_served_from_cache env id w1 (json_Marshal_wallet env wallet));
      [|done].
    unfold cached_value. rewrite Hget, Hcache, lookup_insert_eq. simpl.
    by destruct (Z.ltb_spec (time_Now env (tick w1)) expiry); [|lia].
  - intros Hexp G1 G2.
    assert (Hmiss1 : cached_value env w1 (wallet_cache_key id)
                       ≫= json_Unmarshal_wallet env = None).
    { unfold cached_value. destruct (cache_fault env (tick w1)); [done|].
      rewrite Hcache, lookup_insert_eq. simpl.
      by destruct (Z.ltb_spec (time_Now env (tick w1)) expiry); [lia|]. }
    assert (Hrow1 : wallets (db w1) !! id = Some row) by (by rewrite Hdb).
    destruct (GetWallet_read_through env id w1 row Hmiss1 Hrow1 G1 G2)
      as (w2 & E2 & _ & _ & Htrace & _).
    rewrite Hdb in E2, Htrace. fold wallet in E2, Htrace. by exists w2.
Qed.

(** Wallet 1, read twice within five minutes. *)
Lemma GetWallet_twice_witness :
  let env := Cases.empty_object_codec in
  let w := world_of (two_wallets 10 20) in
  exists wallet w1,
    GetWallet env 1 w = (Ok wallet, w1) /\
    Wallet.Balance wallet = 10 /\
    GetWallet env 1 w1
      = (Ok (Wallet.mk 0 0 0 0 0 User.zero), advance [RedisGet "wallet:1"] w1).
Proof.
  intros env w.
  destruct (GetWallet_twice env 1 w (wallet_of 1 10) eq_refl eq_refl eq_refl
              eq_refl eq_refl) as (w1 & E & Hsecond & _).
  eexists _, w1. split; [exact E|]. split; [reflexivity|].
  assert (Htick : tick w1 = 4%nat).
  { pose proof (f_equal (fun x => tick (snd x)) E) as H. vm_compute in H.
    symmetry. exact H. }
  apply Hsecond.
  - rewrite Htick. reflexivity.
  - rewrite Htick. vm_compute. reflexivity.
  - reflexivity.
Defined.

(** ** Money: from minor units to dollars and back *)

Lemma all_below_spec p n k :
  all_below p n = true -> 0 <= k < Z.of_nat n -> p k = true.
Proof.
  induction n as [|n IH]; simpl; [lia|].
  rewrite andb_true_iff. intros [Hp Hall] Hk.
  destruct (decide (k = Z.of_nat n)) as [->|]; [done|].
  apply IH; [done|lia].
Qed.

Lemma survives_round_trip_spec arch n :
  survives_round_trip n = true ->
  Int64.in_range n -> Int64.in_range (n - 1) -> Int64.in_range (n + 1) ->
  let back := DollarsToMinorUnits arch (MinorUnitsToDollars n) in
  back = n \/ (0 < n /\ back = n - 1) \/ (n < 0 /\ back = n + 1).
Proof.
  unfold survives_round_trip, DollarsToMinorUnits. intros H R0 R1 R2.
  destruct (Float64.truncate _) as [z|] eqn:Ht; [|done].
  cbn zeta.
  assert (Hz : z = n \/ (0 < n /\ z = n - 1) \/ (n < 0 /\ z = n + 1)).
  { apply orb_true_iff in H as [H|H]; [apply orb_true_iff in H as [H|H]|].
    - left. lia.
    - right. left. apply andb_true_iff in H. lia.
    - right. right. apply andb_true_iff in H. lia. }
  rewrite (Float64Facts.to_int64_representable arch _ z Ht); [done|].
  unfold Float64.representable. rewrite Ht.
  apply Int64Facts.in_rangeb_spec.
  destruct Hz as [->|[[_ ->]|[_ ->]]]; done.
Qed.

Lemma round_trip_checked :
  all_below (fun k => survives_round_trip k && survives_round_trip (- k))
            (Z.to_nat 5000) = true.
Proof. vm_compute. reflexivity. Qed.

(** X12: an amount in minor units shown in dollars and converted back
    loses at most one unit, and never gains one. For every amount of less
    than 50 dollars, of either sign, [DollarsToMinorUnits] of
    [MinorUnitsToDollars] is the amount itself or the amount one unit
    nearer to zero, on every architecture. (The division by 100 rounds, and
    the product that undoes it may fall just below the integer, which the
    conversion to [int64] then truncates: 29 comes back as 28.) The same
    holds for a balance read with [GetBalanceInDollars] and written back
    with [SetBalanceFromDollars], and for the amount of a record. *)
Theorem minor_units_round_trip arch n :
  - 5000 < n < 5000 ->
  let back := DollarsToMinorUnits arch (MinorUnitsToDollars n) in
  (back = n \/ (0 < n /\ back = n - 1) \/ (n < 0 /\ back = n + 1)) /\
  (forall wal, Wallet.Balance wal = n ->
     Wallet.Balance
       (Wallet_SetBalanceFromDollars arch wal (Wallet_GetBalanceInDollars wal)) = back) /\
  (forall t, Transaction.Amount t = n ->
     Transaction.Amount
       (Transaction_SetAmountFromDollars arch t (Transaction_GetAmountInDollars t))
     = back).
Proof.
  intros Hn. split; [|split; by intros ? <-].
  assert (Hr : forall k, - 5001 <= k <= 5001 -> Int64.in_range k).
  { unfold Int64.in_range, Int64.min_int, Int64.max_int. lia. }
  apply survives_round_trip_spec; try (apply Hr; lia).
  pose proof round_trip_checked as Hall.
  destruct (decide (0 <= n)) as [Hpos|Hneg].
  - pose proof (all_below_spec _ _ n Hall) as H.
    cbv beta in H. apply andb_true_iff in H; [tauto|lia].
  - pose proof (all_below_spec _ _ (- n) Hall) as H.
    cbv beta in H. rewrite Z.opp_involutive in H.
    apply andb_true_iff in H; [tauto|lia].
Qed.

(** 29 cents are shown as 0.29 dollars, which convert back to 28 cents. *)
Lemma minor_units_round_trip_witness :
  - 5000 < 29 < 5000 /\
  DollarsToMinorUnits Float64.amd64 (MinorUnitsToDollars 29) = 28.
Proof.
  assert (Hn : - 5000 < 29 < 5000) by lia.
  split; [exact Hn|].
  destruct (minor_units_round_trip Float64.amd64 29 Hn) as [[E|[[_ E]|[Hneg _]]] _].
  - vm_compute in E. discriminate.
  - exact E.
  - lia.
Defined.

(** ** The listings of the repositories *)

Lemma elem_of_wallet_rows d wal :
  wal ∈ wallet_rows d <->
  exists row, wallets d !! Wallet.ID wal = Some row /\
              wal = Wallet.with_ID row (Wallet.ID wal).
Proof.
  unfold wallet_rows. rewrite list_elem_of_fmap. split.
  - intros [[k row] [-> Hin]]. apply elem_of_map_to_list in Hin.
    simpl. by exists row.
  - intros (row & Hrow & Hwal). exists (Wallet.ID wal, row). split; [done|].
    by apply elem_of_map_to_list.
Qed.

Lemma wallet_rows_ids d : Wallet.ID <$> wallet_rows d = (map_to_list (wallets d)).*1.
Proof.
  unfold wallet_rows. rewrite <-list_fmap_compose. by apply list_fmap_ext.
Qed.

(** X13: GetUserWallets lists the wallets of the user and no other. When
    the store faults the fault is returned; when it answers, a wallet is
    in the list exactly when the wallets table holds it with this user as
    owner, each wallet appears once, and a user without wallets gets the
    empty list, not an error. The store and the cache are left as they
    were. *)
Theorem GetUserWallets_lists_the_wallets_of_the_user env userID w :
  (forall msg, storage_fault env (tick w) = Some msg ->
     GetUserWallets env userID w = (Err (ErrDriver msg), advance [] w))
  /\ (storage_fault env (tick w) = None ->
      exists l,
        GetUserWallets env userID w = (Ok l, advance [] w) /\
        (forall wal, wal ∈ l <->
           exists row, wallets (db w) !! Wallet.ID wal = Some row /\
                       wal = Wallet.with_ID row (Wallet.ID wal) /\
                       Wallet.UserID row = userID) /\
        NoDup (Wallet.ID <$> l) /\
        ((forall k row, wallets (db w) !! k = Some row -> Wallet.UserID row <> userID) ->
         l = [])).
Proof.
  unfold GetUserWallets, walletRepo_GetByUserID, query. unfold_gorm. simpl.
  split.
  - by intros msg ->.
  - intros ->. eexists. split; [reflexivity|]. simpl. split; [|split].
    + intros wal. rewrite list_elem_of_filter, elem_of_wallet_rows. split.
      * intros [Hu (row & Hrow & Hwal)]. exists row. repeat split; try done.
        rewrite Hwal in Hu. by destruct row.
      * intros (row & Hrow & Hwal & Hu). split; [|by exists row].
        rewrite Hwal. by destruct row.
    + apply (NoDup_fmap_2_strong Wallet.ID).
      * intros x y Hx Hy Hxy.
        apply list_elem_of_filter in Hx as [_ Hx], Hy as [_ Hy].
        apply elem_of_wallet_rows in Hx as (rx & Hrx & Hx), Hy as (ry & Hry & Hy).
        assert (rx = ry) as -> by congruence.
        etrans; [exact Hx|]. by rewrite Hxy.
      * apply NoDup_filter.
        eapply NoDup_fmap_1 with (f := Wallet.ID).
        rewrite wallet_rows_ids. apply NoDup_fst_map_to_list.
    + intros Hnone.
      destruct (filter _ _) as [|wal l] eqn:E; [done|].
      assert (Hin : wal ∈ wal :: l) by left. rewrite <-E in Hin.
      apply list_elem_of_filter in Hin as [Hu Hin].
      apply elem_of_wallet_rows in Hin as (row & Hrow & Hwal).
      destruct (Hnone _ _ Hrow). rewrite Hwal in Hu. by destruct row.
Qed.

(** Alice owns wallets 1 and 3, bob owns wallet 2. *)
Lemma GetUserWallets_lists_the_wallets_of_the_user_witness :
  let env := quiet Float64.amd64 in
  let w := world_of Cases.two_users in
  exists l,
    GetUserWallets env 1 w = (Ok l, advance [] w) /\
    Wallet.mk 1 1 500 0 0 User.zero ∈ l /\
    Wallet.mk 3 1 0 0 0 User.zero ∈ l /\
    Wallet.mk 2 2 700 0 0 User.zero ∉ l.
Proof.
  intros env w.
  destruct (GetUserWallets_lists_the_wallets_of_the_user env 1 w) as [_ Hok].
  destruct (Hok eq_refl) as (l & E & Hiff & _).
  exists l. split; [exact E|]. split; [|split].
  - apply Hiff. eexists. split; [reflexivity|]. split; reflexivity.
  - apply Hiff. eexists. split; [reflexivity|]. split; reflexivity.
  - intros Hin. apply Hiff in Hin as (row & Hrow & _ & Hu).
    vm_compute in Hrow. injection Hrow as <-. discriminate.
Defined.

(** X14: a wallet that was just created is listed. After a CreateWallet
    that succeeded, GetUserWallets for the same user (the store answering)
    returns a list that holds the wallet exactly as CreateWallet returned
    it, and whatever else it holds are wallets the user owned before. *)
Theorem created_wallet_is_listed env u w wal w1 :
  CreateWallet env u w = (Ok wal, w1) ->
  storage_fault env (tick w1) = None ->
  exists l, GetUserWallets env u w1 = (Ok l, advance [] w1) /\
            wal ∈ l /\
            (forall other, other ∈ l -> Wallet.ID other <> Wallet.ID wal ->
               exists row, wallets (db w) !! Wallet.ID other = Some row /\
                           Wallet.UserID row = u).
Proof.
  intros Hc F.
  apply CreateWallet_ok in Hc as (_ & _ & Hu & Hid & Hw & _).
  unfold GetUserWallets, walletRepo_GetByUserID, query. unfold_gorm. simpl.
  rewrite F. eexists. split; [reflexivity|]. simpl. split.
  - apply list_elem_of_filter. split; [done|].
    apply elem_of_wallet_rows. exists wal. rewrite Hw, lookup_insert_eq.
    split; [done|]. by destruct wal.
  - intros other Hin Hne.
    apply list_elem_of_filter in Hin as [Hou Hin].
    apply elem_of_wallet_rows in Hin as (row & Hrow & Hwal).
    rewrite Hw, lookup_insert_ne in Hrow by done.
    exists row. split; [done|]. rewrite Hwal in Hou. by destruct row.
Qed.

(** The first wallet of alice. *)
Lemma created_wallet_is_listed_witness :
  let env := quiet Float64.amd64 in
  let w := world_of empty_db in
  exists wal w1 l,
    CreateWallet env 1 w = (Ok wal, w1) /\
    GetUserWallets env 1 w1 = (Ok l, advance [] w1) /\
    wal ∈ l /\ Wallet.ID wal = 1%N.
Proof.
  intros env w.
  destruct (CreateWallet env 1 w) as [[wal|e] w1] eqn:E;
    [|vm_compute in E; discriminate].
  destruct (created_wallet_is_listed env 1 w wal w1 E eq_refl) as (l & G & Hin & _).
  exists wal, w1, l. split; [reflexivity|]. split; [exact G|]. split; [exact Hin|].
  pose proof (f_equal (fun x => match fst x with
                                | Ok wal => Wallet.ID wal
                                | Err _ => 0%N
                                end) E) as H.
  vm_compute in H. symmetry. exact H.
Defined.

(** X15: [walletRepository.UpdateBalance] sets a balance without looking
    at it. When the store answers, the call reports success whether the
    wallet exists or not: for a wallet that does not exist no row changes;
    for one that exists its balance becomes the value given, whatever that
    value is, its modification time is set, and nothing else changes. *)
Theorem UpdateBalance_sets_without_checking env id newBalance w :
  storage_fault env (S (tick w)) = None ->
  exists w',
    walletRepo_UpdateBalance env id newBalance w = (Ok tt, w') /\
    users (db w') = users (db w) /\
    transactions (db w') = transactions (db w) /\
    (wallets (db w) !! id = None -> wallets (db w') = wallets (db w)) /\
    (forall row, wallets (db w) !! id = Some row ->
       wallets (db w')
         = <[id := Wallet.with_Balance row newBalance (time_Now env (tick w))]>
             (wallets (db w))).
Proof.
  intros F. unfold walletRepo_UpdateBalance, query. unfold_gorm. simpl.
  rewrite F. eexists. split; [reflexivity|]. simpl.
  split; [done|]. split; [done|]. split.
  - intros Hnone. apply map_eq. intros k.
    destruct (decide (k = id)) as [->|Hk].
    + rewrite lookup_alter_eq, Hnone. done.
    + by rewrite lookup_alter_ne.
  - intros row Hrow. apply map_eq. intros k.
    destruct (decide (k = id)) as [->|Hk].
    + rewrite lookup_alter_eq, lookup_insert_eq, Hrow. done.
    + by rewrite lookup_alter_ne, lookup_insert_ne.
Qed.

(** A wallet that does not exist, and a negative balance for wallet 2. *)
Lemma UpdateBalance_sets_without_checking_witness :
  let env := quiet Float64.amd64 in
  let w := world_of (two_wallets 10 20) in
  (exists w', walletRepo_UpdateBalance env 999 5 w = (Ok tt, w') /\
              wallets (db w') = wallets (db w))
  /\ exists w', walletRepo_UpdateBalance env 2 (-5) w = (Ok tt, w') /\
                Wallet.Balance <$> wallets (db w') !! 2%N = Some (-5).
Proof.
  intros env w. split.
  - destruct (UpdateBalance_sets_without_checking env 999 5 w eq_refl)
      as (w' & E & _ & _ & Hmissing & _).
    exists w'. split; [exact E|]. apply Hmissing. reflexivity.
  - destruct (UpdateBalance_sets_without_checking env 2 (-5) w eq_refl)
      as (w' & E & _ & _ & _ & Hfound).
    exists w'. split; [exact E|].
    rewrite (Hfound (wallet_of 2 20) eq_refl), lookup_insert_eq. reflexivity.
Defined.

(** X16: [transactionRepository.GetByUserID] returns records of the
    user's wallets only. When the store answers and the window is one
    MySQL accepts (the limit is not negative, or the offset is not
    positive), the rows returned are by decreasing creation time, each is
    a record of the ledger whose wallet exists and belongs to the user,
    and there are at most [limit] of them when the limit is not negative.
    For a negative limit with a positive offset the call returns the
    error of the store and no rows. *)
Theorem GetByUserID_returns_records_of_the_user env userID limit offset w :
  storage_fault env (tick w) = None ->
  (offset_without_limit limit offset = true ->
   exists e, transactionRepo_GetByUserID env userID limit offset w
             = (Err e, advance [] w))
  /\ (offset_without_limit limit offset = false ->
      exists rows,
        transactionRepo_GetByUserID env userID limit offset w
        = (Ok rows, advance [] w) /\
        descending rows /\
        (forall r, r ∈ rows ->
           r ∈ transactions (db w) /\
           exists row, wallets (db w) !! Transaction.WalletID r = Some row /\
                       Wallet.UserID row = userID) /\
        (0 <= limit -> (length rows <= Z.to_nat limit)%nat)).
Proof.
  intros F. unfold transactionRepo_GetByUserID, query. unfold_gorm. simpl.
  rewrite F. split; intros ->; [by eexists|].
  eexists. split; [reflexivity|]. split; [|split].
  - apply rows_in_window_descending, order_by_created_at_desc_descending.
  - intros r Hr. apply rows_in_window_subseteq in Hr.
    rewrite order_by_created_at_desc_Permutation in Hr.
    apply list_elem_of_filter in Hr as [Hu Hr]. split; [done|].
    simpl in Hu.
    destruct (wallets (db w) !! Transaction.WalletID r) as [row|] eqn:E;
      [|discriminate].
    exists row. split; [done|]. by injection Hu.
  - intros Hl. unfold rows_in_window.
    assert ((0 <=? limit) = true) as -> by lia.
    rewrite length_take. lia.
Qed.

(** The records of alice after Examples 1 and 2, and a window that MySQL
    refuses. *)
Lemma GetByUserID_returns_records_of_the_user_witness :
  let env := quiet Float64.amd64 in
  let w := run env salary_then_rent (world_of empty_db) in
  storage_fault env (tick w) = None /\
  (exists rows,
     transactionRepo_GetByUserID env 1 3 0 w = (Ok rows, advance [] w) /\
     descending rows /\
     Transaction.Description <$> rows = ["rent"; "rent"; "gift"])
  /\ exists e, transactionRepo_GetByUserID env 1 (-1) 1 w = (Err e, advance [] w).
Proof.
  intros env w.
  assert (F : storage_fault env (tick w) = None) by reflexivity.
  split; [exact F|].
  destruct (GetByUserID_returns_records_of_the_user env 1 3 0 w F) as [_ Hgood].
  destruct (GetByUserID_returns_records_of_the_user env 1 (-1) 1 w F) as [Hbad _].
  split; [|exact (Hbad eq_refl)].
  destruct (Hgood eq_refl) as (rows & E & Hdesc & _).
  exists rows. split; [exact E|]. split; [exact Hdesc|].
  pose proof (f_equal (fun x => match fst x with
                                | Ok rows => Transaction.Description <$> rows
                                | Err _ => []
                                end) E) as H.
  vm_compute in H. symmetry. exact H.
Defined.

(** ** Pages of a history *)

Lemma rows_in_window_pages {A} (limit offset : Z) (l : list A) :
  0 < limit -> 0 <= offset ->
  rows_in_window limit offset l ++ rows_in_window limit (offset + limit) l
  = rows_in_window (2 * limit) offset l.
Proof.
  intros Hl Ho. unfold rows_in_window.
  assert ((0 <=? limit) = true) as -> by lia.
  assert ((0 <=? 2 * limit) = true) as -> by lia.
  assert ((0 <? offset + limit) = true) as -> by lia.
  replace (Z.to_nat (offset + limit)) with (Z.to_nat offset + Z.to_nat limit)%nat by lia.
  replace (Z.to_nat (2 * limit)) with (Z.to_nat limit + Z.to_nat limit)%nat by lia.
  destruct (0 <? offset) eqn:E.
  - rewrite <-drop_drop. apply take_take_drop.
  - assert (offset = 0) as -> by lia. simpl. apply take_take_drop.
Qed.

(** Where no two rows have the same creation time, [ORDER BY created_at
    DESC] leaves the store no choice: every query orders the rows alike. *)
Lemma insert_desc_no_ties env env' n n' a l :
  Forall (fun b => Transaction.CreatedAt b <> Transaction.CreatedAt a) l ->
  insert_desc env n a l = insert_desc env' n' a l.
Proof.
  induction l as [|b l IH]; simpl; [done|].
  intros [Hb Hl]%Forall_cons. unfold sorts_before.
  assert ((Transaction.CreatedAt b =? Transaction.CreatedAt a) = false) as -> by lia.
  simpl. rewrite !orb_false_r. case_match; [done|]. f_equal. by apply IH.
Qed.

Lemma order_by_created_at_desc_no_ties env env' n n' rows :
  NoDup (Transaction.CreatedAt <$> rows) ->
  order_by_created_at_desc env n rows = order_by_created_at_desc env' n' rows.
Proof.
  unfold order_by_created_at_desc.
  induction rows as [|a rows IH]; simpl; [done|].
  intros [Ha Hnd]%NoDup_cons. rewrite <-(IH Hnd).
  apply insert_desc_no_ties. apply Forall_forall. intros b Hb E.
  fold (order_by_created_at_desc env n rows) in Hb.
  rewrite order_by_created_at_desc_Permutation in Hb.
  apply Ha. rewrite <-E. apply list_elem_of_fmap. by exists b.
Qed.

Section Pages.
Variable env : Env.

Lemma GetByWalletID_answers id limit offset w :
  storage_fault env (tick w) = None ->
  offset_without_limit limit offset = false ->
  transactionRepo_GetByWalletID env id limit offset w
  = (Ok (rows_in_window limit offset
           (order_by_created_at_desc env (tick w)
              (filter (fun r => Transaction.WalletID r = id) (transactions (db w))))),
     advance [SqlSelectTransactions id limit offset] w).
Proof.
  intros F Hgood. unfold transactionRepo_GetByWalletID. unfold_gorm. simpl.
  by rewrite F, Hgood.
Qed.

(** X17: consecutive pages tile a history without ties. For a wallet
    whose records have pairwise different creation times, over a store
    that answers and does not change in between, for a positive limit and
    an offset that is not negative, the page at [offset] followed by the
    page at [offset + limit] is the page of twice the limit at [offset]:
    no record is skipped and none is repeated, whatever order the store
    would give tied rows at each of the three queries. A page holds at
    most [limit] records, and when it holds fewer, the next page is
    empty. The queries leave the store as it was. (Between records of the
    same creation time the store chooses anew at each query, and pages
    need not fit together.) *)
Theorem consecutive_pages_tile_the_history id limit offset w :
  0 < limit -> 0 <= offset ->
  NoDup (Transaction.CreatedAt
           <$> filter (fun r => Transaction.WalletID r = id) (transactions (db w))) ->
  storage_fault env (tick w) = None ->
  storage_fault env (S (tick w)) = None ->
  storage_fault env (S (S (tick w))) = None ->
  exists p1 w1 p2 w2 both w3,
    transactionRepo_GetByWalletID env id limit offset w = (Ok p1, w1) /\
    transactionRepo_GetByWalletID env id limit (offset + limit) w1 = (Ok p2, w2) /\
    transactionRepo_GetByWalletID env id (2 * limit) offset w2 = (Ok both, w3) /\
    p1 ++ p2 = both /\
    (length p1 <= Z.to_nat limit)%nat /\
    ((length p1 < Z.to_nat limit)%nat -> p2 = []) /\
    db w3 = db w.
Proof.
  intros Hl Ho Hnd F0 F1 F2.
  assert (Hgood : forall l o, 0 < l -> offset_without_limit l o = false).
  { intros l o ?. unfold offset_without_limit.
    assert ((l <? 0) = false) as -> by lia. done. }
  do 6 eexists.
  split; [apply GetByWalletID_answers; [done|apply Hgood; lia]|].
  split; [apply GetByWalletID_answers; [done|apply Hgood; lia]|].
  split; [apply GetByWalletID_answers; [done|apply Hgood; lia]|].
  simpl.
  rewrite (order_by_created_at_desc_no_ties env env (S (tick w)) (tick w) _ Hnd).
  rewrite (order_by_created_at_desc_no_ties env env (S (S (tick w))) (tick w) _ Hnd).
  split; [by apply rows_in_window_pages|].
  split; [|split; [|done]].
  - unfold rows_in_window. assert ((0 <=? limit) = true) as -> by lia.
    rewrite length_take. lia.
  - unfold rows_in_window.
    assert ((0 <=? limit) = true) as -> by lia.
    assert ((0 <? offset + limit) = true) as -> by lia.
    set (rows := order_by_created_at_desc env _ _).
    rewrite length_take. intros Hshort.
    replace (Z.to_nat (offset + limit)) with (Z.to_nat offset + Z.to_nat limit)%nat by lia.
    rewrite drop_ge; [by rewrite take_nil|].
    destruct (0 <? offset) eqn:E.
    + rewrite length_drop in Hshort. lia.
    + assert (offset = 0) as -> by lia. simpl in *. lia.
Qed.

End Pages.

(** The history of wallet 1 after Examples 1 and 2, one record per page. *)
Lemma consecutive_pages_tile_the_history_witness :
  let env := quiet Float64.amd64 in
  let w := run env salary_then_rent (world_of empty_db) in
  NoDup (Transaction.CreatedAt
           <$> filter (fun r => Transaction.WalletID r = 1%N) (transactions (db w))) /\
  exists p1 w1 p2 w2,
    transactionRepo_GetByWalletID env 1 1 0 w = (Ok p1, w1) /\
    transactionRepo_GetByWalletID env 1 1 1 w1 = (Ok p2, w2) /\
    Transaction.Description <$> (p1 ++ p2) = ["rent"; "salary"].
Proof.
  intros env w.
  assert (Hnd : NoDup (Transaction.CreatedAt
                         <$> filter (fun r => Transaction.WalletID r = 1%N)
                               (transactions (db w)))).
  { apply (bool_decide_unpack _). vm_compute. reflexivity. }
  split; [exact Hnd|].
  destruct (consecutive_pages_tile_the_history env 1 1 0 w ltac:(lia) ltac:(lia)
              Hnd eq_refl eq_refl eq_refl)
    as (p1 & w1 & p2 & w2 & both & w3 & E1 & E2 & E3 & Hcat & _).
  exists p1, w1, p2, w2. split; [exact E1|]. split; [exact E2|].
  rewrite Hcat. clear Hcat.
  vm_compute in E1. injection E1 as <- <-.
  vm_compute in E2. injection E2 as <- <-.
  vm_compute in E3. injection E3 as <- _.
  reflexivity.
Defined.

(** ** The wallet endpoints *)

Section HandlerFacts.
Variable env : Env.
Variable strconv_ParseUint : string -> option N.
Variable strconv_Atoi : string -> Z.
Variable validator_Error_deposit : DepositRequest.t -> string.
Variable validator_Error_transfer : TransferRequest.t -> string.

Lemma page_limit_bounds limit : 1 <= page_limit limit <= 100.
Proof. unfold page_limit. case_match; lia. Qed.

Lemma page_limit_default limit : limit <= 0 \/ 100 < limit -> page_limit limit = 10.
Proof. unfold page_limit. intros H. case_match; lia. Qed.

Lemma GetWallet_same_rows id w res w1 :
  GetWallet env id w = (res, w1) -> db w1 = db w.
Proof. intros E. pose proof (GetWallet_db env id w) as H. by rewrite E in H. Qed.

Lemma same_rows_eq d d' : d' = d -> same_rows d d'.
Proof. intros ->. apply same_rows_refl. Qed.

Lemma same_rows_via d d1 d' : d1 = d -> same_rows d1 d' -> same_rows d d'.
Proof. by intros ->. Qed.

Ltac refused rows :=
  intros [= <- <-]; split; [done|]; split; [intros _; rows|];
  split; [intros; simplify_eq/=; try done; congruence|done].

(** X18: the deposit endpoint writes only for the owner of the wallet.
    It answers 200 only when the request decoded and passed validation,
    the middleware stored a user, GetWallet returned a wallet owned by
    that user, and the deposit wrote exactly one record, on the wallet of
    the request, which the body shows. With any other status the rows of
    the store are as before. A body that does not decode or a request that
    fails validation is answered with 400 before the store or the cache is
    consulted. *)
Theorem Deposit_handler_writes_only_for_the_owner bound user_id w resp w' :
  WalletHandler_Deposit env validator_Error_deposit bound user_id w = (resp, w') ->
  (status resp = Http.StatusOK ->
     exists req u wallet w1 r,
       bound = Some req /\ user_id = Some u /\ DepositRequest_valid req = true /\
       GetWallet env (DepositRequest.WalletID req) w = (Ok wallet, w1) /\
       Wallet.UserID wallet = u /\
       written w w' = [r] /\
       Transaction.WalletID r = DepositRequest.WalletID req /\
       body resp = TransactionData (transaction_view (fun _ => None) r))
  /\ (status resp <> Http.StatusOK -> same_rows (db w) (db w'))
  /\ (forall req, bound = Some req -> DepositRequest_valid req = false ->
        status resp = Http.StatusBadRequest /\ w' = w)
  /\ (bound = None -> status resp = Http.StatusBadRequest /\ w' = w).
Proof.
  unfold WalletHandler_Deposit, check_owner, respond.
  destruct bound as [req|]; [|refused ltac:(apply same_rows_refl)].
  destruct (DepositRequest_valid req) eqn:Hvalid; simpl;
    [|refused ltac:(apply same_rows_refl)].
  destruct (GetWallet env _ w) as [[wallet|e] w1] eqn:Eg;
    [|refused ltac:(apply same_rows_eq, (GetWallet_same_rows _ _ _ _ Eg))].
  pose proof (GetWallet_same_rows _ _ _ _ Eg) as Hdb1.
  destruct user_id as [u|]; [|refused ltac:(by apply same_rows_eq)].
  destruct (N.eqb_spec (Wallet.UserID wallet) u) as [Hu|Hu]; simpl;
    [|refused ltac:(by apply same_rows_eq)].
  pose proof (Deposit_cases env (DepositRequest.WalletID req)
                (DepositRequest.Amount req) (DepositRequest.Description req) w1) as Hd.
  simpl in Hd.
  destruct (Deposit env _ _ _ w1) as [[r|e] w2];
    intros [= <- <-]; simpl.
  - destruct Hd as (_ & row & now & _ & Hr & _ & _ & _ & Ht).
    split; [|split; [done|split; [intros; simplify_eq/=; try done; congruence|done]]]. intros _.
    exists req, u, wallet, w1, r. repeat split; try done.
    + apply written_app. by rewrite Ht, Hdb1.
    + by rewrite Hr.
  - split; [done|]. split; [|split; [intros; simplify_eq/=; try done; congruence|done]].
    intros _. by apply (same_rows_via _ (db w1)).
Qed.

(** X19: the transfer endpoint checks the owner of the source wallet. It
    answers 200 only when the request decoded and passed validation, the
    middleware stored a user, GetWallet returned a source wallet owned by
    that user, and the transfer wrote exactly two records, the debit on
    the source (which the body shows) and the credit on the destination;
    the owner of the destination is not looked at. With any other status
    the rows of the store are as before, and a request that does not
    decode or fails validation is answered with 400 before anything is
    consulted. *)
Theorem Transfer_handler_checks_the_source_only bound user_id w resp w' :
  WalletHandler_Transfer env validator_Error_transfer bound user_id w = (resp, w') ->
  (status resp = Http.StatusOK ->
     exists req u fromWallet w1 debit credit,
       bound = Some req /\ user_id = Some u /\ TransferRequest_valid req = true /\
       GetWallet env (TransferRequest.FromWalletID req) w = (Ok fromWallet, w1) /\
       Wallet.UserID fromWallet = u /\
       written w w' = [debit; credit] /\
       Transaction.WalletID debit = TransferRequest.FromWalletID req /\
       Transaction.WalletID credit = TransferRequest.ToWalletID req /\
       body resp = TransactionData (transaction_view Some debit))
  /\ (status resp <> Http.StatusOK -> same_rows (db w) (db w'))
  /\ (forall req, bound = Some req -> TransferRequest_valid req = false ->
        status resp = Http.StatusBadRequest /\ w' = w)
  /\ (bound = None -> status resp = Http.StatusBadRequest /\ w' = w).
Proof.
  unfold WalletHandler_Transfer, check_owner, respond.
  destruct bound as [req|]; [|refused ltac:(apply same_rows_refl)].
  destruct (TransferRequest_valid req) eqn:Hvalid; simpl;
    [|refused ltac:(apply same_rows_refl)].
  destruct (GetWallet env _ w) as [[wallet|e] w1] eqn:Eg;
    [|refused ltac:(apply same_rows_eq, (GetWallet_same_rows _ _ _ _ Eg))].
  pose proof (GetWallet_same_rows _ _ _ _ Eg) as Hdb1.
  destruct user_id as [u|]; [|refused ltac:(by apply same_rows_eq)].
  destruct (N.eqb_spec (Wallet.UserID wallet) u) as [Hu|Hu]; simpl;
    [|refused ltac:(by apply same_rows_eq)].
  pose proof (Transfer_cases env (TransferRequest.FromWalletID req)
                (TransferRequest.ToWalletID req)
                (TransferRequest.Amount req) (TransferRequest.Description req) w1) as Hd.
  simpl in Hd.
  destruct (Transfer env _ _ _ _ w1) as [[r|e] w2];
    intros [= <- <-]; simpl; destruct Hd as [_ Hd].
  - destruct Hd as (_ & _ & ra & rb & na & nb & credit & _ & _ & _ & Hr & Hc & _ & _ & _
                    & _ & _ & Ht & _).
    split; [|split; [done|split; [intros; simplify_eq/=; try done; congruence|done]]]. intros _.
    exists req, u, wallet, w1, r, credit. repeat split; try done.
    + apply written_app. by rewrite Ht, Hdb1.
    + by rewrite Hr.
    + by rewrite Hc.
  - split; [done|]. split; [|split; [intros; simplify_eq/=; try done; congruence|done]].
    intros _. by apply (same_rows_via _ (db w1)).
Qed.

(** X20: the answers of the endpoint that shows a wallet. It never
    changes the store. An identifier that does not parse is answered with
    400 before anything is consulted. It answers 200 only with a wallet
    that GetWallet returned and that the user of the request owns. When
    the wallet is read from the store: a wallet that does not exist is
    404, whoever asks; a wallet of another user is 403 "Access denied"; a
    wallet of the user is 200 with the identifier, the owner, the creation
    time and the balance in dollars of the row. *)
Theorem GetWallet_handler_answers id user_id w resp w' :
  WalletHandler_GetWallet env strconv_ParseUint id user_id w = (resp, w') ->
  db w' = db w
  /\ (strconv_ParseUint id = None -> status resp = Http.StatusBadRequest /\ w' = w)
  /\ (status resp = Http.StatusOK ->
      exists walletID u wallet,
        strconv_ParseUint id = Some walletID /\ user_id = Some u /\
        GetWallet env walletID w = (Ok wallet, w') /\
        Wallet.UserID wallet = u /\
        body resp = WalletData (wallet_view wallet))
  /\ (forall walletID,
        strconv_ParseUint id = Some walletID ->
        cached_value env w (wallet_cache_key walletID) ≫= json_Unmarshal_wallet env = None ->
        storage_fault env (S (tick w)) = None ->
        storage_fault env (S (S (tick w))) = None ->
        match wallets (db w) !! walletID, user_id with
        | None, _ => status resp = Http.StatusNotFound
        | Some row, None => status resp = Http.StatusInternalServerError
        | Some row, Some u =>
            if decide (Wallet.UserID row = u)
            then status resp = Http.StatusOK /\
                 body resp = WalletData
                   (mkWalletView walletID u (MinorUnitsToDollars (Wallet.Balance row))
                      (Wallet.CreatedAt row))
            else status resp = Http.StatusForbidden /\
                 body resp = ErrorBody "Access denied"
        end).
Proof.
  unfold WalletHandler_GetWallet, check_owner, respond.
  destruct (strconv_ParseUint id) as [walletID|];
    [|intros [= <- <-]; by repeat split].
  destruct (GetWallet env walletID w) as [[wallet|e] w1] eqn:Eg.
  - pose proof (GetWallet_same_rows _ _ _ _ Eg) as Hdb1.
    intros E. split; [|split; [done|split]].
    + by repeat (case_match; simplify_eq/=).
    + intros Hok. destruct user_id as [u|]; [|by simplify_eq/=].
      destruct (N.eqb_spec (Wallet.UserID wallet) u); simplify_eq/=.
      by eexists _, _, _.
    + intros ? [= <-] Hmiss F1 F2.
      destruct (wallets (db w) !! walletID) as [row|] eqn:Hrow.
      * destruct (GetWallet_read_through env walletID w row Hmiss Hrow F1 F2)
          as (w2 & Eg2 & _).
        rewrite Eg in Eg2. injection Eg2 as -> ->.
        destruct user_id as [u|]; [|by simplify_eq/=].
        simpl in E. destruct (decide (Wallet.UserID row = u)) as [Hu|Hu].
        -- apply N.eqb_eq in Hu as Hu'. rewrite Hu' in E. simplify_eq/=. done.
        -- apply N.eqb_neq in Hu as Hu'. rewrite Hu' in E. simplify_eq/=. done.
      * exfalso. revert Eg. unfold GetWallet, redis_Get, mbind at 1, M_bind at 1.
        rewrite Hmiss. unfold walletRepo_GetByID. unfold_gorm. simpl.
        rewrite F1. simpl. by rewrite Hrow.
  - pose proof (GetWallet_same_rows _ _ _ _ Eg) as Hdb1.
    intros [= <- <-]. split; [done|]. split; [done|]. split; [done|].
    intros ? [= <-] Hmiss F1 F2.
    destruct (wallets (db w) !! walletID) as [row|] eqn:Hrow; [|done].
    destruct (GetWallet_read_through env walletID w row Hmiss Hrow F1 F2)
      as (w2 & Eg2 & _).
    by rewrite Eg in Eg2.
Qed.

Lemma cache_down_miss key w : cache_down env -> cached_value env w key = None.
Proof. intros H. unfold cached_value. by rewrite H. Qed.

Lemma GetWallet_from_store id w wallet w1 :
  cached_value env w (wallet_cache_key id) ≫= json_Unmarshal_wallet env = None ->
  GetWallet env id w = (Ok wallet, w1) ->
  exists row, wallets (db w) !! id = Some row /\
              Wallet.ID wallet = id /\
              Wallet.UserID wallet = Wallet.UserID row /\
              Wallet.Balance wallet = Wallet.Balance row /\
              db w1 = db w.
Proof.
  intros Hmiss. unfold GetWallet, redis_Get, mbind at 1, M_bind at 1.
  rewrite Hmiss. unfold walletRepo_GetByID, redis_Set. unfold_gorm. simpl.
  repeat (case_match; simplify_eq/=; try done); intros [= <- <-];
    eexists; (split; [eassumption|]); by repeat split.
Qed.

Lemma GetTransactions_from_store id limit offset w rows w1 :
  cached_value env w (transactions_cache_key id limit offset)
    ≫= json_Unmarshal_transactions env = None ->
  GetTransactions env id limit offset w = (Ok rows, w1) ->
  rows = rows_in_window limit offset
           (order_by_created_at_desc env (S (tick w))
              (filter (fun r => Transaction.WalletID r = id) (transactions (db w)))).
Proof.
  intros Hmiss. unfold GetTransactions, redis_Get, mbind at 1, M_bind at 1.
  rewrite Hmiss. unfold transactionRepo_GetByWalletID, redis_Set. unfold_gorm. simpl.
  repeat (case_match; simplify_eq/=; try done); by intros [= <- <-].
Qed.

(** X21: the history endpoint shows at most 100 records of a wallet of
    the user. With the cache out of reach, it never changes the store, and
    a 200 answer means that the wallet exists in the store and belongs to
    the user of the request, that every record shown is a record of that
    wallet, and that at most 100 records are shown: at most 10 when the
    limit asked for is below 1 or above 100. *)
Theorem GetTransactions_handler_page_is_bounded
    id user_id limit_param offset_param w resp w' :
  cache_down env ->
  WalletHandler_GetTransactions env strconv_ParseUint strconv_Atoi
    id user_id limit_param offset_param w = (resp, w') ->
  db w' = db w /\
  (status resp = Http.StatusOK ->
   exists walletID u row page,
     strconv_ParseUint id = Some walletID /\ user_id = Some u /\
     wallets (db w) !! walletID = Some row /\ Wallet.UserID row = u /\
     body resp = TransactionsData page /\
     (length page <= 100)%nat /\
     (let limit := strconv_Atoi (DefaultQuery limit_param "10") in
      limit <= 0 \/ 100 < limit -> (length page <= 10)%nat) /\
     (forall v, v ∈ page -> view_wallet_id v = walletID)).
Proof.
  intros Hdown.
  unfold WalletHandler_GetTransactions, check_owner, respond.
  destruct (strconv_ParseUint id) as [walletID|]; [|by intros [= <- <-]].
  destruct (GetWallet env walletID w) as [[wallet|e] w1] eqn:Eg.
  2:{ intros [= <- <-]. split; [|done]. apply (GetWallet_same_rows _ _ _ _ Eg). }
  destruct (GetWallet_from_store walletID w wallet w1) as (row & Hrow & _ & Hu & _ & Hdb1);
    [by rewrite cache_down_miss|done|].
  destruct user_id as [u|]; [|by intros [= <- <-]].
  destruct (N.eqb_spec (Wallet.UserID wallet) u) as [Hwu|Hwu]; simpl;
    [|by intros [= <- <-]].
  set (limit := page_limit _). set (offset := strconv_Atoi (DefaultQuery offset_param _)).
  pose proof (GetTransactions_db env walletID limit offset w1) as Hdb2.
  destruct (GetTransactions env walletID limit offset w1) as [[rows|e] w2] eqn:Et;
    intros [= <- <-]; simpl in *; (split; [congruence|]); [|done].
  intros _. exists walletID, u, row, (transaction_view (fmap Some) <$> rows).
  apply GetTransactions_from_store in Et; [|by rewrite cache_down_miss].
  pose proof (page_limit_bounds (strconv_Atoi (DefaultQuery limit_param "10"))) as Hb.
  fold limit in Hb.
  assert (Hlen : (length rows <= Z.to_nat limit)%nat).
  { rewrite Et. unfold rows_in_window.
    assert ((0 <=? limit) = true) as -> by lia. rewrite length_take. lia. }
  repeat split; try done; try congruence.
  - rewrite length_fmap. lia.
  - intros Hout. rewrite length_fmap.
    apply page_limit_default in Hout. fold limit in Hout. lia.
  - intros v Hv. apply list_elem_of_fmap in Hv as (r & -> & Hr). simpl.
    rewrite Et in Hr. apply rows_in_window_subseteq in Hr.
    rewrite order_by_created_at_desc_Permutation in Hr.
    by apply list_elem_of_filter in Hr as [? _].
Qed.

(** X22: the answers of the endpoint that creates a wallet. Without a
    user stored by the middleware it answers 401 and consults nothing.
    A 201 answer shows the wallet that was added to the store: it carries
    the next identifier of the wallets table, belongs to the user of the
    request and has a balance of zero dollars. With any other status the
    rows of the store are as before. *)
Theorem CreateWallet_handler_answers user_id w resp w' :
  WalletHandler_CreateWallet env user_id w = (resp, w') ->
  (user_id = None -> status resp = Http.StatusUnauthorized /\ w' = w)
  /\ (status resp = Http.StatusCreated ->
      exists u v row,
        user_id = Some u /\ body resp = WalletData v /\
        view_id v = wallets_auto_increment (db w) /\
        view_user_id v = u /\ view_balance v = Float64.zero /\
        wallets (db w') !! view_id v = Some row /\
        Wallet.UserID row = u /\ Wallet.Balance row = 0)
  /\ (status resp <> Http.StatusCreated -> same_rows (db w) (db w')).
Proof.
  unfold WalletHandler_CreateWallet, respond.
  destruct user_id as [u|].
  2:{ intros [= <- <-]. repeat split; try done. }
  destruct (CreateWallet env u w) as [[wal|e] w1] eqn:Ec; intros [= <- <-]; simpl.
  - apply CreateWallet_ok in Ec as (_ & Hb & Hu & Hid & Hw & _).
    split; [done|]. split; [|done]. intros _.
    exists u, (wallet_view wal), wal. simpl. rewrite Hb.
    split; [done|]. split; [done|]. split; [done|]. split; [done|].
    split; [by vm_compute|]. split; [|done].
    by rewrite Hw, lookup_insert_eq.
  - split; [done|]. split; [done|]. intros _.
    revert Ec. unfold CreateWallet, userRepo_GetByID, walletRepo_Create,
      invalidateUserCache, redis_Del. unfold_gorm. simpl.
    repeat (case_match; simplify_eq/=; try done); intros; simplify_eq/=;
      by repeat split.
Qed.

End HandlerFacts.

(** Alice deposits on her wallet 1; bob tries the same deposit. *)
Lemma Deposit_handler_writes_only_for_the_owner_witness :
  let env := quiet Float64.amd64 in
  let w := world_of Cases.two_users in
  let req := DepositRequest.mk 1 (Float64.of_Z 5) "gift" in
  (exists resp w',
     WalletHandler_Deposit env Cases.validator_Error (Some req) (Some 1%N) w = (resp, w') /\
     status resp = Http.StatusOK /\ length (written w w') = 1%nat)
  /\ (exists resp w',
        WalletHandler_Deposit env Cases.validator_Error (Some req) (Some 2%N) w = (resp, w') /\
        status resp = Http.StatusForbidden /\ same_rows (db w) (db w')).
Proof.
  intros env w req. split.
  - destruct (WalletHandler_Deposit env Cases.validator_Error (Some req) (Some 1%N) w)
      as [resp w'] eqn:E.
    assert (Hs : status resp = Http.StatusOK).
    { pose proof (f_equal (fun x => status (fst x)) E) as H. vm_compute in H.
      symmetry. exact H. }
    destruct (Deposit_handler_writes_only_for_the_owner env _ _ _ _ _ _ E) as (Hok & _).
    destruct (Hok Hs) as (req' & u & wallet & w1 & r & _ & _ & _ & _ & _ & Hw & _).
    exists resp, w'. split; [reflexivity|]. split; [exact Hs|]. by rewrite Hw.
  - destruct (WalletHandler_Deposit env Cases.validator_Error (Some req) (Some 2%N) w)
      as [resp w'] eqn:E.
    assert (Hs : status resp = Http.StatusForbidden).
    { pose proof (f_equal (fun x => status (fst x)) E) as H. vm_compute in H.
      symmetry. exact H. }
    destruct (Deposit_handler_writes_only_for_the_owner env _ _ _ _ _ _ E)
      as (_ & Hrows & _).
    exists resp, w'. split; [reflexivity|]. split; [exact Hs|].
    apply Hrows. rewrite Hs. discriminate.
Defined.

(** Alice sends 2 dollars from her wallet 1 to bob's wallet 2; bob tries
    to send from alice's wallet 1 to his own. *)
Lemma Transfer_handler_checks_the_source_only_witness :
  let env := quiet Float64.amd64 in
  let w := world_of Cases.two_users in
  let req := TransferRequest.mk 1 2 (Float64.of_Z 2) "rent" in
  (exists resp w',
     WalletHandler_Transfer env Cases.validator_Error (Some req) (Some 1%N) w = (resp, w') /\
     status resp = Http.StatusOK /\ length (written w w') = 2%nat)
  /\ (exists resp w',
        WalletHandler_Transfer env Cases.validator_Error (Some req) (Some 2%N) w = (resp, w') /\
        status resp = Http.StatusForbidden /\ same_rows (db w) (db w')).
Proof.
  intros env w req. split.
  - destruct (WalletHandler_Transfer env Cases.validator_Error (Some req) (Some 1%N) w)
      as [resp w'] eqn:E.
    assert (Hs : status resp = Http.StatusOK).
    { pose proof (f_equal (fun x => status (fst x)) E) as H. vm_compute in H.
      symmetry. exact H. }
    destruct (Transfer_handler_checks_the_source_only env _ _ _ _ _ _ E) as (Hok & _).
    destruct (Hok Hs) as (req' & u & wallet & w1 & debit & credit & _ & _ & _ & _ & _
                          & Hw & _).
    exists resp, w'. split; [reflexivity|]. split; [exact Hs|]. by rewrite Hw.
  - destruct (WalletHandler_Transfer env Cases.validator_Error (Some req) (Some 2%N) w)
      as [resp w'] eqn:E.
    assert (Hs : status resp = Http.StatusForbidden).
    { pose proof (f_equal (fun x => status (fst x)) E) as H. vm_compute in H.
      symmetry. exact H. }
    destruct (Transfer_handler_checks_the_source_only env _ _ _ _ _ _ E)
      as (_ & Hrows & _).
    exists resp, w'. split; [reflexivity|]. split; [exact Hs|].
    apply Hrows. rewrite Hs. discriminate.
Defined.

(** Bob asks for alice's wallet 1, and for a wallet that does not exist. *)
Lemma GetWallet_handler_answers_witness :
  let env := quiet Float64.amd64 in
  let w := world_of Cases.two_users in
  (exists resp w',
     WalletHandler_GetWallet env Cases.ParseUint "1" (Some 2%N) w = (resp, w') /\
     status resp = Http.StatusForbidden /\ body resp = ErrorBody "Access denied")
  /\ (exists resp w',
        WalletHandler_GetWallet env Cases.ParseUint "999999" (Some 2%N) w = (resp, w') /\
        status resp = Http.StatusNotFound)
  /\ (exists resp w',
        WalletHandler_GetWallet env Cases.ParseUint "2" (Some 2%N) w = (resp, w') /\
        status resp = Http.StatusOK /\
        body resp = WalletData (mkWalletView 2 2 (MinorUnitsToDollars 700) 0)).
Proof.
  intros env w. split; [|split].
  - destruct (WalletHandler_GetWallet env Cases.ParseUint "1" (Some 2%N) w)
      as [resp w'] eqn:E.
    destruct (GetWallet_handler_answers env _ _ _ _ _ _ E) as (_ & _ & _ & Hstore).
    specialize (Hstore 1%N eq_refl eq_refl eq_refl eq_refl).
    exists resp, w'. split; [reflexivity|]. exact Hstore.
  - destruct (WalletHandler_GetWallet env Cases.ParseUint "999999" (Some 2%N) w)
      as [resp w'] eqn:E.
    destruct (GetWallet_handler_answers env _ _ _ _ _ _ E) as (_ & _ & _ & Hstore).
    specialize (Hstore 999999%N eq_refl eq_refl eq_refl eq_refl).
    exists resp, w'. split; [reflexivity|]. exact Hstore.
  - destruct (WalletHandler_GetWallet env Cases.ParseUint "2" (Some 2%N) w)
      as [resp w'] eqn:E.
    destruct (GetWallet_handler_answers env _ _ _ _ _ _ E) as (_ & _ & _ & Hstore).
    specialize (Hstore 2%N eq_refl eq_refl eq_refl eq_refl).
    exists resp, w'. split; [reflexivity|]. exact Hstore.
Defined.

(** Alice asks for 1000 records of her wallet 1 after Examples 1 and 2. *)
Lemma GetTransactions_handler_page_is_bounded_witness :
  let env := Cases.no_cache in
  let w := run env salary_then_rent (world_of empty_db) in
  cache_down env /\
  exists resp w' page,
    WalletHandler_GetTransactions env Cases.ParseUint Cases.Atoi
      "1" (Some 1%N) (Some "1000") None w = (resp, w') /\
    status resp = Http.StatusOK /\
    body resp = TransactionsData page /\ (length page <= 10)%nat.
Proof.
  intros env w.
  assert (Hdown : cache_down env) by (intros n; reflexivity).
  split; [exact Hdown|].
  destruct (WalletHandler_GetTransactions env Cases.ParseUint Cases.Atoi
              "1" (Some 1%N) (Some "1000") None w) as [resp w'] eqn:E.
  assert (Hs : status resp = Http.StatusOK).
  { pose proof (f_equal (fun x => status (fst x)) E) as H. vm_compute in H.
    symmetry. exact H. }
  destruct (GetTransactions_handler_page_is_bounded env _ _ _ _ _ _ _ _ _ Hdown E)
    as (_ & Hok).
  destruct (Hok Hs) as (walletID & u & row & page & _ & _ & _ & _ & Hbody & _ & Hten & _).
  exists resp, w', page. split; [reflexivity|]. split; [exact Hs|].
  split; [exact Hbody|]. apply Hten. right. vm_compute. reflexivity.
Defined.

(** A request without a user, and the first wallet of alice. *)
Lemma CreateWallet_handler_answers_witness :
  let env := quiet Float64.amd64 in
  let w := world_of empty_db in
  WalletHandler_CreateWallet env None w
    = (mkResponse Http.StatusUnauthorized (ErrorBody "User not authenticated"), w)
  /\ exists resp w' v,
       WalletHandler_CreateWallet env (Some 1%N) w = (resp, w') /\
       status resp = Http.StatusCreated /\
       body resp = WalletData v /\ view_id v = 1%N /\ view_balance v = Float64.zero.
Proof.
  intros env w. split; [reflexivity|].
  destruct (WalletHandler_CreateWallet env (Some 1%N) w) as [resp w'] eqn:E.
  assert (Hs : status resp = Http.StatusCreated).
  { pose proof (f_equal (fun x => status (fst x)) E) as H. vm_compute in H.
    symmetry. exact H. }
  destruct (CreateWallet_handler_answers env _ _ _ _ E) as (_ & Hok & _).
  destruct (Hok Hs) as (u & v & row & _ & Hbody & Hid & _ & Hzero & _).
  exists resp, w', v. split; [reflexivity|]. split; [exact Hs|].
  split; [exact Hbody|]. split; [exact Hid|exact Hzero].
Defined.

(** X26: the endpoint that lists wallets shows a user their own wallets
    only. Without a user stored by the middleware it answers 401 and
    consults nothing; a fault of the store is answered with 500 and its
    text; a 200 answer lists, for each wallet the store holds for the user
    of the request and for no other wallet, its identifier, its owner and
    its balance in dollars. The store and the cache are never changed. *)
Theorem GetUserWallets_handler_answers env user_id w resp w' :
  WalletHandler_GetUserWallets env user_id w = (resp, w') ->
  db w' = db w /\ cache w' = cache w
  /\ (user_id = None -> status resp = Http.StatusUnauthorized /\ w' = w)
  /\ (forall u msg, user_id = Some u -> storage_fault env (tick w) = Some msg ->
        resp = mkResponse Http.StatusInternalServerError (ErrorBody msg))
  /\ (status resp = Http.StatusOK ->
      exists u views,
        user_id = Some u /\ body resp = WalletsData views /\
        (forall v, v ∈ views ->
           view_user_id v = u /\
           exists row, wallets (db w) !! view_id v = Some row /\
                       Wallet.UserID row = u /\
                       view_balance v = MinorUnitsToDollars (Wallet.Balance row)) /\
        (forall k row, wallets (db w) !! k = Some row -> Wallet.UserID row = u ->
           exists v, v ∈ views /\ view_id v = k)).
Proof.
  unfold WalletHandler_GetUserWallets, respond, GetUserWallets, walletRepo_GetByUserID,
    query. unfold_gorm.
  destruct user_id as [u|]; [|by intros [= <- <-]].
  simpl. destruct (storage_fault env (tick w)) as [msg|] eqn:F; simpl;
    intros [= <- <-]; simpl.
  { split; [done|]. split; [done|]. split; [done|]. split; [|done].
    by intros ? ? [= <-] [= <-]. }
  split; [done|]. split; [done|]. split; [done|]. split; [done|].
  intros _. eexists u, _. split; [done|]. split; [done|]. split.
  - intros v (wal & -> & Hin)%list_elem_of_fmap.
    apply list_elem_of_filter in Hin as [Hu Hin].
    apply elem_of_wallet_rows in Hin as (row & Hrow & Hwal).
    simpl. split; [done|]. exists row. split; [done|].
    rewrite Hwal in Hu |- *. by destruct row.
  - intros k row Hrow Hu. exists (wallet_view (Wallet.with_ID row k)).
    split; [|done]. apply list_elem_of_fmap. eexists. split; [done|].
    apply list_elem_of_filter. split; [by destruct row|].
    apply elem_of_wallet_rows. exists row. by destruct row.
Qed.

(** Bob lists his wallets: wallet 2, with 7 dollars. *)
Lemma GetUserWallets_handler_answers_witness :
  let env := quiet Float64.amd64 in
  let w := world_of Cases.two_users in
  exists resp w' views,
    WalletHandler_GetUserWallets env (Some 2%N) w = (resp, w') /\
    status resp = Http.StatusOK /\
    body resp = WalletsData views /\
    (forall v, v ∈ views -> view_user_id v = 2%N) /\
    (exists v, v ∈ views /\ view_id v = 2%N).
Proof.
  intros env w.
  destruct (WalletHandler_GetUserWallets env (Some 2%N) w) as [resp w'] eqn:E.
  assert (Hs : status resp = Http.StatusOK).
  { pose proof (f_equal (fun x => status (fst x)) E) as H. vm_compute in H.
    symmetry. exact H. }
  destruct (GetUserWallets_handler_answers env _ _ _ _ E) as (_ & _ & _ & _ & Hok).
  destruct (Hok Hs) as (u & views & Hu & Hbody & Hown & Hall).
  injection Hu as <-.
  exists resp, w', views. split; [reflexivity|]. split; [exact Hs|].
  split; [exact Hbody|]. split.
  - intros v Hv. by destruct (Hown v Hv).
  - apply (Hall 2%N (Wallet.mk 2 2 700 0 0 User.zero)); reflexivity.
Defined.

(** ** Registration and login *)

Lemma all_letters_occurs s :
  all_letters s = true <-> forall c, occurs c s = true -> is_letter c = true.
Proof.
  induction s as [|a s IH]; simpl.
  - split; [by intros _ c|done].
  - rewrite andb_true_iff, IH. split.
    + intros [Ha Hs] c [Hc|Hc]%orb_true_iff; [|by apply Hs].
      by apply Ascii.eqb_eq in Hc as <-.
    + intros H. split.
      * apply H. by rewrite Ascii.eqb_refl.
      * intros c Hc. apply H. by rewrite Hc, orb_true_r.
Qed.

Section AuthFacts.
Variable env : Env.
Variable userRepo_GetByUsername : string -> M User.t.
Variable userRepo_Create : User.t -> M User.t.
Variable bcrypt_GenerateFromPassword : string -> M string.
Variable bcrypt_CompareHashAndPassword : string -> string -> bool.
Variable generateToken : User.t -> M string.
Variable json_Marshal_user : User.t -> option string.

(** X23: Register validates before it acts. A username shorter than 3 or
    longer than 50 bytes, then a username with a byte that is not an ASCII
    letter, then a password shorter than 8 or longer than 15 bytes are
    refused, in this order, each with its own message and before the user
    repository, the hash or the cache is consulted: the state is
    untouched. A registration that succeeds had a username of 3 to 50
    letters and a password of 8 to 15 bytes, and the repository had
    reported the username as not found; when the repository finds the
    username, the registration does not succeed. This holds whatever the
    repository, the hash and the codec do. *)
Theorem Register_validates_before_it_acts username password w :
  let name_length := String.length username in
  let password_length := String.length password in
  ((name_length < 3 \/ 50 < name_length)%nat ->
   (Register env userRepo_GetByUsername userRepo_Create
     bcrypt_GenerateFromPassword json_Marshal_user
     username password w)
   = (Err (errors_New "username must be between 3 and 50 characters"), w))
  /\ ((3 <= name_length <= 50)%nat -> alphabetic username = false ->
      (Register env userRepo_GetByUsername userRepo_Create
     bcrypt_GenerateFromPassword json_Marshal_user
     username password w)
      = (Err (errors_New "username must contain only alphabetic characters"), w))
  /\ ((3 <= name_length <= 50)%nat -> alphabetic username = true ->
      (password_length < 8 \/ 15 < password_length)%nat ->
      (Register env userRepo_GetByUsername userRepo_Create
     bcrypt_GenerateFromPassword json_Marshal_user
     username password w)
      = (Err (errors_New "password must be between 8 and 15 characters"), w))
  /\ (forall user w',
        (Register env userRepo_GetByUsername userRepo_Create
     bcrypt_GenerateFromPassword json_Marshal_user
     username password w) = (Ok user, w') ->
        (3 <= name_length <= 50)%nat /\
        (forall c, occurs c username = true -> is_letter c = true) /\
        (8 <= password_length <= 15)%nat /\
        exists w1, userRepo_GetByUsername username w = (Err ErrRecordNotFound, w1))
  /\ (forall existing w1,
        userRepo_GetByUsername username w = (Ok existing, w1) ->
        forall user w', (Register env userRepo_GetByUsername userRepo_Create
     bcrypt_GenerateFromPassword json_Marshal_user
     username password w) <> (Ok user, w')).
Proof.
  intros name_length password_length. unfold Register, fail.
  fold name_length password_length.
  destruct (Nat.ltb_spec name_length 3) as [H3|H3];
    [simpl; repeat split; intros; try done; lia|].
  destruct (Nat.ltb_spec 50 name_length) as [H50|H50];
    [simpl; repeat split; intros; try done; lia|].
  simpl. destruct (alphabetic username) eqn:Halpha;
    [|simpl; repeat split; intros; try done; lia].
  simpl.
  destruct (Nat.ltb_spec password_length 8) as [H8|H8];
    [simpl; repeat split; intros; try done; lia|].
  destruct (Nat.ltb_spec 15 password_length) as [H15|H15];
    [simpl; repeat split; intros; try done; lia|].
  simpl. split; [lia|]. split; [done|]. split; [lia|]. split.
  - intros user w'.
    destruct (userRepo_GetByUsername username w) as [[existing|e] w1]; [done|].
    destruct e; simpl; try done. intros _.
    split; [lia|]. split; [|split; [lia|by eexists]].
    apply all_letters_occurs. unfold alphabetic in Halpha. by destruct username.
  - intros existing w1 ->. done.
Qed.

(** X24: Login does not tell an unknown user from a wrong password. When
    the repository does not find the username, and when it finds it but
    the password does not match the stored hash, the error is the same,
    "invalid credentials", and nothing is cached; a login that returns a
    token found the user and matched the password. *)
Theorem Login_does_not_tell_which_check_failed username password w :
  (forall w1,
     userRepo_GetByUsername username w = (Err ErrRecordNotFound, w1) ->
     (Login env userRepo_GetByUsername bcrypt_CompareHashAndPassword generateToken
     json_Marshal_user
     username password w) = (Err (errors_New "invalid credentials"), w1))
  /\ (forall user w1,
        userRepo_GetByUsername username w = (Ok user, w1) ->
        bcrypt_CompareHashAndPassword (User.Password user) password = false ->
        (Login env userRepo_GetByUsername bcrypt_CompareHashAndPassword generateToken
     json_Marshal_user
     username password w) = (Err (errors_New "invalid credentials"), w1))
  /\ (forall token w',
        (Login env userRepo_GetByUsername bcrypt_CompareHashAndPassword generateToken
     json_Marshal_user
     username password w) = (Ok token, w') ->
        exists user w1,
          userRepo_GetByUsername username w = (Ok user, w1) /\
          bcrypt_CompareHashAndPassword (User.Password user) password = true).
Proof.
  unfold Login. split; [|split].
  - by intros w1 ->.
  - intros user w1 -> ->. done.
  - intros token w'.
    destruct (userRepo_GetByUsername username w) as [[user|e] w1].
    + destruct (bcrypt_CompareHashAndPassword _ _) eqn:Hc; [|done].
      intros _. by exists user, w1.
    + by destruct (is_ErrRecordNotFound e).
Qed.

End AuthFacts.

(** A username that is too short, one with a digit, a password that is
    too short, and a registration that succeeds. *)
Lemma Register_validates_before_it_acts_witness :
  let env := quiet Float64.amd64 in
  let w := world_of empty_db in
  let register :=
    Register env (Cases.GetByUsername [Cases.carol]) Cases.Create
      Cases.GenerateFromPassword Cases.Marshal_user in
  register "al" "correcthorse" w
    = (Err (errors_New "username must be between 3 and 50 characters"), w)
  /\ register "alice1" "correcthorse" w
     = (Err (errors_New "username must contain only alphabetic characters"), w)
  /\ register "alice" "horse" w
     = (Err (errors_New "password must be between 8 and 15 characters"), w)
  /\ forall user w', register "carol" "correcthorse" w <> (Ok user, w').
Proof.
  intros env w register.
  pose proof (Register_validates_before_it_acts env (Cases.GetByUsername [Cases.carol])
                Cases.Create Cases.GenerateFromPassword Cases.Marshal_user) as H.
  split; [|split; [|split]].
  - destruct (H "al" "correcthorse" w) as (Hshort & _). apply Hshort. simpl. lia.
  - destruct (H "alice1" "correcthorse" w) as (_ & Hdigit & _).
    apply Hdigit; [simpl; lia|reflexivity].
  - destruct (H "alice" "horse" w) as (_ & _ & Hpw & _).
    apply Hpw; [simpl; lia|reflexivity|simpl; lia].
  - destruct (H "carol" "correcthorse" w) as (_ & _ & _ & _ & Htaken).
    apply (Htaken Cases.carol w). reflexivity.
Defined.

(** Carol with a wrong password, and dave, whom nobody knows. *)
Lemma Login_does_not_tell_which_check_failed_witness :
  let env := quiet Float64.amd64 in
  let w := world_of empty_db in
  let login :=
    Login env (Cases.GetByUsername [Cases.carol]) Cases.CompareHashAndPassword
      Cases.token_for Cases.Marshal_user in
  login "carol" "wrong" w = (Err (errors_New "invalid credentials"), w)
  /\ login "dave" "correcthorse" w = (Err (errors_New "invalid credentials"), w).
Proof.
  intros env w login.
  pose proof (Login_does_not_tell_which_check_failed env
                (Cases.GetByUsername [Cases.carol]) Cases.CompareHashAndPassword
                Cases.token_for Cases.Marshal_user) as H.
  split.
  - destruct (H "carol" "wrong" w) as (_ & Hwrong & _).
    apply (Hwrong Cases.carol w); reflexivity.
  - destruct (H "dave" "correcthorse" w) as (Hunknown & _).
    apply (Hunknown w). reflexivity.
Defined.

(** ** The keys under which users are cached *)

Lemma user_key_not_id_key (userID id : N) : "user:" +:+ pretty userID <> user_id_key id.
Proof.
  unfold user_id_key.
  change ("user:id:" +:+ pretty id) with ("user:" +:+ ("id:" +:+ pretty id)).
  intros E%(inj (String.append "user:")).
  pose proof (pretty_N_no_colon userID) as H. rewrite E in H.
  by rewrite occurs_app in H.
Qed.

Lemma user_key_not_username_key (userID : N) name :
  "user:" +:+ pretty userID <> user_username_key name.
Proof.
  unfold user_username_key.
  change ("user:username:" +:+ name) with ("user:" +:+ ("username:" +:+ name)).
  intros E%(inj (String.append "user:")).
  pose proof (pretty_N_no_colon userID) as H. rewrite E in H.
  by rewrite occurs_app in H.
Qed.

Lemma CreateWallet_cache env userID w :
  let w' := snd (CreateWallet env userID w) in
  cache w' = cache w \/ cache w' = delete ("user:" +:+ pretty userID) (cache w).
Proof.
  unfold CreateWallet, userRepo_GetByID, walletRepo_Create, invalidateUserCache,
    redis_Del. unfold_gorm. simpl.
  repeat (case_match; simplify_eq/=; try (by left)); by right.
Qed.

(** X25: the key CreateWallet invalidates is not a key under which users
    are cached. [invalidateUserCache] deletes "user:<id>", while
    [cacheUser] writes "user:username:<name>" and "user:id:<id>": whatever
    CreateWallet does, the entries under those two keys are as before, for
    every name and every identifier, that of the user included. *)
Theorem CreateWallet_never_evicts_a_cached_user env userID w name id :
  let w' := snd (CreateWallet env userID w) in
  cache w' !! user_username_key name = cache w !! user_username_key name /\
  cache w' !! user_id_key id = cache w !! user_id_key id.
Proof.
  intros w'. destruct (CreateWallet_cache env userID w) as [E|E];
    fold w' in E; rewrite E; [done|].
  split; apply lookup_delete_ne.
  - apply user_key_not_username_key.
  - apply user_key_not_id_key.
Qed.
